(** * doc-gen-app: storage gateway and redaction sessions

    A shallow embedding of [services/fileService.js] (the per-provider
    adapters and the multipart protocol) and of
    [services/redactionService.js] (redaction sessions kept in a
    node-cache store), followed by the properties of the specification
    that concern them.

    JavaScript numbers that carry coordinates are IEEE-754 binary64 values
    and are modelled by Rocq's primitive floats; integral quantities (part
    numbers, page numbers, millisecond clocks) are modelled by [Z]. *)

From Stdlib Require Import ZArith Lia Bool Ascii String.
From Stdlib Require Import Floats.PrimFloat.
From stdpp Require Import gmap strings list pretty.

Local Open Scope string_scope.
Local Open Scope list_scope.
Local Open Scope Z_scope.

(** ** JavaScript values and built-ins used by the services *)

Module JS.

(** Exceptions: [new Error(msg)] and the engine's [TypeError]. *)
Inductive error : Type :=
| Error (message : string)
| TypeError (message : string).

Definition message (e : error) : string :=
  match e with Error m => m | TypeError m => m end.

(** A [Buffer] is a sequence of octets. *)
Definition Buffer : Type := list N.

(** [a || b] on an optional string: [undefined] and [''] are falsy. *)
Definition truthy (o : option string) : option string :=
  match o with
  | Some "" => None
  | other => other
  end.

Definition or_else (o : option string) (d : string) : string :=
  match truthy o with Some s => s | None => d end.

(** Numbers are binary64.  An integer of magnitude below [2 ^ 53] is a
    number itself; a larger one stands for the number nearest to it, ties
    to even, and [None] is [Infinity]. *)
Definition MAX_SAFE_INTEGER : Z := 9007199254740991.

Definition nearest_double (n : Z) : option Z :=
  if n <? 2 ^ 53 then Some n
  else
    let e := Z.log2 n - 52 in
    let q := Z.shiftr n e in
    let r := n - Z.shiftl q e in
    let half := 2 ^ (e - 1) in
    let m := if r <? half then q
             else if half <? r then q + 1
             else if Z.even q then q else q + 1 in
    let v := Z.shiftl m e in
    if 2 ^ 1024 <=? v then None else Some v.

Definition rounds_to (v c : Z) : bool :=
  match nearest_double c with
  | Some v' => v' =? v
  | None => false
  end.

(** The decimal with the fewest significant digits whose nearest number
    is [v], tried from [k] digits upwards; of two with as few digits, the
    one closer to [v], and of two equally close the even one. *)
Fixpoint shortest_decimal (tries : nat) (k len v : Z) : Z :=
  match tries with
  | O => v
  | S tries' =>
      let g := 10 ^ (len - k) in
      let s := v / g in
      let lo := s * g in
      let hi := lo + g in
      match rounds_to v lo, rounds_to v hi with
      | true, true =>
          if v - lo <? hi - v then lo
          else if hi - v <? v - lo then hi
          else if Z.even s then lo else hi
      | true, false => lo
      | false, true => hi
      | false, false => shortest_decimal tries' (k + 1) len v
      end
  end.

Fixpoint strip_zeros (s : string) : string :=
  match s with
  | EmptyString => ""
  | String c r =>
      let r' := strip_zeros r in
      if Ascii.eqb c "0" && String.eqb r' "" then "" else String c r'
  end.

(** The digits of the decimal [c] when there are at most 21 of them, else
    the exponent form: first digit, the other significant digits after a
    point, [e+] and the exponent. *)
Definition print_decimal (c : Z) : string :=
  let digits := pretty c in
  let n := String.length digits in
  if (n <=? 21)%nat then digits
  else
    match strip_zeros digits with
    | String d EmptyString => String d ("e+" +:+ pretty (Z.of_nat n - 1))
    | String d rest =>
        String d ("." +:+ rest +:+ "e+" +:+ pretty (Z.of_nat n - 1))
    | EmptyString => digits
    end.

(** [Number.prototype.toString()] on an integral number: its decimal
    digits up to [MAX_SAFE_INTEGER]; beyond, the shortest decimal that
    denotes the same number, in exponent form from [1e21], and
    [Infinity]. *)
Definition toString (n : Z) : string :=
  if Z.abs n <? 2 ^ 53 then pretty n
  else
    (if n <? 0 then "-" else "") +:+
    match nearest_double (Z.abs n) with
    | None => "Infinity"
    | Some v =>
        print_decimal
          (shortest_decimal 17 1 (Z.of_nat (String.length (pretty v))) v)
    end.

(** [take_cyclic n pad rest]: the first [n] characters of [rest] followed
    by [pad] repeated for ever. *)
Fixpoint take_cyclic (n : nat) (pad rest : string) : string :=
  match n with
  | O => ""
  | S n' =>
      match rest with
      | String c r => String c (take_cyclic n' pad r)
      | EmptyString =>
          match pad with
          | String c r => String c (take_cyclic n' pad r)
          | EmptyString => ""
          end
      end
  end.

(** [String.prototype.padStart(targetLength, padString)]. *)
Definition padStart (targetLength : nat) (padString s : string) : string :=
  if (targetLength <=? String.length s)%nat then s
  else take_cyclic (targetLength - String.length s) padString padString +:+ s.

(** [String.prototype.substr(start, length)] for [start >= 0]. *)
Fixpoint drop_string (n : nat) (s : string) : string :=
  match n, s with
  | O, _ => s
  | S n', String _ r => drop_string n' r
  | S _, EmptyString => ""
  end.

Fixpoint take_string (n : nat) (s : string) : string :=
  match n, s with
  | S n', String c r => String c (take_string n' r)
  | _, _ => ""
  end.

Definition substr (start len : nat) (s : string) : string :=
  take_string len (drop_string start s).

(** [s.replace(c, '')] for a one-character pattern: the first occurrence
    is removed. *)
Fixpoint remove_first (c : ascii) (s : string) : string :=
  match s with
  | EmptyString => ""
  | String d r => if Ascii.eqb c d then r else String d (remove_first c r)
  end.

(** [Buffer.from(s)] for a string of one-octet characters. *)
Fixpoint Buffer_from (s : string) : Buffer :=
  match s with
  | EmptyString => []
  | String c r => N_of_ascii c :: Buffer_from r
  end.

Definition base64_alphabet : string :=
  "ABCDEFGHIJKLMNOPQRSTUVWXYZabcdefghijklmnopqrstuvwxyz0123456789+/".

Definition base64_digit (n : N) : ascii :=
  match String.get (N.to_nat n) base64_alphabet with
  | Some c => c
  | None => "="%char
  end.

(** [buf.toString('base64')]: three octets become four digits; a final
    group of one or two octets is padded with [=]. *)
Fixpoint toString_base64 (b : Buffer) : string :=
  match b with
  | [] => ""
  | [x] =>
      let n := (x * 65536)%N in
      String (base64_digit (n / 262144))
        (String (base64_digit ((n / 4096) mod 64)) "==")
  | [x; y] =>
      let n := (x * 65536 + y * 256)%N in
      String (base64_digit (n / 262144))
        (String (base64_digit ((n / 4096) mod 64))
           (String (base64_digit ((n / 64) mod 64)) "="))
  | x :: y :: z :: rest =>
      let n := (x * 65536 + y * 256 + z)%N in
      String (base64_digit (n / 262144))
        (String (base64_digit ((n / 4096) mod 64))
           (String (base64_digit ((n / 64) mod 64))
              (String (base64_digit (n mod 64)) (toString_base64 rest))))
  end.

End JS.

Import JS.

(** ** Calls that leave the process

    The adapters talk to three vendor SDKs and read the clock and the
    random generator.  Each such call is an event indexed by the type of
    its answer; a promise that may reject answers in [error + X]. *)

(** The metadata resource of a GCS object, as far as the service reads it.
    [md_size] is [parseInt(metadata.size)], with [None] for [NaN]. *)
Record gcs_metadata : Type := GcsMetadata {
  md_size : option Z;
  md_updated : option string;
  md_timeCreated : option string;
  md_contentType : option string;
  md_etag : option string;
  md_md5Hash : option string
}.

Inductive sdkE : Type -> Type :=
| Date_now : sdkE Z
| Math_random_base36 : sdkE string
| getGCPStorage : sdkE (error + unit)
| getAWSS3 : sdkE (error + unit)
| getAzureBlob : sdkE (error + unit)
| Gcs_getFiles (bucket prefix : string) (maxResults : N)
    : sdkE (error + list string)
| Gcs_getMetadata (bucket name : string)
    : sdkE (error + gcs_metadata)
| Gcs_write (bucket name : string) (contentType : option string)
    (resumable : bool) (body : Buffer) : sdkE (error + unit)
| S3_createMultipartUpload (Bucket Key : string) (ContentType : option string)
    : sdkE (error + string)
| S3_uploadPart (Bucket Key UploadId : string) (PartNumber : Z) (Body : Buffer)
    : sdkE (error + string)
| S3_completeMultipartUpload (Bucket Key UploadId : string)
    (Parts : list (string * Z)) : sdkE (error + option string)
| Az_stageBlock (container blob blockId : string) (body : Buffer) (len : nat)
    : sdkE (error + unit)
| Az_commitBlockList (container blob : string) (blockIds : list string)
    : sdkE (error + unit).

(** A request with its answer type packed. *)
Definition request : Type := { X : Type & sdkE X }.

Definition req {X} (c : sdkE X) : request := existT X c.

(** Programs over these events. *)
Inductive sdk (A : Type) : Type :=
| Ret (a : A)
| Throw (e : error)
| Vis {X : Type} (c : sdkE X) (k : X -> sdk A).

Arguments Ret {A} a.
Arguments Throw {A} e.
Arguments Vis {A X} c k.

Fixpoint sdk_bind {A B} (f : A -> sdk B) (p : sdk A) : sdk B :=
  match p with
  | Ret a => f a
  | Throw e => Throw e
  | Vis c k => Vis c (fun x => sdk_bind f (k x))
  end.

#[export] Instance sdk_ret : MRet sdk := fun A a => Ret a.
#[export] Instance sdk_mbind : MBind sdk := fun A B f p => sdk_bind f p.

(** [try { p } catch (e) { h e }]. *)
Fixpoint try_catch {A} (p : sdk A) (h : error -> sdk A) : sdk A :=
  match p with
  | Ret a => Ret a
  | Throw e => h e
  | Vis c k => Vis c (fun x => try_catch (k x) h)
  end.

(** Reading an ambient value, and [await]ing a promise. *)
Definition perform {X} (c : sdkE X) : sdk X := Vis c Ret.

Definition await {X} (c : sdkE (error + X)) : sdk X :=
  Vis c (fun r => match r with inl e => Throw e | inr x => Ret x end).

(** An environment answers every event from its state. *)
Definition handler (S : Type) : Type := forall X, sdkE X -> S -> X * S.

Fixpoint run {S A} (h : handler S) (p : sdk A) (s : S) : (error + A) * S :=
  match p with
  | Ret a => (inr a, s)
  | Throw e => (inl e, s)
  | Vis c k => let '(x, s') := h _ c s in run h (k x) s'
  end.

(** The requests a program issues, in order, against an environment. *)
Fixpoint calls {S A} (h : handler S) (p : sdk A) (s : S) : list request :=
  match p with
  | Ret _ => []
  | Throw _ => []
  | Vis c k => let '(x, s') := h _ c s in req c :: calls h (k x) s'
  end.

(** ** services/fileService.js *)

(** A [Date] is built either from a timestamp string of the provider or
    from the clock. *)
Inductive js_date : Type :=
| Date_of (s : option string)
| Date_at (ms : Z).

(** An entry of a listing. *)
Record file_entry : Type := FileEntry {
  fileName : string;
  size : Z;
  lastModified : js_date;
  contentType : string;
  entry_etag : option string;
  md5Hash : option string
}.

(** An element of the [parts] array handed to [completeMultipartUpload]. *)
Record part : Type := Part {
  partNumber : Z;
  etag : string
}.

(** The acknowledgement objects the adapters resolve with. *)
Record ack : Type := Ack {
  success : bool;
  ack_uploadId : option string;
  ack_location : option string;
  ack_fileName : option string
}.

Module FileService.

(** Members of [class FileService], as declared.  Methods declared
    [static] are properties of the constructor; the others are found on
    the prototype of every instance. *)
Definition prototype_methods : list string :=
  [ "listFiles"; "uploadFile"; "deleteFile"; "downloadFile";
    "generateShareLink"; "initiateMultipartUpload"; "uploadPart";
    "completeMultipartUpload";
    "listGCPFiles"; "uploadGCPFile"; "deleteGCPFile"; "downloadGCPFile";
    "generateGCPShareLink"; "initiateGCPResumableUpload"; "uploadGCPChunk";
    "completeGCPResumableUpload";
    "listAWSFiles"; "uploadAWSFile"; "deleteAWSFile"; "downloadAWSFile";
    "generateAWSShareLink"; "initiateAWSMultipartUpload"; "uploadAWSPart";
    "completeAWSMultipartUpload";
    "listAzureFiles"; "uploadAzureFile"; "deleteAzureFile";
    "downloadAzureFile"; "generateAzureShareLink";
    "initiateAzureBlockUpload"; "uploadAzureBlock";
    "completeAzureBlockUpload"; "streamToBuffer" ].

Definition static_methods : list string :=
  [ "formatFileSize"; "getFileExtension"; "isImageFile"; "isPDFFile";
    "isVideoFile"; "isOCRCompatible"; "validateFileName"; "getMimeType" ].

(** [constructor(platform)]: the platform is kept in lower case. *)
Definition to_lower (c : ascii) : ascii :=
  let n := N_of_ascii c in
  if ((65 <=? n) && (n <=? 90))%N then ascii_of_N (n + 32) else c.

Fixpoint toLowerCase (s : string) : string :=
  match s with
  | EmptyString => ""
  | String c r => String (to_lower c) (toLowerCase r)
  end.

Definition FileService_new (platform : string) : string := toLowerCase platform.

Section WithMime.

(** [mime.lookup] of the mime-types package: a content type, or
    [false]. *)
Variable mime_lookup : string -> option string.

(** [static getMimeType(fileName)]. *)
Definition getMimeType (fileName : string) : string :=
  or_else (mime_lookup fileName) "application/octet-stream".

(** The call [this.getMimeType(name)] made from an instance method:
    the property is looked up on the instance and its prototype, and
    calling [undefined] raises a [TypeError]. *)
Definition this_getMimeType (name : string) : sdk string :=
  if bool_decide ("getMimeType" ∈ prototype_methods)
  then Ret (getMimeType name)
  else Throw (TypeError "this.getMimeType is not a function").

(** *** Provider A: Google Cloud Storage *)

(** The body of [for (const file of files)]. *)
Fixpoint listGCPFiles_loop (bucketName : string) (files : list string)
    (fileList : list file_entry) : sdk (list file_entry) :=
  match files with
  | [] => Ret fileList
  | file :: rest =>
      entry ← try_catch
        (metadata ← await (Gcs_getMetadata bucketName file);
         ct ← match truthy (md_contentType metadata) with
              | Some c => Ret c
              | None => this_getMimeType file
              end;
         Ret {| fileName := file;
                size := default 0 (md_size metadata);
                lastModified :=
                  Date_of (match truthy (md_updated metadata) with
                           | Some u => Some u
                           | None => md_timeCreated metadata
                           end);
                contentType := ct;
                entry_etag := md_etag metadata;
                md5Hash := md_md5Hash metadata |})
        (fun metadataError =>
           now ← perform Date_now;
           ct ← this_getMimeType file;
           Ret {| fileName := file;
                  size := 0;
                  lastModified := Date_at now;
                  contentType := ct;
                  entry_etag := Some "";
                  md5Hash := Some "" |});
      listGCPFiles_loop bucketName rest (fileList ++ [entry])
  end.

Definition listGCPFiles (bucketName prefix : string)
    : sdk (list file_entry) :=
  try_catch
    (_ ← await getGCPStorage;
     files ← await (Gcs_getFiles bucketName prefix 1000);
     listGCPFiles_loop bucketName files [])
    (fun error =>
       Throw (Error ("Failed to list files: " +:+ message error))).

Definition uploadGCPFile (bucketName fileName : string) (buffer : Buffer)
    (contentType : option string) : sdk ack :=
  _ ← await getGCPStorage;
  _ ← await (Gcs_write bucketName fileName contentType false buffer);
  Ret {| success := true; ack_uploadId := None; ack_location := None;
         ack_fileName := Some fileName |}.

(** The [uploadSession] object built here is a local that nothing
    reads afterwards. *)
Definition initiateGCPResumableUpload (bucketName fileName : string)
    (contentType : option string) : sdk string :=
  _ ← await getGCPStorage;
  now ← perform Date_now;
  rnd ← perform Math_random_base36;
  Ret ("gcp_" +:+ toString now +:+ "_" +:+ substr 2 9 rnd).

Definition uploadGCPChunk (bucketName fileName uploadId : string)
    (partNumber : Z) (buffer : Buffer) : sdk string :=
  Ret ("gcp_chunk_" +:+ toString partNumber +:+ "_" +:+ uploadId).

Definition completeGCPResumableUpload (bucketName fileName uploadId : string)
    : sdk ack :=
  Ret {| success := true; ack_uploadId := Some uploadId;
         ack_location := None; ack_fileName := None |}.

(** *** Provider B: S3

    [getAWSS3] returns the client that cloudService.js builds with
    [new S3Client(awsConfig)] from [@aws-sdk/client-s3]: operations on it
    are commands handed to [send] (as [getAWSBuckets] does).  The adapter
    calls a method per operation, [s3.createMultipartUpload(params)
    .promise()] and the like; such a call is looked up on the client, and
    calling [undefined] raises a [TypeError]. *)

Definition S3Client_methods : list string := [ "send"; "destroy" ].

Definition s3_method {A} (name : string) (call : sdk A) : sdk A :=
  if bool_decide (name ∈ S3Client_methods) then call
  else Throw (TypeError ("s3." +:+ name +:+ " is not a function")).

Definition initiateAWSMultipartUpload (bucketName fileName : string)
    (contentType : option string) : sdk string :=
  _ ← await getAWSS3;
  s3_method "createMultipartUpload"
    (await (S3_createMultipartUpload bucketName fileName contentType)).

Definition uploadAWSPart (bucketName fileName uploadId : string)
    (partNumber : Z) (buffer : Buffer) : sdk string :=
  _ ← await getAWSS3;
  s3_method "uploadPart"
    (await (S3_uploadPart bucketName fileName uploadId partNumber buffer)).

Definition completeAWSMultipartUpload (bucketName fileName uploadId : string)
    (parts : list part) : sdk ack :=
  _ ← await getAWSS3;
  let Parts := map (fun part => (etag part, partNumber part)) parts in
  location ← s3_method "completeMultipartUpload"
               (await (S3_completeMultipartUpload bucketName fileName uploadId
                         Parts));
  Ret {| success := true; ack_uploadId := None; ack_location := location;
         ack_fileName := None |}.

(** *** Provider C: Azure block blobs *)

Definition initiateAzureBlockUpload (bucketName fileName : string)
    (contentType : option string) : sdk string :=
  now ← perform Date_now;
  rnd ← perform Math_random_base36;
  Ret ("azure_" +:+ toString now +:+ "_" +:+ substr 2 9 rnd).

(** [Buffer.from(partNumber.toString().padStart(6, '0')).toString('base64')] *)
Definition blockId_of (partNumber : Z) : string :=
  toString_base64 (Buffer_from (padStart 6 "0" (toString partNumber))).

Definition uploadAzureBlock (bucketName fileName uploadId : string)
    (partNumber : Z) (buffer : Buffer) : sdk string :=
  _ ← await getAzureBlob;
  let blockId := blockId_of partNumber in
  _ ← await (Az_stageBlock bucketName fileName blockId buffer (length buffer));
  Ret blockId.

Definition completeAzureBlockUpload (bucketName fileName uploadId : string)
    (parts : list part) : sdk ack :=
  _ ← await getAzureBlob;
  let blockIds := map (fun part => etag part) parts in
  _ ← await (Az_commitBlockList bucketName fileName blockIds);
  Ret {| success := true; ack_uploadId := None; ack_location := None;
         ack_fileName := Some fileName |}.

(** *** Dispatch on [this.platform]

    The [catch] clauses of the dispatchers log the error and throw it
    again. *)

Definition unsupported {A} (platform : string) : sdk A :=
  Throw (Error ("Unsupported platform: " +:+ platform)).

Definition initiateMultipartUpload (platform bucketName fileName : string)
    (contentType : option string) : sdk string :=
  try_catch
    (if String.eqb platform "gcp"
     then initiateGCPResumableUpload bucketName fileName contentType
     else if String.eqb platform "aws"
     then initiateAWSMultipartUpload bucketName fileName contentType
     else if String.eqb platform "azure"
     then initiateAzureBlockUpload bucketName fileName contentType
     else unsupported platform)
    (fun error => Throw error).

Definition uploadPart (platform bucketName fileName uploadId : string)
    (partNumber : Z) (buffer : Buffer) : sdk string :=
  try_catch
    (if String.eqb platform "gcp"
     then uploadGCPChunk bucketName fileName uploadId partNumber buffer
     else if String.eqb platform "aws"
     then uploadAWSPart bucketName fileName uploadId partNumber buffer
     else if String.eqb platform "azure"
     then uploadAzureBlock bucketName fileName uploadId partNumber buffer
     else unsupported platform)
    (fun error => Throw error).

Definition completeMultipartUpload (platform bucketName fileName uploadId : string)
    (parts : list part) : sdk ack :=
  try_catch
    (if String.eqb platform "gcp"
     then completeGCPResumableUpload bucketName fileName uploadId
     else if String.eqb platform "aws"
     then completeAWSMultipartUpload bucketName fileName uploadId parts
     else if String.eqb platform "azure"
     then completeAzureBlockUpload bucketName fileName uploadId parts
     else unsupported platform)
    (fun error => Throw error).

End WithMime.

End FileService.

(** ** A caller of the multipart protocol

    The routes call [initiateMultipartUpload], then [uploadPart] once per
    chunk, then [completeMultipartUpload] with the tokens they were given.
    [upload_parts] numbers the chunks from [n] upwards. *)

Section Caller.

Fixpoint upload_parts (platform bucket key uploadId : string) (n : Z)
    (chunks : list Buffer) : sdk (list part) :=
  match chunks with
  | [] => Ret []
  | chunk :: rest =>
      token ← FileService.uploadPart platform bucket key uploadId n chunk;
      parts ← upload_parts platform bucket key uploadId (n + 1) rest;
      Ret ({| partNumber := n; etag := token |} :: parts)
  end.

Definition multipart_session (platform bucket key : string)
    (contentType : option string) (chunks : list Buffer) : sdk ack :=
  uploadId ← FileService.initiateMultipartUpload platform bucket key contentType;
  parts ← upload_parts platform bucket key uploadId 1 chunks;
  FileService.completeMultipartUpload platform bucket key uploadId parts.

End Caller.

(** What a request carries, for the requests the properties speak of. *)

Definition written_object (r : request) : option (string * string * Buffer) :=
  match r with
  | existT _ (Gcs_write bucket name _ _ body) => Some (bucket, name, body)
  | _ => None
  end.

Definition is_write (r : request) : bool :=
  match written_object r with Some _ => true | None => false end.

Definition committed_block_ids (r : request) : option (list string) :=
  match r with
  | existT _ (Az_commitBlockList _ _ blockIds) => Some blockIds
  | _ => None
  end.

(** [ascending l]: strictly increasing part numbers. *)
Fixpoint ascending (l : list Z) : bool :=
  match l with
  | a :: (b :: _) as rest => Z.ltb a b && ascending rest
  | _ => true
  end.

(** ** An in-memory cloud

    A small environment used to run the adapters on concrete inputs: GCS
    objects with an optional metadata resource, staged and committed Azure
    blocks, and an S3 endpoint that acknowledges what it is sent (the
    adapters as written never reach it). *)

Module Cloud.

Record gcs_object : Type := GcsObject {
  body : Buffer;
  metadata : option gcs_metadata
}.

Record t : Type := Make {
  clock : Z;
  gcs : list (string * string * gcs_object);
  azure_staged : list (string * string * string * Buffer);
  azure_blobs : list (string * string * Buffer)
}.

Definition empty : t :=
  {| clock := 1700000000000; gcs := []; azure_staged := []; azure_blobs := [] |}.

Fixpoint assoc {K V} `{EqDecision K} (k : K) (l : list (K * V)) : option V :=
  match l with
  | [] => None
  | (k', v) :: rest => if decide (k = k') then Some v else assoc k rest
  end.

Fixpoint starts_with (p s : string) : bool :=
  match p, s with
  | EmptyString, _ => true
  | String a p', String b s' => Ascii.eqb a b && starts_with p' s'
  | String _ _, EmptyString => false
  end.

Definition gcs_names (bucket prefix : string) (s : t) : list string :=
  omap (fun '(b, n, _) =>
          if String.eqb b bucket && starts_with prefix n then Some n else None)
       (gcs s).

Definition gcs_get (bucket name : string) (s : t) : option gcs_object :=
  assoc (bucket, name) (gcs s).

Definition gcs_put (bucket name : string) (o : gcs_object) (s : t) : t :=
  {| clock := clock s;
     gcs := filter (fun e => e.1 ≠ (bucket, name)) (gcs s) ++ [(bucket, name, o)];
     azure_staged := azure_staged s;
     azure_blobs := azure_blobs s |}.

Fixpoint gather (container blob : string) (ids : list string) (s : t)
    : option Buffer :=
  match ids with
  | [] => Some []
  | id :: rest =>
      match assoc (container, blob, id) (azure_staged s), gather container blob rest s with
      | Some b, Some bs => Some (b ++ bs)%list
      | _, _ => None
      end
  end.

Definition handle : handler t := fun X c s =>
  match c in sdkE X return X * t with
  | Date_now => (clock s, s)
  | Math_random_base36 => ("0.k3j9x2m1q8z", s)
  | getGCPStorage => (inr tt, s)
  | getAWSS3 => (inr tt, s)
  | getAzureBlob => (inr tt, s)
  | Gcs_getFiles bucket prefix maxResults =>
      (inr (take (N.to_nat maxResults) (gcs_names bucket prefix s)), s)
  | Gcs_getMetadata bucket name =>
      match gcs_get bucket name s with
      | Some {| metadata := Some m |} => (inr m, s)
      | Some {| metadata := None |} => (inl (Error "metadata unavailable"), s)
      | None => (inl (Error ("No such object: " +:+ name)), s)
      end
  | Gcs_write bucket name contentType _ body =>
      (inr tt,
       gcs_put bucket name
         {| body := body;
            metadata := Some {| md_size := Some (Z.of_nat (length body));
                                md_updated := None; md_timeCreated := None;
                                md_contentType := contentType;
                                md_etag := None; md_md5Hash := None |} |} s)
  | S3_createMultipartUpload _ _ _ => (inr "upload-1", s)
  | S3_uploadPart _ _ _ PartNumber _ => (inr ("etag-" +:+ toString PartNumber), s)
  | S3_completeMultipartUpload Bucket Key _ _ =>
      (inr (Some ("https://" +:+ Bucket +:+ ".s3.amazonaws.com/" +:+ Key)), s)
  | Az_stageBlock container blob blockId body _ =>
      (inr tt,
       {| clock := clock s; gcs := gcs s;
          azure_staged := (container, blob, blockId, body) :: azure_staged s;
          azure_blobs := azure_blobs s |})
  | Az_commitBlockList container blob blockIds =>
      match gather container blob blockIds s with
      | Some content =>
          (inr tt,
           {| clock := clock s; gcs := gcs s; azure_staged := azure_staged s;
              azure_blobs := (container, blob, content) :: azure_blobs s |})
      | None => (inl (Error "The specified block list is invalid."), s)
      end
  end.

(** A mime table for the examples. *)
Definition mime_lookup (name : string) : option string :=
  if String.eqb (substr (String.length name - 4) 4 name) ".pdf"
  then Some "application/pdf" else None.

End Cloud.

(** A bucket for the examples of listing. *)
Module ListingExample.

Definition pdf_metadata : gcs_metadata :=
  {| md_size := Some 1024; md_updated := Some "2024-05-01T10:00:00.000Z";
     md_timeCreated := Some "2024-05-01T09:00:00.000Z";
     md_contentType := Some "application/pdf";
     md_etag := Some "CJ6xyz="; md_md5Hash := Some "1B2M2Y8AsgTpgAmY7PhCfg==" |}.

Definition object_with (m : option gcs_metadata) : Cloud.gcs_object :=
  {| Cloud.body := [37; 80; 68; 70]%N; Cloud.metadata := m |}.

(** Three objects, all with a metadata resource. *)
Definition healthy : Cloud.t :=
  {| Cloud.clock := 1700000000000;
     Cloud.gcs := [ ("docs", "a.pdf", object_with (Some pdf_metadata));
                    ("docs", "b.pdf", object_with (Some pdf_metadata));
                    ("docs", "c.pdf", object_with (Some pdf_metadata)) ];
     Cloud.azure_staged := []; Cloud.azure_blobs := [] |}.

(** The same bucket when the metadata request for [b.pdf] is rejected. *)
Definition degraded : Cloud.t :=
  {| Cloud.clock := 1700000000000;
     Cloud.gcs := [ ("docs", "a.pdf", object_with (Some pdf_metadata));
                    ("docs", "b.pdf", object_with None);
                    ("docs", "c.pdf", object_with (Some pdf_metadata)) ];
     Cloud.azure_staged := []; Cloud.azure_blobs := [] |}.

End ListingExample.

(** ** pdf-lib documents

    A decoded document is its pages; a page has a size and the rectangles
    that [drawRectangle] appended to its content. *)

Record color : Type := RGB { red : float; green : float; blue : float }.

Record rectangle : Type := Rectangle {
  rect_x : float;
  rect_y : float;
  rect_width : float;
  rect_height : float;
  rect_color : color;
  rect_opacity : float
}.

Record PDFPage : Type := Page {
  page_width : float;
  page_height : float;
  drawn : list rectangle
}.

Abbreviation PDFDocument := (list PDFPage).

(** What the service takes from outside: the codec and the colour
    constructor of pdf-lib, two built-ins of the language on numbers, the
    random string of the identifiers, and the download of the storage
    gateway ([None] when the answer has no buffer). *)
Record Runtime : Type := {
  PDFDocument_load : Buffer -> error + PDFDocument;
  PDFDocument_save : PDFDocument -> Buffer;
  rgb : float -> float -> float -> error + color;
  parseInt16 : string -> float;
  Math_round : float -> float;
  Math_random_base36_at : Z -> string;
  downloadFile : string -> string -> string -> error + option Buffer
}.

(** ** node-cache

    The store of the node-cache package, as its documentation gives it:
    [set] stamps the entry with [now + ttl * 1000] ([0] when the ttl is
    [0]: no expiry), [get] answers [undefined] and drops the entry once
    that instant is in the past, and does not move the stamp.  Values are
    cloned on the way in and out, so a caller never shares an object with
    the store. *)

Module NodeCache.

Record entry (V : Type) : Type := Entry { v : V; t : Z }.
Arguments Entry {V} v t.
Arguments v {V} e.
Arguments t {V} e.

Definition wrap {V} (stdTTL now : Z) (value : V) : entry V :=
  {| v := value; t := if stdTTL =? 0 then 0 else now + stdTTL * 1000 |}.

(** [_check]: an entry is dead when [t !== 0 && t < Date.now()]. *)
Definition check {V} (now : Z) (e : entry V) : bool :=
  negb (negb (t e =? 0) && (t e <? now)).

Definition set {V} (stdTTL now : Z) (key : string) (value : V)
    (data : gmap string (entry V)) : gmap string (entry V) :=
  <[key := wrap stdTTL now value]> data.

Definition get {V} (now : Z) (key : string) (data : gmap string (entry V))
    : option V * gmap string (entry V) :=
  match data !! key with
  | Some e => if check now e then (Some (v e), data) else (None, delete key data)
  | None => (None, data)
  end.


End NodeCache.

(** ** services/redactionService.js *)

(** A rectangle of the [redactions] array. *)
Module Redaction.

Record t : Type := Make {
  pageNumber : Z;
  x : float;
  y : float;
  width : float;
  height : float
}.

End Redaction.

Record pageInfo : Type := PageInfo {
  info_pageNumber : Z;
  dimensions : float * float;
  previewUrl : string
}.

(** [sessionData]. *)
Module Session.

Record t : Type := Make {
  sessionId : string;
  fileName : string;
  bucketName : string;
  platform : option string;
  pdfBuffer : Buffer;
  pageCount : Z;
  pages : list pageInfo;
  createdAt : Z;
  redactions : list Redaction.t;
  redactedAt : option Z
}.

End Session.

(** The process as the service sees it: the clock, the module-level
    [sessionCache], and the documents that [PDFDocument.load] has created,
    each known by its position in [heap]. *)
Record world : Type := World {
  now : Z;
  sessionCache : gmap string (NodeCache.entry Session.t);
  heap : list PDFDocument
}.

(** [new NodeCache({ stdTTL: 3600 })]. *)
Definition stdTTL : Z := 3600.

(** Computations of the service: they read and change the world and end
    with a value or an exception. *)
Definition M (A : Type) : Type := world -> (error + A) * world.

#[export] Instance M_ret : MRet M := fun A a w => (inr a, w).
#[export] Instance M_bind : MBind M := fun A B f m w =>
  match m w with
  | (inr a, w') => f a w'
  | (inl e, w') => (inl e, w')
  end.

Definition throw {A} (e : error) : M A := fun w => (inl e, w).

Definition try_catchM {A} (m : M A) (h : error -> M A) : M A := fun w =>
  match m w with
  | (inr a, w') => (inr a, w')
  | (inl e, w') => h e w'
  end.

Fixpoint for_each {A} (l : list A) (body : A -> M unit) : M unit :=
  match l with
  | [] => mret tt
  | a :: rest => _ ← body a; for_each rest body
  end.

Definition Date_now_M : M Z := fun w => (inr (now w), w).

Definition sessionCache_get (key : string) : M (option Session.t) := fun w =>
  let '(r, data) := NodeCache.get (now w) key (sessionCache w) in
  (inr r, {| now := now w; sessionCache := data; heap := heap w |}).

Definition sessionCache_set (key : string) (value : Session.t) : M unit := fun w =>
  (inr tt,
   {| now := now w;
      sessionCache := NodeCache.set stdTTL (now w) key value (sessionCache w);
      heap := heap w |}).


(** [arr[i]] for a numeric index. *)
Definition array_get {A} (arr : list A) (i : Z) : option A :=
  if i <? 0 then None else arr !! Z.to_nat i.

Section WithRuntime.

Variable rt : Runtime.

(** [PDFDocument.load(bytes)]: a new document object, or a rejection. *)
Definition load (bytes : Buffer) : M nat := fun w =>
  match PDFDocument_load rt bytes with
  | inl e => (inl e, w)
  | inr doc =>
      (inr (length (heap w)),
       {| now := now w; sessionCache := sessionCache w;
          heap := heap w ++ [doc] |})
  end.

(** [pdfDoc.getPages()]. *)
Definition getPages (pdfDoc : nat) : M (list PDFPage) := fun w =>
  match heap w !! pdfDoc with
  | Some doc => (inr doc, w)
  | None => (inl (TypeError "Cannot read properties of undefined"), w)
  end.

(** [page.drawRectangle(options)] on page [pageIndex] of [pdfDoc]. *)
Definition drawRectangle (pdfDoc pageIndex : nat) (r : rectangle) : M unit := fun w =>
  (inr tt,
   {| now := now w; sessionCache := sessionCache w;
      heap :=
        alter (alter (fun page =>
                        {| page_width := page_width page;
                           page_height := page_height page;
                           drawn := drawn page ++ [r] |}) pageIndex)
              pdfDoc (heap w) |}).

(** [pdfDoc.save()]. *)
Definition save (pdfDoc : nat) : M Buffer := fun w =>
  match heap w !! pdfDoc with
  | Some doc => (inr (PDFDocument_save rt doc), w)
  | None => (inl (TypeError "Cannot read properties of undefined"), w)
  end.

Definition generateSessionId : M string := fun w =>
  (inr ("redaction_" +:+ toString (now w) +:+ "_"
        +:+ substr 2 9 (Math_random_base36_at rt (now w))), w).

Definition getPageDimensions (pages : list PDFPage) (pageIndex : nat)
    : float * float :=
  match pages !! pageIndex with
  | Some page => (Math_round rt (page_width page), Math_round rt (page_height page))
  | None => (612%float, 792%float)
  end.

Definition convertCoordinate (value maxValue : float) : float :=
  if ((0 <=? value) && (value <=? 1))%float then (value * maxValue)%float
  else value.

Definition parseColor (colorString : string) : M color := fun w =>
  let hex := remove_first "#" colorString in
  let r := (parseInt16 rt (substr 0 2 hex) / 255)%float in
  let g := (parseInt16 rt (substr 2 2 hex) / 255)%float in
  let b := (parseInt16 rt (substr 4 2 hex) / 255)%float in
  (rgb rt r g b, w).

Definition preparePDFForRedaction (this_platform : option string)
    (bucketName fileName : string)
    : M (string * Z * list pageInfo * (nat * Z)) :=
  try_catchM
    (sessionId ← generateSessionId;
     startTime ← Date_now_M;
     fileData ← match truthy this_platform with
                | None =>
                    throw (TypeError "Cannot read properties of null (reading 'downloadFile')")
                | Some p =>
                    fun w => (downloadFile rt (FileService.FileService_new p)
                                bucketName fileName, w)
                end;
     match fileData with
     | None => throw (Error "Failed to download PDF file")
     | Some buffer =>
         pdfDoc ← load buffer;
         docPages ← getPages pdfDoc;
         let pageCount := length docPages in
         let pages :=
           map (fun i =>
                  {| info_pageNumber := Z.of_nat i + 1;
                     dimensions := getPageDimensions docPages i;
                     previewUrl := "/api/redaction/session/" +:+ sessionId
                                   +:+ "/page/" +:+ toString (Z.of_nat i + 1)
                                   +:+ "/preview" |})
              (seq 0 pageCount) in
         createdAt ← Date_now_M;
         let sessionData :=
           {| Session.sessionId := sessionId;
              Session.fileName := fileName;
              Session.bucketName := bucketName;
              Session.platform := this_platform;
              Session.pdfBuffer := buffer;
              Session.pageCount := Z.of_nat pageCount;
              Session.pages := pages;
              Session.createdAt := createdAt;
              Session.redactions := [];
              Session.redactedAt := None |} in
         _ ← sessionCache_set sessionId sessionData;
         endTime ← Date_now_M;
         mret (sessionId, Z.of_nat pageCount, pages,
               (length buffer, endTime - startTime))
     end)
    (fun error => throw error).

Definition applyRedactionToPage (pdfDoc : nat) (redaction : Redaction.t)
    (options_color : option string) : M unit :=
  try_catchM
    (let pageIndex := Redaction.pageNumber redaction - 1 in
     docPages ← getPages pdfDoc;
     match array_get docPages pageIndex with
     | None =>
         throw (Error ("Page " +:+ toString (Redaction.pageNumber redaction)
                       +:+ " not found"))
     | Some page =>
         let pageWidth := page_width page in
         let pageHeight := page_height page in
         let x := convertCoordinate (Redaction.x redaction) pageWidth in
         let y := convertCoordinate (Redaction.y redaction) pageHeight in
         let width := convertCoordinate (Redaction.width redaction) pageWidth in
         let height := convertCoordinate (Redaction.height redaction) pageHeight in
         color ← parseColor (or_else options_color "#000000");
         drawRectangle pdfDoc (Z.to_nat pageIndex)
           {| rect_x := x;
              rect_y := (pageHeight - y - height)%float;
              rect_width := width;
              rect_height := height;
              rect_color := color;
              rect_opacity := 1%float |}
     end)
    (fun error => throw error).

(** The object [applyRedactions] resolves with. *)
Record applied : Type := Applied {
  redactedPdfBase64 : string;
  originalSize : nat;
  redactedSize : nat;
  processingTime : Z
}.

Definition with_redactions (sessionData : Session.t)
    (redactions : list Redaction.t) (redactedAt : Z) : Session.t :=
  {| Session.sessionId := Session.sessionId sessionData;
     Session.fileName := Session.fileName sessionData;
     Session.bucketName := Session.bucketName sessionData;
     Session.platform := Session.platform sessionData;
     Session.pdfBuffer := Session.pdfBuffer sessionData;
     Session.pageCount := Session.pageCount sessionData;
     Session.pages := Session.pages sessionData;
     Session.createdAt := Session.createdAt sessionData;
     Session.redactions := redactions;
     Session.redactedAt := Some redactedAt |}.

(** The statements after [await pdfDoc.save()]. *)
Definition finish (sessionId : string) (redactions : list Redaction.t)
    (startTime : Z) (sessionData : Session.t) (redactedPdfBytes : Buffer)
    : M applied :=
  let redactedPdfBase64 := toString_base64 redactedPdfBytes in
  redactedAt ← Date_now_M;
  _ ← sessionCache_set sessionId (with_redactions sessionData redactions redactedAt);
  endTime ← Date_now_M;
  mret {| redactedPdfBase64 := redactedPdfBase64;
          originalSize := length (Session.pdfBuffer sessionData);
          redactedSize := length redactedPdfBytes;
          processingTime := endTime - startTime |}.

Definition applyRedactions (sessionId : string) (redactions : list Redaction.t)
    (options_color : option string) : M applied :=
  try_catchM
    (startTime ← Date_now_M;
     sessionData ← sessionCache_get sessionId;
     match sessionData with
     | None => throw (Error "Redaction session not found or expired")
     | Some sessionData =>
         pdfDoc ← load (Session.pdfBuffer sessionData);
         _ ← for_each redactions
               (fun redaction => applyRedactionToPage pdfDoc redaction options_color);
         redactedPdfBytes ← save pdfDoc;
         finish sessionId redactions startTime sessionData redactedPdfBytes
     end)
    (fun error => throw error).

(** The details object of [getSessionDetails]. *)
Record details : Type := Details {
  d_fileName : string;
  d_bucketName : string;
  d_platform : option string;
  d_pageCount : Z;
  d_createdAt : Z;
  d_redactionCount : nat;
  d_redactedAt : option Z
}.

Definition getSessionDetails (sessionId : string) : M details :=
  try_catchM
    (sessionData ← sessionCache_get sessionId;
     match sessionData with
     | None => throw (Error "Redaction session not found or expired")
     | Some sessionData =>
         mret {| d_fileName := Session.fileName sessionData;
                 d_bucketName := Session.bucketName sessionData;
                 d_platform := Session.platform sessionData;
                 d_pageCount := Session.pageCount sessionData;
                 d_createdAt := Session.createdAt sessionData;
                 d_redactionCount := length (Session.redactions sessionData);
                 d_redactedAt := Session.redactedAt sessionData |}
     end)
    (fun error => throw error).


(** The result of [validateRedaction]. *)
Record validation : Type := Validation {
  isValid : bool;
  errors : list string
}.

Definition validateRedaction (redaction : Redaction.t) (pageWidth pageHeight : float)
    : validation :=
  let errors :=
    ((if (Redaction.pageNumber redaction =? 0) || (Redaction.pageNumber redaction <? 1)
      then ["Invalid page number"] else [])
     ++ (if ((Redaction.x redaction <? 0)
             || (pageWidth <? Redaction.x redaction))%float
         then ["X coordinate out of bounds"] else [])
     ++ (if ((Redaction.y redaction <? 0)
             || (pageHeight <? Redaction.y redaction))%float
         then ["Y coordinate out of bounds"] else [])
     ++ (if ((Redaction.width redaction <=? 0)
             || (pageWidth <? Redaction.x redaction + Redaction.width redaction))%float
         then ["Invalid width or extends beyond page"] else [])
     ++ (if ((Redaction.height redaction <=? 0)
             || (pageHeight <? Redaction.y redaction + Redaction.height redaction))%float
         then ["Invalid height or extends beyond page"] else []))%list in
  {| isValid := bool_decide (length errors = 0%nat); errors := errors |}.

End WithRuntime.

(** ** Looking at the world *)

(** The error of a missing or expired session. *)
Definition not_found : error := Error "Redaction session not found or expired".

(** Two session objects that differ at most in [redactions] and
    [redactedAt]. *)
Definition same_document (a b : Session.t) : Prop :=
  Session.sessionId a = Session.sessionId b
  /\ Session.fileName a = Session.fileName b
  /\ Session.bucketName a = Session.bucketName b
  /\ Session.platform a = Session.platform b
  /\ Session.pdfBuffer a = Session.pdfBuffer b
  /\ Session.pageCount a = Session.pageCount b
  /\ Session.pages a = Session.pages b
  /\ Session.createdAt a = Session.createdAt b.

(** Time passing while nothing runs. *)
Definition elapse (ms : N) (w : world) : world :=
  {| now := now w + Z.of_N ms; sessionCache := sessionCache w; heap := heap w |}.

(** The session object kept under a key, whatever its stamp. *)
Definition stored (key : string) (w : world) : option Session.t :=
  NodeCache.v <$> sessionCache w !! key.

Definition set_heap (w : world) (h : list PDFDocument) : world :=
  {| now := now w; sessionCache := sessionCache w; heap := h |}.

(** ** What a call draws

    The document that the loop of [applyRedactions] builds, as a function
    of the decoded document and the rectangles. *)

Section Drawing.

Variable rt : Runtime.

Definition drawn_page (page : PDFPage) (redaction : Redaction.t) (c : color)
    : PDFPage :=
  {| page_width := page_width page;
     page_height := page_height page;
     drawn := drawn page ++
       [ {| rect_x := convertCoordinate (Redaction.x redaction) (page_width page);
            rect_y := (page_height page
                       - convertCoordinate (Redaction.y redaction) (page_height page)
                       - convertCoordinate (Redaction.height redaction) (page_height page))%float;
            rect_width := convertCoordinate (Redaction.width redaction) (page_width page);
            rect_height := convertCoordinate (Redaction.height redaction) (page_height page);
            rect_color := c;
            rect_opacity := 1%float |} ] |}.

Definition color_of (options_color : option string) : error + color :=
  let hex := remove_first "#" (or_else options_color "#000000") in
  rgb rt (parseInt16 rt (substr 0 2 hex) / 255)%float
         (parseInt16 rt (substr 2 2 hex) / 255)%float
         (parseInt16 rt (substr 4 2 hex) / 255)%float.

Definition redact_one (doc : PDFDocument) (redaction : Redaction.t)
    (options_color : option string) : error + PDFDocument :=
  match array_get doc (Redaction.pageNumber redaction - 1) with
  | None =>
      inl (Error ("Page " +:+ toString (Redaction.pageNumber redaction)
                  +:+ " not found"))
  | Some page =>
      match color_of options_color with
      | inl e => inl e
      | inr c =>
          inr (<[Z.to_nat (Redaction.pageNumber redaction - 1) :=
                  drawn_page page redaction c]> doc)
      end
  end.

(** [doc] with the rectangles of [redactions] drawn in order, or the first
    exception met. *)
Fixpoint redact_all (doc : PDFDocument) (redactions : list Redaction.t)
    (options_color : option string) : error + PDFDocument :=
  match redactions with
  | [] => inr doc
  | redaction :: rest =>
      match redact_one doc redaction options_color with
      | inl e => inl e
      | inr doc' => redact_all doc' rest options_color
      end
  end.

(** The document reached when the loop stops: all rectangles drawn, or
    those before the first one that throws. *)
Fixpoint redact_prefix (doc : PDFDocument) (redactions : list Redaction.t)
    (oc : option string) : PDFDocument :=
  match redactions with
  | [] => doc
  | redaction :: rest =>
      match redact_one doc redaction oc with
      | inl _ => doc
      | inr doc' => redact_prefix doc' rest oc
      end
  end.

End Drawing.

(** ** Calls in flight

    [applyRedactions] is an [async] function: it runs until an [await],
    gives the event loop back, and goes on when it is resumed.  A call is
    therefore in one of the states below; [step] runs it from one
    suspension to the next.  Calls of [applyRedactionToPage] run to their
    end when they are made (the function awaits nothing), so a resumed
    loop draws one rectangle and is suspended again. *)

Section Tasks.

Variable rt : Runtime.

Record call : Type := Call {
  call_sessionId : string;
  call_redactions : list Redaction.t;
  call_color : option string
}.

Inductive task : Type :=
| Called (c : call)
| AwaitLoad (c : call) (startTime : Z) (sessionData : Session.t)
| AwaitDraw (c : call) (startTime : Z) (sessionData : Session.t)
    (pdfDoc : nat) (rest : list Redaction.t)
| AwaitSave (c : call) (startTime : Z) (sessionData : Session.t) (pdfDoc : nat)
| Resolved (r : applied)
| Rejected (e : error).

(** The loop [for (const redaction of redactions)], entered or resumed
    with [rest] still to draw. *)
Definition loop (c : call) (startTime : Z) (sessionData : Session.t)
    (pdfDoc : nat) (rest : list Redaction.t) (w : world) : task * world :=
  match rest with
  | [] => (AwaitSave c startTime sessionData pdfDoc, w)
  | redaction :: rest' =>
      match applyRedactionToPage rt pdfDoc redaction (call_color c) w with
      | (inr _, w') => (AwaitDraw c startTime sessionData pdfDoc rest', w')
      | (inl e, w') => (Rejected e, w')
      end
  end.

Definition step (t : task) (w : world) : task * world :=
  match t with
  | Called c =>
      match (startTime ← Date_now_M;
             sessionData ← sessionCache_get (call_sessionId c);
             mret (startTime, sessionData)) w with
      | (inr (startTime, Some sessionData), w') =>
          (AwaitLoad c startTime sessionData, w')
      | (inr (_, None), w') =>
          (Rejected (Error "Redaction session not found or expired"), w')
      | (inl e, w') => (Rejected e, w')
      end
  | AwaitLoad c startTime sessionData =>
      match load rt (Session.pdfBuffer sessionData) w with
      | (inr pdfDoc, w') =>
          loop c startTime sessionData pdfDoc (call_redactions c) w'
      | (inl e, w') => (Rejected e, w')
      end
  | AwaitDraw c startTime sessionData pdfDoc rest =>
      loop c startTime sessionData pdfDoc rest w
  | AwaitSave c startTime sessionData pdfDoc =>
      match (redactedPdfBytes ← save rt pdfDoc;
             finish (call_sessionId c) (call_redactions c) startTime sessionData
               redactedPdfBytes) w with
      | (inr r, w') => (Resolved r, w')
      | (inl e, w') => (Rejected e, w')
      end
  | Resolved r => (Resolved r, w)
  | Rejected e => (Rejected e, w)
  end.

Definition settled (t : task) : bool :=
  match t with
  | Resolved _ | Rejected _ => true
  | _ => false
  end.

(** Begun and not yet settled. *)
Definition in_flight (t : task) : bool :=
  match t with
  | AwaitLoad _ _ _ | AwaitDraw _ _ _ _ _ | AwaitSave _ _ _ _ => true
  | _ => false
  end.

(** The document object a call holds, once it has one. *)
Definition document_of (t : task) : option nat :=
  match t with
  | AwaitDraw _ _ _ pdfDoc _ | AwaitSave _ _ _ pdfDoc => Some pdfDoc
  | _ => None
  end.

(** A call left alone: resumed [n] times in a row. *)
Fixpoint steps (n : nat) (t : task) (w : world) : task * world :=
  match n with
  | O => (t, w)
  | S n' => let '(t', w') := step t w in steps n' t' w'
  end.

(** Two calls in flight and the event loop: it resumes one of them, or
    time passes. *)
Inductive action : Type :=
| ResumeFirst
| ResumeSecond
| Tick (ms : N).

Record config : Type := Config {
  cfg_world : world;
  first : task;
  second : task
}.

Definition act (c : config) (a : action) : config :=
  match a with
  | ResumeFirst =>
      let '(t, w) := step (first c) (cfg_world c) in
      {| cfg_world := w; first := t; second := second c |}
  | ResumeSecond =>
      let '(t, w) := step (second c) (cfg_world c) in
      {| cfg_world := w; first := first c; second := t |}
  | Tick ms =>
      {| cfg_world := elapse ms (cfg_world c);
         first := first c; second := second c |}
  end.

Definition exec (schedule : list action) (c : config) : config :=
  foldl act c schedule.

End Tasks.

(** ** Calls in flight on one session: what stays true

    The predicates below speak of calls on the session [sessionId] whose
    stored bytes are [bytes]. *)

Section OnTrack.

Variable rt : Runtime.
Variable sessionId : string.
Variable bytes : Buffer.

(** Every object kept under [sessionId] holds [bytes]. *)
Definition holds_bytes (w : world) : Prop :=
  forall e, sessionCache w !! sessionId = Some e ->
            Session.pdfBuffer (NodeCache.v e) = bytes.

(** What is known of a call [c] in state [t]: the rectangles drawn so far
    on its document are its own, in order, on the decoding of [bytes]. *)
Definition on_track (c : call) (t : task) (w : world) : Prop :=
  match t with
  | Called c' => c' = c
  | AwaitLoad c' _ sessionData =>
      c' = c /\ Session.pdfBuffer sessionData = bytes
  | AwaitDraw c' _ sessionData pdfDoc rest =>
      c' = c /\ Session.pdfBuffer sessionData = bytes
      /\ exists doc0 done doc,
           PDFDocument_load rt bytes = inr doc0
           /\ call_redactions c = done ++ rest
           /\ redact_all rt doc0 done (call_color c) = inr doc
           /\ heap w !! pdfDoc = Some doc
  | AwaitSave c' _ sessionData pdfDoc =>
      c' = c /\ Session.pdfBuffer sessionData = bytes
      /\ exists doc0 doc,
           PDFDocument_load rt bytes = inr doc0
           /\ redact_all rt doc0 (call_redactions c) (call_color c) = inr doc
           /\ heap w !! pdfDoc = Some doc
  | Resolved r =>
      exists doc0 doc,
        PDFDocument_load rt bytes = inr doc0
        /\ redact_all rt doc0 (call_redactions c) (call_color c) = inr doc
        /\ redactedPdfBase64 r = toString_base64 (PDFDocument_save rt doc)
  | Rejected _ => True
  end.

(** Two calls never hold the same document object. *)
Definition apart (t1 t2 : task) : Prop :=
  forall d1 d2, document_of t1 = Some d1 -> document_of t2 = Some d2 -> d1 <> d2.

(** The two calls and the world between them. *)
Definition all_on_track (c1 c2 : call) (cfg : config) : Prop :=
  holds_bytes (cfg_world cfg)
  /\ on_track c1 (first cfg) (cfg_world cfg)
  /\ on_track c2 (second cfg) (cfg_world cfg)
  /\ apart (first cfg) (second cfg).

End OnTrack.

(** ** A runtime for the examples

    Every non-empty buffer decodes to one page of 600 by 800 points per
    octet; the encoding of a document lists, page by page, how many
    rectangles the page carries. *)

Module Example.

Definition hex_digit (c : ascii) : option Z :=
  let n := Z.of_N (N_of_ascii c) in
  if (48 <=? n) && (n <=? 57) then Some (n - 48)
  else if (97 <=? n) && (n <=? 102) then Some (n - 87)
  else if (65 <=? n) && (n <=? 70) then Some (n - 55)
  else None.

Fixpoint float_of_nat (n : nat) : float :=
  match n with
  | O => 0%float
  | S n' => (float_of_nat n' + 1)%float
  end.

Definition float_of_Z (n : Z) : float := float_of_nat (Z.to_nat n).

Definition parse_hex (s : string) : float :=
  match s with
  | String a (String b _) =>
      match hex_digit a, hex_digit b with
      | Some h, Some l => float_of_Z (16 * h + l)
      | Some h, None => float_of_Z h
      | None, _ => PrimFloat.nan
      end
  | String a EmptyString =>
      match hex_digit a with Some h => float_of_Z h | None => PrimFloat.nan end
  | EmptyString => PrimFloat.nan
  end.

Definition in_unit (f : float) : bool := ((0 <=? f) && (f <=? 1))%float.

Definition runtime : Runtime :=
  {| PDFDocument_load := fun bytes =>
       match bytes with
       | [] => inl (Error "Failed to parse PDF document")
       | _ => inr (map (fun _ => {| page_width := 600; page_height := 800;
                                    drawn := [] |}) bytes)
       end;
     PDFDocument_save := fun doc =>
       map (fun page => N.of_nat (length (drawn page))) doc;
     rgb := fun r g b =>
       if in_unit r && in_unit g && in_unit b
       then inr {| red := r; green := g; blue := b |}
       else inl (Error "red, green and blue must be at least 0 and at most 1");
     parseInt16 := parse_hex;
     Math_round := fun f => f;
     Math_random_base36_at := fun _ => "0.k3j9x2m1q8z";
     downloadFile := fun platform bucket name =>
       if String.eqb name "report.pdf" then inr (Some [37]%N)
       else inl (Error "No such object") |}.

Definition minutes (n : N) : N := (n * 60000)%N.

Definition fresh : world := {| now := 0; sessionCache := ∅; heap := [] |}.

(** The world after [report.pdf] was prepared at time 0. *)
Definition prepared : world :=
  snd (preparePDFForRedaction runtime (Some "gcp") "docs" "report.pdf" fresh).

Definition session_id : string := "redaction_0_k3j9x2m1q".

(** A rectangle given in fractions, one on a page that does not exist, and
    one that runs past the right edge of a page 600 points wide. *)
Definition inside : Redaction.t :=
  {| Redaction.pageNumber := 1; Redaction.x := 0.5; Redaction.y := 0.25;
     Redaction.width := 0.25; Redaction.height := 20 |}.

Definition page_zero : Redaction.t :=
  {| Redaction.pageNumber := 0; Redaction.x := 10; Redaction.y := 10;
     Redaction.width := 10; Redaction.height := 10 |}.

Definition too_wide : Redaction.t :=
  {| Redaction.pageNumber := 1; Redaction.x := 500; Redaction.y := 10;
     Redaction.width := 200; Redaction.height := 10 |}.

(** The session object that [prepared] holds, and the document its bytes
    decode to. *)
Definition session_data : Session.t :=
  {| Session.sessionId := session_id;
     Session.fileName := "report.pdf";
     Session.bucketName := "docs";
     Session.platform := Some "gcp";
     Session.pdfBuffer := [37]%N;
     Session.pageCount := 1;
     Session.pages :=
       [ {| info_pageNumber := 1;
            dimensions := (600%float, 800%float);
            previewUrl :=
              "/api/redaction/session/redaction_0_k3j9x2m1q/page/1/preview" |} ];
     Session.createdAt := 0;
     Session.redactions := [];
     Session.redactedAt := None |}.

Definition blank : PDFDocument :=
  [ {| page_width := 600; page_height := 800; drawn := [] |} ].

(** [blank] with [too_wide] drawn in black. *)
Definition overdrawn : PDFDocument :=
  [ {| page_width := 600; page_height := 800;
       drawn := [ {| rect_x := 500; rect_y := 780; rect_width := 200;
                     rect_height := 10;
                     rect_color := {| red := 0; green := 0; blue := 0 |};
                     rect_opacity := 1 |} ] |} ].

Definition call_of (redactions : list Redaction.t) : call :=
  {| call_sessionId := session_id; call_redactions := redactions;
     call_color := None |}.

End Example.

(** ** services/redactionService.js, the other operations *)

Set Warnings "-inexact-float".

(** [Number(n)] for a count. *)
Fixpoint Number_of_nat (n : nat) : float :=
  match n with
  | O => 0%float
  | S n' => (Number_of_nat n' + 1)%float
  end.

(** The image [generatePreview] answers with. *)
Definition placeholder_png : string :=
  "data:image/png;base64,iVBORw0KGgoAAAANSUhEUgAAAAEAAAABCAYAAAAfFcSJAAAADUlEQVR42mNkYPhfDwAChwGA60e6kgAAAABJRU5ErkJggg==".

Definition generatePreview (sessionId : string) (pageNumber : Z)
    (redactions : list Redaction.t) (options_color : option string) : M string :=
  try_catchM
    (sessionData ← sessionCache_get sessionId;
     match sessionData with
     | None => throw (Error "Redaction session not found or expired")
     | Some _ => mret placeholder_png
     end)
    (fun error => throw error).

(** An element of [suggestedRedactions]. *)
Record suggestion : Type := Suggestion {
  s_type : string;
  s_text : string;
  s_confidence : float;
  s_pageNumber : Z;
  s_x : float;
  s_y : float;
  s_width : float;
  s_height : float
}.

Definition email_suggestion : suggestion :=
  {| s_type := "email"; s_text := "john.doe@example.com"; s_confidence := 0.95;
     s_pageNumber := 1; s_x := 100; s_y := 200; s_width := 150; s_height := 20 |}.

Definition phone_suggestion : suggestion :=
  {| s_type := "phone"; s_text := "(555) 123-4567"; s_confidence := 0.92;
     s_pageNumber := 1; s_x := 100; s_y := 250; s_width := 120; s_height := 20 |}.

Definition ssn_suggestion : suggestion :=
  {| s_type := "ssn"; s_text := "123-45-6789"; s_confidence := 0.98;
     s_pageNumber := 1; s_x := 100; s_y := 300; s_width := 100; s_height := 20 |}.

(** The pushes guarded by [detectionTypes.includes(...)]. *)
Definition candidates (detectionTypes : list string) : list suggestion :=
  (if bool_decide ("email" ∈ detectionTypes) then [email_suggestion] else [])
  ++ (if bool_decide ("phone" ∈ detectionTypes) then [phone_suggestion] else [])
  ++ (if bool_decide ("ssn" ∈ detectionTypes) then [ssn_suggestion] else []).

(** [reduce((sum, r) => sum + r.confidence, 0) / length], or [0]. *)
Definition average_confidence (l : list suggestion) : float :=
  match l with
  | [] => 0%float
  | _ =>
      (fold_left (fun sum r => sum + s_confidence r) l 0
       / Number_of_nat (length l))%float
  end.

Definition autoDetectSensitiveInfo (sessionId : string)
    (detectionTypes : list string) (confidenceThreshold : float)
    : M (list suggestion * float) :=
  try_catchM
    (sessionData ← sessionCache_get sessionId;
     match sessionData with
     | None => throw (Error "Redaction session not found or expired")
     | Some _ =>
         let suggestedRedactions := candidates detectionTypes in
         let averageConfidence := average_confidence suggestedRedactions in
         mret (filter (fun r => (confidenceThreshold <=? s_confidence r)%float = true)
                 suggestedRedactions,
               averageConfidence)
     end)
    (fun error => throw error).

(** The object of [getRedactionStatistics]; [redactionsByPage] has one
    property per page number met. *)
Record statistics : Type := Statistics {
  totalRedactions : nat;
  redactionsByPage : gmap Z Z;
  averageRedactionSize : float;
  totalRedactedArea : float
}.

(** One turn of [for (const redaction of redactions)]. *)
Definition count_redaction (stats : gmap Z Z * float) (redaction : Redaction.t)
    : gmap Z Z * float :=
  let page := Redaction.pageNumber redaction in
  (<[page := default 0 (stats.1 !! page) + 1]> stats.1,
   (stats.2 + Redaction.width redaction * Redaction.height redaction)%float).

Definition getRedactionStatistics (redactions : list Redaction.t) : statistics :=
  let stats := fold_left count_redaction redactions (∅, 0%float) in
  {| totalRedactions := length redactions;
     redactionsByPage := stats.1;
     averageRedactionSize :=
       match redactions with
       | [] => 0%float
       | _ => (stats.2 / Number_of_nat (length redactions))%float
       end;
     totalRedactedArea := stats.2 |}.

(** The sum of the counts kept in [redactionsByPage]. *)
Definition sum_counts (m : gmap Z Z) : Z :=
  map_fold (fun _ c acc => c + acc) 0 m.


(** [page] is [page0] with opaque rectangles added after what it had. *)
Definition page_grown (page0 page : PDFPage) : Prop :=
  page_width page = page_width page0
  /\ page_height page = page_height page0
  /\ exists added,
       drawn page = drawn page0 ++ added
       /\ Forall (fun r => rect_opacity r = 1%float) added.

(** The number of rectangles drawn on the pages of a document. *)
Definition drawn_count (doc : PDFDocument) : nat :=
  length (concat (map drawn doc)).

(** ** services/fileService.js, what the requests of a session carry *)

Definition staged_block (r : request) : option (string * Buffer) :=
  match r with
  | existT _ (Az_stageBlock _ _ blockId body _) => Some (blockId, body)
  | _ => None
  end.

(** ** services/fileService.js, [static validateFileName]

    Strings are sequences of one-octet code units, as everywhere in this
    development.  The four [replace] calls are written as the passes they
    perform on the characters. *)

Definition underscore : ascii := "_"%char.

(** The class of the first [replace]: the characters < > : / \ | ? * and
    the double quote (code 34). *)
Definition invalid_chars : list ascii :=
  ascii_of_nat 34 :: list_ascii_of_string "<>:/\|?*".

Definition invalid_char (c : ascii) : bool := bool_decide (c ∈ invalid_chars).

(** The class [\s] on one-octet code units: tab, line feed, vertical tab,
    form feed, carriage return, space and no-break space. *)
Definition is_space (c : ascii) : bool :=
  bool_decide (nat_of_ascii c ∈ [9; 10; 11; 12; 13; 32; 160]%nat).

(** The first [replace]: each character of the class becomes an
    underscore. *)
Fixpoint replace_invalid (s : string) : string :=
  match s with
  | EmptyString => ""
  | String c r =>
      String (if invalid_char c then underscore else c) (replace_invalid r)
  end.

(** [.replace(/\s+/g, '_')]: every maximal run of white space becomes one
    underscore; [in_run] tells that the previous character was white
    space. *)
Fixpoint replace_spaces (in_run : bool) (s : string) : string :=
  match s with
  | EmptyString => ""
  | String c r =>
      if is_space c
      then if in_run then replace_spaces true r
           else String underscore (replace_spaces true r)
      else String c (replace_spaces false r)
  end.

(** [.replace(/_{2,}/g, '_')]: every run of two or more underscores
    becomes one; [after_underscore] tells that the previous character was
    an underscore. *)
Fixpoint squeeze_underscores (after_underscore : bool) (s : string) : string :=
  match s with
  | EmptyString => ""
  | String c r =>
      if Ascii.eqb c underscore
      then if after_underscore then squeeze_underscores true r
           else String c (squeeze_underscores true r)
      else String c (squeeze_underscores false r)
  end.

(** [.replace(/^_+|_+$/g, '')]: the leading run, then the trailing run. *)
Fixpoint strip_leading (s : string) : string :=
  match s with
  | EmptyString => ""
  | String c r => if Ascii.eqb c underscore then strip_leading r else s
  end.

Fixpoint strip_trailing (s : string) : string :=
  match s with
  | EmptyString => ""
  | String c r =>
      let r' := strip_trailing r in
      if Ascii.eqb c underscore && String.eqb r' "" then "" else String c r'
  end.

Definition sanitize (fileName : string) : string :=
  strip_trailing
    (strip_leading
       (squeeze_underscores false
          (replace_spaces false (replace_invalid fileName)))).

Definition validateFileName (fileName : string) : error + string :=
  let sanitized := sanitize fileName in
  if String.eqb sanitized "" then inl (Error "File name cannot be empty")
  else if (255 <? String.length sanitized)%nat
  then inl (Error "File name too long (max 255 characters)")
  else inr sanitized.

(** What a name looks like once sanitized. *)
Fixpoint all_chars (p : ascii -> bool) (s : string) : bool :=
  match s with
  | EmptyString => true
  | String c r => p c && all_chars p r
  end.

Definition starts_with_underscore (s : string) : bool :=
  match s with
  | String c _ => Ascii.eqb c underscore
  | EmptyString => false
  end.

Fixpoint ends_with_underscore (s : string) : bool :=
  match s with
  | EmptyString => false
  | String c EmptyString => Ascii.eqb c underscore
  | String _ r => ends_with_underscore r
  end.

Fixpoint no_double_underscore (s : string) : bool :=
  match s with
  | String c r =>
      negb (Ascii.eqb c underscore && starts_with_underscore r)
      && no_double_underscore r
  | EmptyString => true
  end.

Definition plain_char (c : ascii) : bool :=
  negb (invalid_char c) && negb (is_space c).

Definition well_formed_name (s : string) : bool :=
  all_chars plain_char s
  && no_double_underscore s
  && negb (starts_with_underscore s)
  && negb (ends_with_underscore s).

(** A character that [sanitize] turns into an underscore or removes:
    one of the class of the first [replace], white space, or an
    underscore. *)
Definition junk_char (c : ascii) : bool :=
  invalid_char c || is_space c || Ascii.eqb c underscore.

(** ** Reading identifiers back

    [decimal_value] reads a string of decimal digits and [base64_bytes]
    the octets of a string that [toString_base64] produced.  They serve
    to show that a block identifier determines its part number. *)

Fixpoint decimal_value (s : string) : N :=
  match s with
  | EmptyString => 0%N
  | String c r =>
      ((N_of_ascii c - 48) * 10 ^ N.of_nat (String.length r) + decimal_value r)%N
  end.

Fixpoint index_of (c : ascii) (s : string) : N :=
  match s with
  | EmptyString => 0%N
  | String d r => if Ascii.eqb c d then 0%N else N.succ (index_of c r)
  end.

Definition base64_value (c : ascii) : N := index_of c base64_alphabet.

(** The characters of a buffer of one-octet characters. *)
Fixpoint string_of_bytes (b : Buffer) : string :=
  match b with
  | [] => ""
  | x :: rest => String (ascii_of_N x) (string_of_bytes rest)
  end.

Fixpoint base64_bytes (s : string) : Buffer :=
  match s with
  | String a (String b (String c (String d rest))) =>
      if Ascii.eqb c "="
      then let n := (base64_value a * 262144 + base64_value b * 4096)%N in
           [(n / 65536)%N]
      else if Ascii.eqb d "="
      then let n := (base64_value a * 262144 + base64_value b * 4096
                     + base64_value c * 64)%N in
           [(n / 65536)%N; ((n / 256) mod 256)%N]
      else let n := (base64_value a * 262144 + base64_value b * 4096
                     + base64_value c * 64 + base64_value d)%N in
           (n / 65536)%N :: ((n / 256) mod 256)%N :: (n mod 256)%N
             :: base64_bytes rest
  | _ => []
  end.

(** The part number that a block identifier spells. *)
Definition part_number_of_block (blockId : string) : Z :=
  Z.of_N (decimal_value (string_of_bytes (base64_bytes blockId))).

Definition decimal_digit (c : ascii) : bool :=
  let n := N_of_ascii c in ((48 <=? n) && (n <=? 57))%N.

(** ** Calls in flight on one session: what the store holds

    [initial] is the session object under [sessionId] when the two calls
    [c1] and [c2] are made. *)

Section Store.

Variable sessionId : string.
Variable initial : Session.t.
Variable c1 c2 : call.

(** The object that call [c] stores when it finishes. *)
Definition written_by (c : call) (sessionData : Session.t) : Prop :=
  exists redactedAt,
    sessionData = with_redactions initial (call_redactions c) redactedAt.

Definition written (sessionData : Session.t) : Prop :=
  written_by c1 sessionData \/ written_by c2 sessionData.

Definition known (sessionData : Session.t) : Prop :=
  sessionData = initial \/ written sessionData.

Definition task_known (c : call) (t : task) : Prop :=
  match t with
  | Called c' => c' = c
  | AwaitLoad c' _ sessionData
  | AwaitDraw c' _ sessionData _ _
  | AwaitSave c' _ sessionData _ => c' = c /\ known sessionData
  | Resolved _ | Rejected _ => True
  end.

Definition is_resolved (t : task) : bool :=
  match t with Resolved _ => true | _ => false end.

Definition store_known (cfg : config) : Prop :=
  (forall sessionData,
      stored sessionId (cfg_world cfg) = Some sessionData -> known sessionData)
  /\ (is_resolved (first cfg) || is_resolved (second cfg) = true ->
      forall sessionData,
        stored sessionId (cfg_world cfg) = Some sessionData -> written sessionData)
  /\ task_known c1 (first cfg)
  /\ task_known c2 (second cfg).

End Store.

(** ** services/fileService.js, whole-file upload and download

    The single-shot operations reach further provider calls than the
    multipart ones; [fileE] adds them to the events above. *)

Module Files.

(** What [s3.getObject] resolves with, and the response of
    [blobClient.download()]: its body is a stream that emits ['data']
    chunks and then ['end'], or ['error']. *)
Record s3_object : Type := S3Object {
  Body : Buffer;
  ContentType : option string;
  ContentLength : Z
}.

Record stream : Type := Stream {
  chunks : list Buffer;
  failure : option error
}.

Record az_response : Type := AzResponse {
  readableStreamBody : stream;
  az_contentType : option string;
  az_contentLength : Z
}.

Inductive fileE : Type -> Type :=
| Old {X : Type} (c : sdkE X) : fileE X
| Gcs_download (bucket name : string) : fileE (error + Buffer)
| S3_upload (Bucket Key : string) (Body : Buffer) (ContentType : option string)
    : fileE (error + option string)
| S3_getObject (Bucket Key : string) : fileE (error + s3_object)
| Az_upload (container blob : string) (body : Buffer) (len : nat)
    (blobContentType : option string) : fileE (error + option string)
| Az_download (container blob : string) : fileE (error + az_response).

Definition request : Type := { X : Type & fileE X }.

Definition req {X} (c : fileE X) : request := existT X c.

Inductive prog (A : Type) : Type :=
| Return (a : A)
| Raise (e : error)
| Ask {X : Type} (c : fileE X) (k : X -> prog A).

Arguments Return {A} a.
Arguments Raise {A} e.
Arguments Ask {A X} c k.

Fixpoint prog_bind {A B} (f : A -> prog B) (p : prog A) : prog B :=
  match p with
  | Return a => f a
  | Raise e => Raise e
  | Ask c k => Ask c (fun x => prog_bind f (k x))
  end.

#[export] Instance prog_ret : MRet prog := fun A a => Return a.
#[export] Instance prog_mbind : MBind prog := fun A B f p => prog_bind f p.

Fixpoint try_catch {A} (p : prog A) (h : error -> prog A) : prog A :=
  match p with
  | Return a => Return a
  | Raise e => h e
  | Ask c k => Ask c (fun x => try_catch (k x) h)
  end.

Definition await {X} (c : fileE (error + X)) : prog X :=
  Ask c (fun r => match r with inl e => Raise e | inr x => Return x end).

(** A method of the multipart part of the class, called from here. *)
Fixpoint lift {A} (p : sdk A) : prog A :=
  match p with
  | Ret a => Return a
  | Throw e => Raise e
  | Vis c k => Ask (Old c) (fun x => lift (k x))
  end.

Definition handler (S : Type) : Type := forall X, fileE X -> S -> X * S.

Fixpoint run {S A} (h : handler S) (p : prog A) (s : S) : (error + A) * S :=
  match p with
  | Return a => (inr a, s)
  | Raise e => (inl e, s)
  | Ask c k => let '(x, s') := h _ c s in run h (k x) s'
  end.

Fixpoint calls {S A} (h : handler S) (p : prog A) (s : S) : list request :=
  match p with
  | Return _ => []
  | Raise _ => []
  | Ask c k => let '(x, s') := h _ c s in req c :: calls h (k x) s'
  end.

(** The objects the single-shot methods resolve with: [fileName] and, by
    provider, [location] or [etag] for an upload; [buffer], [contentType]
    and [size] for a download ([None] is the [NaN] of [parseInt]). *)
Record uploaded : Type := Uploaded {
  up_success : bool;
  up_fileName : option string;
  up_location : option string;
  up_etag : option string
}.

Record downloaded : Type := Downloaded {
  dl_buffer : Buffer;
  dl_contentType : string;
  dl_size : option Z
}.

Section WithMime.

Variable mime_lookup : string -> option string.

(** [mime.lookup(fileName) || 'application/octet-stream'] *)
Definition mime_or_default (fileName : string) : string :=
  or_else (mime_lookup fileName) "application/octet-stream".

(** [streamToBuffer]: the chunks received are concatenated on ['end'];
    ['error'] rejects. *)
Definition streamToBuffer (readableStream : stream) : prog Buffer :=
  match failure readableStream with
  | Some e => Raise e
  | None => Return (concat (chunks readableStream))
  end.

Definition uploadGCPFile (bucketName fileName : string) (buffer : Buffer)
    (contentType : option string) : prog uploaded :=
  a ← lift (FileService.uploadGCPFile bucketName fileName buffer contentType);
  Return {| up_success := success a; up_fileName := ack_fileName a;
            up_location := None; up_etag := None |}.

(** The client of Provider B has no method per operation (see
    [FileService.s3_method]). *)
Definition s3_method {A} (name : string) (call : prog A) : prog A :=
  if bool_decide (name ∈ FileService.S3Client_methods) then call
  else Raise (TypeError ("s3." +:+ name +:+ " is not a function")).

Definition uploadAWSFile (bucketName fileName : string) (buffer : Buffer)
    (contentType : option string) : prog uploaded :=
  _ ← await (Old getAWSS3);
  location ← s3_method "upload"
               (await (S3_upload bucketName fileName buffer contentType));
  Return {| up_success := true; up_fileName := Some fileName;
            up_location := location; up_etag := None |}.

Definition uploadAzureFile (bucketName fileName : string) (buffer : Buffer)
    (contentType : option string) : prog uploaded :=
  _ ← await (Old getAzureBlob);
  etag ← await (Az_upload bucketName fileName buffer (length buffer) contentType);
  Return {| up_success := true; up_fileName := Some fileName;
            up_location := None; up_etag := etag |}.

Definition downloadGCPFile (bucketName fileName : string) : prog downloaded :=
  _ ← await (Old getGCPStorage);
  buffer ← await (Gcs_download bucketName fileName);
  metadata ← await (Old (Gcs_getMetadata bucketName fileName));
  Return {| dl_buffer := buffer;
            dl_contentType :=
              or_else (md_contentType metadata) (mime_or_default fileName);
            dl_size := md_size metadata |}.

Definition downloadAWSFile (bucketName fileName : string) : prog downloaded :=
  _ ← await (Old getAWSS3);
  result ← s3_method "getObject" (await (S3_getObject bucketName fileName));
  Return {| dl_buffer := Body result;
            dl_contentType :=
              or_else (ContentType result) (mime_or_default fileName);
            dl_size := Some (ContentLength result) |}.

Definition downloadAzureFile (bucketName fileName : string) : prog downloaded :=
  _ ← await (Old getAzureBlob);
  downloadResponse ← await (Az_download bucketName fileName);
  buffer ← streamToBuffer (readableStreamBody downloadResponse);
  Return {| dl_buffer := buffer;
            dl_contentType :=
              or_else (az_contentType downloadResponse) (mime_or_default fileName);
            dl_size := Some (az_contentLength downloadResponse) |}.

Definition unsupported {A} (platform : string) : prog A :=
  Raise (Error ("Unsupported platform: " +:+ platform)).

Definition uploadFile (platform bucketName fileName : string) (buffer : Buffer)
    (contentType : option string) : prog uploaded :=
  try_catch
    (let contentType :=
       match truthy contentType with
       | Some c => Some c
       | None => Some (mime_or_default fileName)
       end in
     if String.eqb platform "gcp"
     then uploadGCPFile bucketName fileName buffer contentType
     else if String.eqb platform "aws"
     then uploadAWSFile bucketName fileName buffer contentType
     else if String.eqb platform "azure"
     then uploadAzureFile bucketName fileName buffer contentType
     else unsupported platform)
    (fun error => Raise error).

Definition downloadFile (platform bucketName fileName : string)
    : prog downloaded :=
  try_catch
    (if String.eqb platform "gcp" then downloadGCPFile bucketName fileName
     else if String.eqb platform "aws" then downloadAWSFile bucketName fileName
     else if String.eqb platform "azure" then downloadAzureFile bucketName fileName
     else unsupported platform)
    (fun error => Raise error).

End WithMime.

(** What a write request carries: bucket, name, bytes and content type. *)
Definition sent_file (r : request)
    : option (string * string * Buffer * option string) :=
  match r with
  | existT _ (Old (Gcs_write bucket name contentType _ body)) =>
      Some (bucket, name, body, contentType)
  | existT _ (S3_upload Bucket Key Body ContentType) =>
      Some (Bucket, Key, Body, ContentType)
  | existT _ (Az_upload container blob body _ blobContentType) =>
      Some (container, blob, body, blobContentType)
  | _ => None
  end.

End Files.

(** An environment for the examples of whole-file operations: the
    in-memory cloud above, an S3 endpoint and a blob endpoint that hold
    one object each. *)
Module FilesExample.

Definition handle : Files.handler Cloud.t := fun X c s =>
  match c in Files.fileE X return X * Cloud.t with
  | Files.Old c => Cloud.handle _ c s
  | Files.Gcs_download bucket name =>
      match Cloud.gcs_get bucket name s with
      | Some o => (inr (Cloud.body o), s)
      | None => (inl (Error ("No such object: " +:+ name)), s)
      end
  | Files.S3_upload Bucket Key _ _ =>
      (inr (Some ("https://" +:+ Bucket +:+ ".s3.amazonaws.com/" +:+ Key)), s)
  | Files.S3_getObject _ _ =>
      (inr {| Files.Body := [37; 80]%N; Files.ContentType := None;
              Files.ContentLength := 2 |}, s)
  | Files.Az_upload _ _ _ _ _ => (inr (Some "0x8D"), s)
  | Files.Az_download _ _ =>
      (inr {| Files.readableStreamBody :=
                {| Files.chunks := [[37]; [80; 68]]%N; Files.failure := None |};
              Files.az_contentType := Some "";
              Files.az_contentLength := 3 |}, s)
  end.

End FilesExample.

(** ** routes/files.js, the name under which an upload is stored

    [POST /upload] takes the name from the form field [fileName] or from
    the uploaded file, puts the record id in front when there is one, and
    replaces every character outside [a-zA-Z0-9._/-]. *)

Definition safe_char (c : ascii) : bool :=
  let n := nat_of_ascii c in
  ((97 <=? n) && (n <=? 122) || (65 <=? n) && (n <=? 90)
   || (48 <=? n) && (n <=? 57)
   || bool_decide (c ∈ list_ascii_of_string "._/-"))%nat.

(** [.replace(/[^a-zA-Z0-9._\/-]/g, '_')] *)
Fixpoint replace_unsafe (s : string) : string :=
  match s with
  | EmptyString => ""
  | String c r => String (if safe_char c then c else underscore) (replace_unsafe r)
  end.

(** The name before the replacement. *)
Definition requested_name (fileName : option string) (originalname : string)
    (recordId : option string) : string :=
  let finalFileName := or_else fileName originalname in
  match truthy recordId with
  | Some recordId => recordId +:+ "/" +:+ finalFileName
  | None => finalFileName
  end.

Definition finalFileName (fileName : option string) (originalname : string)
    (recordId : option string) : string :=
  replace_unsafe (requested_name fileName originalname recordId).

(** The readings of [Date.now()] are time values: at most 8.64e15
    milliseconds either side of the epoch. *)
Definition time_value (t : Z) : Prop := Z.abs t <= 8640000000000000.

(** * Properties *)

(** ** Storage gateway *)

(** The requests and the outcome of a sequence are those of its parts. *)
Lemma calls_bind {S A B} (h : handler S) (p : sdk A) (f : A -> sdk B) (s : S) :
  calls h (p ≫= f) s =
  (calls h p s ++
   match run h p s with
   | (inr a, s') => calls h (f a) s'
   | (inl _, _) => []
   end)%list.
Proof.
  unfold mbind, sdk_mbind. revert s.
  induction p as [a|e|X c k IH]; intros s; simpl; try reflexivity.
  destruct (h X c s) as [x s']. simpl. f_equal. apply IH.
Qed.

Lemma run_bind {S A B} (h : handler S) (p : sdk A) (f : A -> sdk B) (s : S) :
  run h (p ≫= f) s =
  match run h p s with
  | (inr a, s') => run h (f a) s'
  | (inl e, s') => (inl e, s')
  end.
Proof.
  unfold mbind, sdk_mbind. revert s.
  induction p as [a|e|X c k IH]; intros s; simpl; try reflexivity.
  destruct (h X c s) as [x s']. apply IH.
Qed.

Lemma run_rethrow {S A} (h : handler S) (p : sdk A) (s : S) :
  run h (try_catch p (fun e => Throw e)) s = run h p s.
Proof.
  revert s. induction p as [a|e|X c k IH]; intros s; simpl; try reflexivity.
  destruct (h X c s) as [x s']. apply IH.
Qed.

Lemma calls_rethrow {S A} (h : handler S) (p : sdk A) (s : S) :
  calls h (try_catch p (fun e => Throw e)) s = calls h p s.
Proof.
  revert s. induction p as [a|e|X c k IH]; intros s; simpl; try reflexivity.
  destruct (h X c s) as [x s']. f_equal. apply IH.
Qed.

Lemma upload_parts_gcp_no_calls {S} (h : handler S) bucket key uploadId chunks :
  forall n s,
    calls h (upload_parts "gcp" bucket key uploadId n chunks) s = [] /\
    snd (run h (upload_parts "gcp" bucket key uploadId n chunks) s) = s /\
    exists parts,
      fst (run h (upload_parts "gcp" bucket key uploadId n chunks) s) = inr parts.
Proof.
  induction chunks as [|chunk rest IH]; intros n s; simpl.
  - eauto.
  - destruct (IH (n + 1) s) as (Hc & Hs & parts & Hr).
    unfold mbind, sdk_mbind in *. simpl.
    revert Hc Hs Hr.
    generalize (upload_parts "gcp" bucket key uploadId (n + 1) rest).
    intros p. induction p as [a|e|X c k IHk]; simpl; intros Hc Hs Hr.
    + inversion Hr; subst. eauto.
    + discriminate.
    + destruct (h X c s); discriminate.
Qed.

(** Whatever the environment answers, a Provider-A session asks it for
    the client, the clock and a random string, and for nothing else. *)
Lemma gcp_session_never_writes {S} (h : handler S) bucket key ct chunks s :
  Forall (fun r => is_write r = false)
    (calls h (multipart_session "gcp" bucket key ct chunks) s).
Proof.
  unfold multipart_session.
  rewrite calls_bind.
  unfold FileService.initiateMultipartUpload at 1 2. simpl String.eqb. cbv iota.
  rewrite calls_rethrow, run_rethrow.
  unfold FileService.initiateGCPResumableUpload, await, perform.
  unfold mbind, sdk_mbind. simpl.
  destruct (h _ getGCPStorage s) as [[e|[]] s1]; simpl.
  { repeat constructor. }
  destruct (h _ Date_now s1) as [now s2]; simpl.
  destruct (h _ Math_random_base36 s2) as [rnd s3]; simpl.
  repeat (constructor; [reflexivity|]).
  change (sdk_bind ?f ?p) with (p ≫= f).
  rewrite calls_bind.
  destruct (upload_parts_gcp_no_calls h bucket key
              ("gcp_" +:+ toString now +:+ "_" +:+ substr 2 9 rnd) chunks 1 s3)
    as (Hc & Hs & parts & Hr).
  rewrite Hc. simpl.
  destruct (run h _ s3) as [[e|a] s4]; simpl; constructor.
Qed.

(** C1, the code as written.  A Provider-A session that uploads the chunks
    "Hello" and "!" resolves with [success: true], yet it has sent no write
    request and the object under (bucket, key) does not exist afterwards;
    the single-shot [uploadGCPFile] of the same bytes does store them.  The
    comments of [uploadGCPChunk] and [completeGCPResumableUpload] announce
    an accumulation of chunks and a final upload that the bodies do not
    perform. *)
Theorem gcp_complete_stores_nothing :
  let chunks : list Buffer := [[72; 101; 108; 108; 111]; [33]]%N in
  let p := multipart_session "gcp" "docs" "big.bin" None chunks in
  fst (run Cloud.handle p Cloud.empty)
    = inr {| success := true;
             ack_uploadId := Some "gcp_1700000000000_k3j9x2m1q";
             ack_location := None; ack_fileName := None |}
  /\ filter (fun r => is_write r) (calls Cloud.handle p Cloud.empty) = []
  /\ Cloud.gcs_get "docs" "big.bin" (snd (run Cloud.handle p Cloud.empty)) = None
  /\ Cloud.body <$>
       Cloud.gcs_get "docs" "big.bin"
         (snd (run Cloud.handle
                 (FileService.uploadGCPFile "docs" "big.bin" (concat chunks) None)
                 Cloud.empty))
     = Some (concat chunks).
Proof. vm_compute. repeat split; reflexivity. Qed.

Section Completion.

Context {S : Type} (h : handler S).

Lemma complete_azure_calls bucket key uploadId parts s s' :
  h _ getAzureBlob s = (inr tt, s') ->
  calls h (FileService.completeMultipartUpload "azure" bucket key uploadId parts) s
  = [ req getAzureBlob;
      req (Az_commitBlockList bucket key (map etag parts)) ].
Proof.
  intros Hc. unfold FileService.completeMultipartUpload.
  rewrite calls_rethrow. simpl. rewrite Hc. simpl.
  destruct (h _ (Az_commitBlockList _ _ _) s') as [[e|l] s2]; reflexivity.
Qed.

End Completion.

(** *** Block identifiers of Provider C *)

Lemma take_cyclic_length n c pad rest :
  String.length (take_cyclic n (String c pad) rest) = n.
Proof.
  revert rest. induction n as [|n IH]; intros rest; simpl; [reflexivity|].
  destruct rest; simpl; rewrite IH; reflexivity.
Qed.

Lemma string_app_length (a b : string) :
  String.length (a +:+ b) = (String.length a + String.length b)%nat.
Proof. induction a as [|c a IH]; simpl; [reflexivity|]. rewrite IH. reflexivity. Qed.

Lemma padStart_length n c pad s :
  (String.length s <= n)%nat ->
  String.length (padStart n (String c pad) s) = n.
Proof.
  intros Hle. unfold padStart.
  destruct (n <=? String.length s)%nat eqn:E.
  - apply Nat.leb_le in E. lia.
  - rewrite string_app_length, take_cyclic_length. lia.
Qed.

Lemma pretty_N_go_length (k : nat) :
  forall (x : N) (s : string),
    (x < 10 ^ N.of_nat k)%N ->
    (String.length (pretty_N_go x s) <= k + String.length s)%nat.
Proof.
  induction k as [|k IH]; intros x s Hx.
  - assert (x = 0%N) as -> by (simpl in Hx; lia).
    rewrite pretty_N_go_0. lia.
  - destruct (decide (x = 0%N)) as [->|Hne].
    + rewrite pretty_N_go_0. lia.
    + rewrite pretty_N_go_step by lia.
      etransitivity.
      * apply IH.
        rewrite Nat2N.inj_succ, N.pow_succ_r' in Hx.
        apply N.Div0.div_lt_upper_bound. lia.
      * simpl. lia.
Qed.

Lemma toString_safe (n : Z) :
  Z.abs n <= MAX_SAFE_INTEGER -> toString n = pretty n.
Proof.
  intros Hn. unfold toString.
  destruct (Z.abs n <? 2 ^ 53) eqn:E; [reflexivity|].
  apply Z.ltb_ge in E. unfold MAX_SAFE_INTEGER in Hn.
  change (2 ^ 53) with 9007199254740992 in E. lia.
Qed.

Lemma toString_length_bound (n : Z) :
  0 <= n < 1000000 -> (String.length (toString n) <= 6)%nat.
Proof.
  intros [Hlo Hhi]. rewrite toString_safe by (unfold MAX_SAFE_INTEGER; lia).
  unfold pretty, pretty_Z.
  destruct n as [|p|p]; [simpl; lia| |lia].
  unfold pretty, pretty_positive, pretty, pretty_N.
  destruct (decide (N.pos p = 0%N)); [discriminate|].
  pose proof (pretty_N_go_length 6 (N.pos p) "") as H.
  simpl String.length in H. rewrite Nat.add_0_r in H. apply H.
  change (10 ^ N.of_nat 6)%N with 1000000%N. lia.
Qed.

Lemma Buffer_from_length s : length (Buffer_from s) = String.length s.
Proof. induction s as [|c s IH]; simpl; [reflexivity|]. rewrite IH. reflexivity. Qed.

Lemma toString_base64_six (b : Buffer) :
  length b = 6%nat -> String.length (toString_base64 b) = 8%nat.
Proof.
  intros H.
  do 6 (destruct b as [|? b]; [discriminate|]).
  destruct b; [reflexivity|discriminate].
Qed.

(** *** Listing Provider A *)

Section Listing.

Variable mime_lookup : string -> option string.
Context {S : Type} (h : handler S).

(** [getMimeType] is declared [static]: an instance does not have it. *)
Lemma this_getMimeType_throws name :
  FileService.this_getMimeType mime_lookup name
  = Throw (TypeError "this.getMimeType is not a function").
Proof. reflexivity. Qed.

(** When the metadata request of the entry at hand is rejected, the
    [catch] clause that builds the defaulted entry throws, and the loop
    ends there. *)
Lemma listGCPFiles_loop_rejected bucket file rest fileList e s s1 :
  h _ (Gcs_getMetadata bucket file) s = (inl e, s1) ->
  fst (run h (FileService.listGCPFiles_loop mime_lookup bucket (file :: rest) fileList) s)
  = inl (TypeError "this.getMimeType is not a function").
Proof.
  intros Hm. simpl. unfold mbind, sdk_mbind. simpl.
  rewrite Hm. simpl.
  destruct (h _ Date_now s1) as [now s2]. reflexivity.
Qed.

Lemma run_listGCPFiles_loop_app bucket before rest : forall fileList s,
  run h (FileService.listGCPFiles_loop mime_lookup bucket (before ++ rest) fileList) s
  = match run h (FileService.listGCPFiles_loop mime_lookup bucket before fileList) s with
    | (inr fileList', s') =>
        run h (FileService.listGCPFiles_loop mime_lookup bucket rest fileList') s'
    | (inl e, s') => (inl e, s')
    end.
Proof.
  induction before as [|file before IH]; intros fileList s.
  - reflexivity.
  - cbn [app FileService.listGCPFiles_loop]. rewrite !run_bind.
    destruct (run h (try_catch _ _) s) as [[e|entry] s1]; [reflexivity|].
    apply IH.
Qed.

(** Wherever in the listing the rejected metadata request falls, the loop
    ends with the exception and the entries gathered so far are lost. *)
Lemma listGCPFiles_loop_rejected_anywhere
    bucket before file rest fileList fileList' e s s1 s2 :
  run h (FileService.listGCPFiles_loop mime_lookup bucket before fileList) s
    = (inr fileList', s1) ->
  h _ (Gcs_getMetadata bucket file) s1 = (inl e, s2) ->
  fst (run h (FileService.listGCPFiles_loop mime_lookup bucket
                (before ++ file :: rest) fileList) s)
  = inl (TypeError "this.getMimeType is not a function").
Proof.
  intros Hbefore Hm. rewrite run_listGCPFiles_loop_app, Hbefore.
  eapply listGCPFiles_loop_rejected, Hm.
Qed.

End Listing.

(** C4, the code as written.  Listing a bucket of three objects gives three
    entries; when the metadata request of the second is rejected, the call
    rejects with an error and gives no entry at all, not even that of the
    first object: the [catch] clause meant to emit the defaulted entry
    calls the static [getMimeType] through [this]. *)
Theorem listGCPFiles_aborts_on_metadata_failure :
  sum_map id (map fileName)
    (fst (run Cloud.handle (FileService.listGCPFiles Cloud.mime_lookup "docs" "")
            ListingExample.healthy))
  = inr ["a.pdf"; "b.pdf"; "c.pdf"]
  /\ fst (run Cloud.handle (FileService.listGCPFiles Cloud.mime_lookup "docs" "")
            ListingExample.degraded)
     = inl (Error "Failed to list files: this.getMimeType is not a function").
Proof. vm_compute. split; reflexivity. Qed.
(** ** Redaction sessions *)

Lemma list_alter_insert {A} (f : A -> A) (l : list A) (i : nat) (a : A) :
  l !! i = Some a -> alter f i l = <[i := f a]> l.
Proof.
  revert i. induction l as [|b l IH]; intros [|i] H; simpl in *; try discriminate.
  - injection H as ->. reflexivity.
  - f_equal. apply IH, H.
Qed.

Lemma array_get_Some {A} (arr : list A) (i : Z) (a : A) :
  array_get arr i = Some a -> arr !! Z.to_nat i = Some a /\ 0 <= i.
Proof.
  unfold array_get. destruct (i <? 0) eqn:E; [discriminate|].
  apply Z.ltb_ge in E. auto.
Qed.

Section Sequential.

Variable rt : Runtime.

(** One call of [applyRedactionToPage] on the document at [pdfDoc] does
    what [redact_one] does to the document. *)
Lemma applyRedactionToPage_redact_one pdfDoc redaction oc w doc :
  heap w !! pdfDoc = Some doc ->
  applyRedactionToPage rt pdfDoc redaction oc w =
  match redact_one rt doc redaction oc with
  | inr doc' => (inr tt, set_heap w (<[pdfDoc := doc']> (heap w)))
  | inl e => (inl e, w)
  end.
Proof.
  intros Hd. unfold applyRedactionToPage, try_catchM, redact_one.
  unfold mbind, M_bind, getPages. rewrite Hd.
  destruct (array_get doc (Redaction.pageNumber redaction - 1)) as [page|] eqn:Hp;
    [|reflexivity].
  apply array_get_Some in Hp as [Hp _].
  unfold parseColor, color_of.
  destruct (rgb rt _ _ _) as [e|c]; [reflexivity|].
  unfold drawRectangle, set_heap. do 2 f_equal.
  rewrite (list_alter_insert _ _ _ _ Hd).
  rewrite (list_alter_insert _ _ _ _ Hp). reflexivity.
Qed.

Lemma redact_one_length doc redaction oc doc' :
  redact_one rt doc redaction oc = inr doc' -> length doc' = length doc.
Proof.
  unfold redact_one.
  destruct (array_get _ _); [|discriminate].
  destruct (color_of _ _); [discriminate|].
  intros [= <-]. apply length_insert.
Qed.

Lemma redact_all_prefix doc redactions oc doc' :
  redact_all rt doc redactions oc = inr doc' ->
  redact_prefix rt doc redactions oc = doc'.
Proof.
  revert doc. induction redactions as [|r rest IH]; intros doc; simpl.
  - congruence.
  - destruct (redact_one rt doc r oc); [discriminate|]. apply IH.
Qed.

Lemma for_each_redact_all pdfDoc redactions oc : forall w doc,
  heap w !! pdfDoc = Some doc ->
  for_each redactions (fun r => applyRedactionToPage rt pdfDoc r oc) w =
  (match redact_all rt doc redactions oc with
   | inr _ => inr tt
   | inl e => inl e
   end,
   set_heap w (<[pdfDoc := redact_prefix rt doc redactions oc]> (heap w))).
Proof.
  induction redactions as [|r rest IH]; intros w doc Hd; simpl.
  - unfold mret, M_ret, set_heap. rewrite (list_insert_id _ _ _ Hd).
    destruct w; reflexivity.
  - unfold mbind, M_bind.
    rewrite (applyRedactionToPage_redact_one _ _ _ _ _ Hd).
    destruct (redact_one rt doc r oc) as [e|doc1] eqn:H1.
    + unfold set_heap. rewrite (list_insert_id _ _ _ Hd). destruct w; reflexivity.
    + fold (for_each rest (fun r0 => applyRedactionToPage rt pdfDoc r0 oc)).
      rewrite (IH _ doc1).
      * unfold set_heap; simpl. rewrite list_insert_insert_eq. reflexivity.
      * simpl. apply list_lookup_insert_eq. eapply lookup_lt_Some, Hd.
Qed.

Lemma heap_after_load (h : list PDFDocument) (doc doc' : PDFDocument) :
  (h ++ [doc]) !! length h = Some doc /\
  <[length h := doc']> (h ++ [doc]) = h ++ [doc'].
Proof.
  split.
  - apply list_lookup_middle. reflexivity.
  - rewrite insert_app_r_alt by lia. rewrite Nat.sub_diag. reflexivity.
Qed.

(** [applyRedactions], case by case. *)
Lemma applyRedactions_eq sessionId redactions oc w :
  applyRedactions rt sessionId redactions oc w =
  match sessionCache w !! sessionId with
  | None => (inl not_found, set_heap w (heap w))
  | Some e =>
      if NodeCache.check (now w) e then
        match PDFDocument_load rt (Session.pdfBuffer (NodeCache.v e)) with
        | inl err => (inl err, set_heap w (heap w))
        | inr doc0 =>
            match redact_all rt doc0 redactions oc with
            | inl err =>
                (inl err,
                 set_heap w (heap w ++ [redact_prefix rt doc0 redactions oc]))
            | inr doc =>
                (inr {| redactedPdfBase64 := toString_base64 (PDFDocument_save rt doc);
                        originalSize := length (Session.pdfBuffer (NodeCache.v e));
                        redactedSize := length (PDFDocument_save rt doc);
                        processingTime := now w - now w |},
                 {| now := now w;
                    sessionCache :=
                      <[sessionId :=
                          NodeCache.wrap stdTTL (now w)
                            (with_redactions (NodeCache.v e) redactions (now w))]>
                        (sessionCache w);
                    heap := heap w ++ [doc] |})
            end
        end
      else
        (inl not_found,
         {| now := now w; sessionCache := delete sessionId (sessionCache w);
            heap := heap w |})
  end.
Proof.
  unfold applyRedactions, try_catchM, mbind, M_bind, Date_now_M,
    sessionCache_get, NodeCache.get, set_heap.
  destruct (sessionCache w !! sessionId) as [e|] eqn:He; [|reflexivity].
  destruct (NodeCache.check (now w) e) eqn:Hc; [|reflexivity].
  unfold load. simpl.
  destruct (PDFDocument_load rt _) as [err|doc0] eqn:Hl; [reflexivity|].
  destruct (heap_after_load (heap w) doc0 (redact_prefix rt doc0 redactions oc))
    as [Hlook Hins].
  rewrite (for_each_redact_all _ _ _ _ doc0) by exact Hlook.
  unfold set_heap. simpl. rewrite Hins.
  destruct (redact_all rt doc0 redactions oc) as [err|doc] eqn:Hr; [reflexivity|].
  rewrite (redact_all_prefix _ _ _ _ Hr).
  unfold save. simpl.
  destruct (heap_after_load (heap w) doc doc) as [Hlook' _]. rewrite Hlook'.
  reflexivity.
Qed.

Lemma check_fresh (sd : Session.t) (t0 now' : Z) :
  now' <= t0 + 3600000 -> NodeCache.check now' (NodeCache.wrap stdTTL t0 sd) = true.
Proof.
  intros H. unfold NodeCache.check, NodeCache.wrap, stdTTL. simpl.
  destruct (t0 + 3600 * 1000 <? now') eqn:E.
  - apply Z.ltb_lt in E. lia.
  - rewrite andb_false_r. reflexivity.
Qed.

Lemma check_stale (sd : Session.t) (t0 now' : Z) :
  0 <= t0 -> t0 + 3600000 < now' ->
  NodeCache.check now' (NodeCache.wrap stdTTL t0 sd) = false.
Proof.
  intros H0 H. unfold NodeCache.check, NodeCache.wrap, stdTTL. simpl.
  destruct (t0 + 3600 * 1000 =? 0) eqn:E0.
  - apply Z.eqb_eq in E0. lia.
  - destruct (t0 + 3600 * 1000 <? now') eqn:E; [reflexivity|].
    apply Z.ltb_ge in E. lia.
Qed.

(** What a resolved call went through. *)
Lemma applyRedactions_resolved sessionId redactions oc w r w' :
  applyRedactions rt sessionId redactions oc w = (inr r, w') ->
  exists e doc0 doc,
    sessionCache w !! sessionId = Some e
    /\ NodeCache.check (now w) e = true
    /\ PDFDocument_load rt (Session.pdfBuffer (NodeCache.v e)) = inr doc0
    /\ redact_all rt doc0 redactions oc = inr doc
    /\ redactedPdfBase64 r = toString_base64 (PDFDocument_save rt doc)
    /\ w' = {| now := now w;
               sessionCache :=
                 <[sessionId :=
                     NodeCache.wrap stdTTL (now w)
                       (with_redactions (NodeCache.v e) redactions (now w))]>
                   (sessionCache w);
               heap := heap w ++ [doc] |}.
Proof.
  rewrite applyRedactions_eq.
  destruct (sessionCache w !! sessionId) as [e|] eqn:He; [|discriminate].
  destruct (NodeCache.check (now w) e) eqn:Hc; [|discriminate].
  destruct (PDFDocument_load rt _) as [|doc0] eqn:Hl; [discriminate|].
  destruct (redact_all rt doc0 redactions oc) as [|doc] eqn:Hr; [discriminate|].
  intros [= <- <-]. exists e, doc0, doc. repeat split; assumption || reflexivity.
Qed.

Lemma same_document_with_redactions sd redactions t :
  same_document sd (with_redactions sd redactions t).
Proof. repeat split. Qed.

End Sequential.

(** C6.  Dual-mode resolution of a coordinate [v] against a page dimension
    [d]: when [0 <= v <= 1] the result is the product [v * d]; any other
    non-negative [v] is returned as it is.  On a page 600 points wide, 0.5
    and 0.25 resolve to 300 and 150, and 300 and 150 resolve to
    themselves. *)
Theorem convertCoordinate_dual_mode (v d : float) :
  ((0 <=? v)%float = true -> (v <=? 1)%float = true ->
   convertCoordinate v d = (v * d)%float)
  /\ ((0 <=? v)%float = true -> (v <=? 1)%float = false ->
      convertCoordinate v d = v)
  /\ convertCoordinate 0.5 600 = 300%float
  /\ convertCoordinate 0.25 600 = 150%float
  /\ convertCoordinate 300 600 = 300%float
  /\ convertCoordinate 150 600 = 150%float.
Proof.
  unfold convertCoordinate. repeat split.
  - intros -> ->. reflexivity.
  - intros -> ->. reflexivity.
Qed.

Lemma convertCoordinate_dual_mode_witness :
  convertCoordinate 0.5 600 = (0.5 * 600)%float
  /\ convertCoordinate 300 600 = 300%float.
Proof.
  split.
  - exact (proj1 (convertCoordinate_dual_mode 0.5 600) eq_refl eq_refl).
  - exact (proj1 (proj2 (convertCoordinate_dual_mode 300 600)) eq_refl eq_refl).
Defined.



(** C10.  Two calls of [applyRedactions] on one session, the second some
    time after the first, both resolving.  The session object keeps its
    identifier, file name, bucket, platform, stored bytes, page count,
    pages and creation time through both; other sessions are not touched;
    each call creates a document object of its own; and each call returns
    the encoding of the document decoded from the stored bytes with its
    own rectangles drawn on it: nothing of the first call is in what the
    second returns. *)
Theorem apply_frame_and_fresh_copy
    (rt : Runtime) sessionId rs1 oc1 rs2 oc2 ms w r1 w1 r2 w2 :
  applyRedactions rt sessionId rs1 oc1 w = (inr r1, w1) ->
  applyRedactions rt sessionId rs2 oc2 (elapse ms w1) = (inr r2, w2) ->
  exists sd sd1 sd2 doc0 doc1 doc2,
    stored sessionId w = Some sd
    /\ stored sessionId w1 = Some sd1
    /\ stored sessionId w2 = Some sd2
    /\ same_document sd sd1
    /\ same_document sd1 sd2
    /\ Session.redactions sd1 = rs1
    /\ Session.redactions sd2 = rs2
    /\ PDFDocument_load rt (Session.pdfBuffer sd) = inr doc0
    /\ redact_all rt doc0 rs1 oc1 = inr doc1
    /\ redactedPdfBase64 r1 = toString_base64 (PDFDocument_save rt doc1)
    /\ redact_all rt doc0 rs2 oc2 = inr doc2
    /\ redactedPdfBase64 r2 = toString_base64 (PDFDocument_save rt doc2)
    /\ heap w2 = heap w ++ [doc1; doc2]
    /\ (forall key, key <> sessionId ->
          sessionCache w2 !! key = sessionCache w !! key).
Proof.
  intros H1 H2.
  apply applyRedactions_resolved in H1
    as (e & doc0 & doc1 & He & Hc & Hl & Hr & Hb & ->).
  apply applyRedactions_resolved in H2
    as (e' & doc0' & doc2 & He' & Hc' & Hl' & Hr' & Hb' & ->).
  simpl in He'. rewrite lookup_insert_eq in He'. injection He' as <-.
  simpl in Hl'. rewrite Hl in Hl'. injection Hl' as <-.
  exists (NodeCache.v e), (with_redactions (NodeCache.v e) rs1 (now w)),
    (with_redactions (with_redactions (NodeCache.v e) rs1 (now w)) rs2
       (now w + Z.of_N ms)),
    doc0, doc1, doc2.
  unfold stored. simpl. rewrite He, !lookup_insert_eq. simpl.
  repeat split; try assumption.
  - rewrite <- app_assoc. reflexivity.
  - intros key Hk. rewrite !lookup_insert_ne by congruence. reflexivity.
Qed.

Lemma apply_frame_and_fresh_copy_witness :
  exists doc2,
    redact_all Example.runtime
      [ {| page_width := 600; page_height := 800; drawn := [] |} ]
      [Example.too_wide] None = inr doc2
    /\ redactedPdfBase64
         (Applied "AQ==" 1 1 0)
       = toString_base64 (PDFDocument_save Example.runtime doc2).
Proof.
  destruct (apply_frame_and_fresh_copy Example.runtime Example.session_id
              [Example.inside; Example.inside] None [Example.too_wide] None
              (Example.minutes 10) Example.prepared
              (Applied "Ag==" 1 1 0)
              (snd (applyRedactions Example.runtime Example.session_id
                      [Example.inside; Example.inside] None Example.prepared))
              (Applied "AQ==" 1 1 0)
              (snd (applyRedactions Example.runtime Example.session_id
                      [Example.too_wide] None
                      (elapse (Example.minutes 10)
                         (snd (applyRedactions Example.runtime Example.session_id
                                 [Example.inside; Example.inside] None
                                 Example.prepared))))))
    as (sd & sd1 & sd2 & doc0 & doc1 & doc2 & H).
  - vm_compute. reflexivity.
  - vm_compute. reflexivity.
  - destruct H as (Hs & _ & _ & _ & _ & _ & _ & Hl & _ & _ & Hr & Hb & _).
    exists doc2. split; [|exact Hb].
    vm_compute in Hs. injection Hs as <-.
    vm_compute in Hl. injection Hl as <-. exact Hr.
Defined.

(** *** Expiry *)

Lemma getSessionDetails_eq sessionId w :
  getSessionDetails sessionId w =
  match sessionCache w !! sessionId with
  | None => (inl not_found, set_heap w (heap w))
  | Some e =>
      if NodeCache.check (now w) e then
        (inr {| d_fileName := Session.fileName (NodeCache.v e);
                d_bucketName := Session.bucketName (NodeCache.v e);
                d_platform := Session.platform (NodeCache.v e);
                d_pageCount := Session.pageCount (NodeCache.v e);
                d_createdAt := Session.createdAt (NodeCache.v e);
                d_redactionCount := length (Session.redactions (NodeCache.v e));
                d_redactedAt := Session.redactedAt (NodeCache.v e) |},
         set_heap w (heap w))
      else
        (inl not_found,
         {| now := now w; sessionCache := delete sessionId (sessionCache w);
            heap := heap w |})
  end.
Proof.
  unfold getSessionDetails, try_catchM, mbind, M_bind, sessionCache_get,
    NodeCache.get, set_heap.
  destruct (sessionCache w !! sessionId) as [e|]; [|reflexivity].
  destruct (NodeCache.check (now w) e); reflexivity.
Qed.

(** C7 (amended).  A session lives one hour from its last write, and the
    stamp is looked at when the session is fetched.  With the session last
    written at [t0]: a call of [applyRedactions] later than [t0] plus one
    hour ends with the error "Redaction session not found or expired", a
    value of the error type like any other; a call no later than that
    resolves, provided the stored bytes decode and the rectangles can be
    drawn, and writes the session again, which starts a new hour; and
    reading the details within the hour leaves the stamp where it was. *)
Theorem session_lives_one_hour_from_last_write
    (rt : Runtime) sessionId redactions oc w t0 sessionData :
  0 <= t0 ->
  sessionCache w !! sessionId = Some (NodeCache.wrap stdTTL t0 sessionData) ->
  (t0 + 3600000 < now w ->
   fst (applyRedactions rt sessionId redactions oc w) = inl not_found)
  /\ (now w <= t0 + 3600000 ->
      forall doc0 doc,
        PDFDocument_load rt (Session.pdfBuffer sessionData) = inr doc0 ->
        redact_all rt doc0 redactions oc = inr doc ->
        exists r w',
          applyRedactions rt sessionId redactions oc w = (inr r, w')
          /\ sessionCache w' !! sessionId =
             Some (NodeCache.wrap stdTTL (now w)
                     (with_redactions sessionData redactions (now w))))
  /\ (now w <= t0 + 3600000 ->
      exists d w',
        getSessionDetails sessionId w = (inr d, w')
        /\ sessionCache w' !! sessionId =
           Some (NodeCache.wrap stdTTL t0 sessionData)).
Proof.
  intros Ht0 He. repeat split.
  - intros Hlate. rewrite applyRedactions_eq, He.
    rewrite check_stale by assumption. reflexivity.
  - intros Hearly doc0 doc Hl Hr. rewrite applyRedactions_eq, He.
    rewrite check_fresh by assumption. simpl. rewrite Hl, Hr.
    eexists _, _. split; [reflexivity|]. simpl. apply lookup_insert_eq.
  - intros Hearly. rewrite getSessionDetails_eq, He.
    rewrite check_fresh by assumption.
    eexists _, _. split; [reflexivity|]. exact He.
Qed.

Lemma session_lives_one_hour_from_last_write_witness :
  (exists r w',
     applyRedactions Example.runtime Example.session_id [Example.inside] None
       (elapse (Example.minutes 59) Example.prepared) = (inr r, w'))
  /\ fst (applyRedactions Example.runtime Example.session_id [Example.inside] None
            (elapse (Example.minutes 61) Example.prepared)) = inl not_found.
Proof.
  assert (Hstored :
    sessionCache Example.prepared !! Example.session_id
    = Some (NodeCache.wrap stdTTL 0 Example.session_data)).
  { vm_compute. reflexivity. }
  split.
  - destruct (session_lives_one_hour_from_last_write Example.runtime
                Example.session_id [Example.inside] None
                (elapse (Example.minutes 59) Example.prepared) 0 _
                (Z.le_refl 0) Hstored) as (_ & Hin & _).
    destruct (Hin ltac:(vm_compute; discriminate) _ _ eq_refl eq_refl)
      as (r & w' & H & _).
    exists r, w'. exact H.
  - destruct (session_lives_one_hour_from_last_write Example.runtime
                Example.session_id [Example.inside] None
                (elapse (Example.minutes 61) Example.prepared) 0 _
                (Z.le_refl 0) Hstored) as (Hout & _).
    apply Hout. vm_compute. reflexivity.
Defined.

(** C7 as stated fails: the session below is prepared at time 0, read with
    [getSessionDetails] after 30 minutes, and [applyRedactions] is called
    59 minutes after that read; the call ends with the expiry error. *)
Lemma read_access_does_not_extend_session :
  let w30 := elapse (Example.minutes 30) Example.prepared in
  let w89 := elapse (Example.minutes 59) (snd (getSessionDetails Example.session_id w30)) in
  (exists d, fst (getSessionDetails Example.session_id w30) = inr d)
  /\ now w89 - now w30 = 59 * 60000
  /\ fst (applyRedactions Example.runtime Example.session_id [Example.inside]
            None w89) = inl not_found.
Proof.
  split; [|split].
  - eexists. vm_compute. reflexivity.
  - vm_compute. reflexivity.
  - vm_compute. reflexivity.
Qed.

(** *** Validation *)

Section Validation.

Variable rt : Runtime.

Lemma redact_all_length redactions oc : forall doc doc',
  redact_all rt doc redactions oc = inr doc' -> length doc' = length doc.
Proof.
  induction redactions as [|r rest IH]; intros doc doc'; simpl.
  - intros [= <-]. reflexivity.
  - destruct (redact_one rt doc r oc) as [|doc1] eqn:H1; [discriminate|].
    intros H. rewrite (IH _ _ H). eapply redact_one_length, H1.
Qed.

Lemma array_get_outside {A} (arr : list A) (n : Z) :
  n < 1 \/ Z.of_nat (length arr) < n -> array_get arr (n - 1) = None.
Proof.
  intros H. unfold array_get.
  destruct (n - 1 <? 0) eqn:E; [reflexivity|].
  apply Z.ltb_ge in E. apply lookup_ge_None. lia.
Qed.

Lemma redact_all_app prefix rest oc : forall doc docp,
  redact_all rt doc prefix oc = inr docp ->
  redact_all rt doc (prefix ++ rest) oc = redact_all rt docp rest oc
  /\ redact_prefix rt doc (prefix ++ rest) oc = redact_prefix rt docp rest oc.
Proof.
  induction prefix as [|r prefix IH]; intros doc docp; simpl.
  - intros [= <-]. split; reflexivity.
  - destruct (redact_one rt doc r oc) as [|doc1]; [discriminate|]. apply IH.
Qed.

Lemma elem_of_when (b : bool) (m s : string) :
  s ∈ (if b then [m] else []) <-> b = true /\ s = m.
Proof.
  destruct b.
  - rewrite list_elem_of_singleton. tauto.
  - split; [intros H; inversion H | intros [H _]; discriminate].
Qed.

Lemma length_zero {A} (l : list A) : length l = 0%nat <-> l = [].
Proof. destruct l; split; intros H; try reflexivity; discriminate. Qed.

(** The first rectangle whose page is missing ends the call. *)
Lemma applyRedactions_page_not_found
    sessionId before redaction rest oc w e doc0 docp :
  sessionCache w !! sessionId = Some e ->
  NodeCache.check (now w) e = true ->
  PDFDocument_load rt (Session.pdfBuffer (NodeCache.v e)) = inr doc0 ->
  redact_all rt doc0 before oc = inr docp ->
  Redaction.pageNumber redaction < 1
  \/ Z.of_nat (length doc0) < Redaction.pageNumber redaction ->
  applyRedactions rt sessionId (before ++ redaction :: rest) oc w
  = (inl (Error ("Page " +:+ toString (Redaction.pageNumber redaction)
                 +:+ " not found")),
     set_heap w (heap w ++ [docp])).
Proof.
  intros He Hc Hl Hr Hp. rewrite applyRedactions_eq, He, Hc, Hl.
  destruct (redact_all_app before (redaction :: rest) oc _ _ Hr) as [-> ->].
  simpl. unfold redact_one.
  rewrite array_get_outside
    by (rewrite (redact_all_length _ _ _ _ Hr); exact Hp).
  reflexivity.
Qed.

(** C2 (amended).  [validateRedaction] looks at one rectangle, on the
    values as given, and reports every rule that rectangle breaks: each of
    its five messages is in [errors] exactly when its test holds, and
    [isValid] says that [errors] is empty.  [applyRedactions] does not call
    it and checks no bounds: on a live session whose bytes decode, it
    stops at the first rectangle whose page is not in the document, with
    the one error "Page N not found", having drawn the rectangles before
    it on its own decoded copy; the session store is left as it was. *)
Theorem validation_per_rectangle_apply_checks_pages
    (redaction : Redaction.t) (pageWidth pageHeight : float)
    sessionId before rest oc w e doc0 docp :
  let v := validateRedaction redaction pageWidth pageHeight in
  ("Invalid page number" ∈ errors v <-> Redaction.pageNumber redaction < 1)
  /\ ("X coordinate out of bounds" ∈ errors v <->
      ((Redaction.x redaction <? 0)
       || (pageWidth <? Redaction.x redaction))%float = true)
  /\ ("Y coordinate out of bounds" ∈ errors v <->
      ((Redaction.y redaction <? 0)
       || (pageHeight <? Redaction.y redaction))%float = true)
  /\ ("Invalid width or extends beyond page" ∈ errors v <->
      ((Redaction.width redaction <=? 0)
       || (pageWidth <? Redaction.x redaction + Redaction.width redaction))%float
      = true)
  /\ ("Invalid height or extends beyond page" ∈ errors v <->
      ((Redaction.height redaction <=? 0)
       || (pageHeight <? Redaction.y redaction + Redaction.height redaction))%float
      = true)
  /\ (isValid v = true <-> errors v = [])
  /\ (sessionCache w !! sessionId = Some e ->
      NodeCache.check (now w) e = true ->
      PDFDocument_load rt (Session.pdfBuffer (NodeCache.v e)) = inr doc0 ->
      redact_all rt doc0 before oc = inr docp ->
      Redaction.pageNumber redaction < 1
      \/ Z.of_nat (length doc0) < Redaction.pageNumber redaction ->
      applyRedactions rt sessionId (before ++ redaction :: rest) oc w
      = (inl (Error ("Page " +:+ toString (Redaction.pageNumber redaction)
                     +:+ " not found")),
         set_heap w (heap w ++ [docp]))).
Proof.
  intros v. subst v. unfold validateRedaction. cbn [errors isValid].
  rewrite bool_decide_eq_true, length_zero.
  repeat rewrite elem_of_app. repeat rewrite elem_of_when.
  repeat split;
    try (intros H; intuition congruence);
    try (intros H; rewrite ?orb_true_iff, ?Z.eqb_eq, ?Z.ltb_lt in *;
         intuition lia).
  - intros [[H _]|H]; [|intuition congruence].
    rewrite orb_true_iff, Z.eqb_eq, Z.ltb_lt in H. lia.
  - apply applyRedactions_page_not_found.
Qed.

End Validation.

Lemma prepared_holds_session :
  sessionCache Example.prepared !! Example.session_id
  = Some (NodeCache.wrap stdTTL 0 Example.session_data).
Proof. vm_compute. reflexivity. Qed.

Lemma validation_per_rectangle_apply_checks_pages_witness :
  "Invalid page number" ∈
    errors (validateRedaction Example.page_zero 600 800)
  /\ applyRedactions Example.runtime Example.session_id
       [Example.too_wide; Example.page_zero] None Example.prepared
     = (inl (Error "Page 0 not found"),
        set_heap Example.prepared (heap Example.prepared ++ [Example.overdrawn])).
Proof.
  pose proof (validation_per_rectangle_apply_checks_pages Example.runtime
                Example.page_zero 600 800 Example.session_id
                [Example.too_wide] [] None Example.prepared
                (NodeCache.wrap stdTTL 0 Example.session_data)
                Example.blank Example.overdrawn)
    as (Hpn & _ & _ & _ & _ & _ & Happly).
  split.
  - apply Hpn. reflexivity.
  - apply Happly.
    + exact prepared_holds_session.
    + reflexivity.
    + reflexivity.
    + vm_compute. reflexivity.
    + left. reflexivity.
Defined.

(** C2 as stated fails.  With one page of 600 by 800 points:
    [validateRedaction] finds both [page_zero] and [too_wide] invalid, yet
    a call with the two ends with the single error "Page 0 not found"; a
    call with [too_wide] alone resolves; and a call with [too_wide]
    followed by [page_zero] has drawn [too_wide] on its document by the
    time it ends with the error. *)
Lemma apply_reports_one_error_or_none :
  isValid (validateRedaction Example.page_zero 600 800) = false
  /\ errors (validateRedaction Example.too_wide 600 800)
     = ["Invalid width or extends beyond page"]
  /\ fst (applyRedactions Example.runtime Example.session_id
            [Example.page_zero; Example.too_wide] None Example.prepared)
     = inl (Error "Page 0 not found")
  /\ fst (applyRedactions Example.runtime Example.session_id
            [Example.too_wide] None Example.prepared)
     = inr {| redactedPdfBase64 := "AQ=="; originalSize := 1;
              redactedSize := 1; processingTime := 0 |}
  /\ applyRedactions Example.runtime Example.session_id
       [Example.too_wide; Example.page_zero] None Example.prepared
     = (inl (Error "Page 0 not found"),
        set_heap Example.prepared (heap Example.prepared ++ [Example.overdrawn])).
Proof. vm_compute. repeat split; reflexivity. Qed.

(** *** Calls in flight on one session *)

Section Interleaving.

Variable rt : Runtime.
Variable sessionId : string.
Variable bytes : Buffer.

Lemma on_track_document c t w d :
  on_track rt bytes c t w -> document_of t = Some d -> (d < length (heap w))%nat.
Proof.
  destruct t; simpl; try discriminate.
  - intros (_ & _ & doc0 & done & doc & _ & _ & _ & H) [= <-].
    eapply lookup_lt_Some, H.
  - intros (_ & _ & doc0 & doc & _ & _ & H) [= <-].
    eapply lookup_lt_Some, H.
Qed.

(** A world whose heap differs from that of [w] only at [d] or beyond the
    end keeps every other call on track. *)
Lemma on_track_frame c t w w' :
  on_track rt bytes c t w ->
  (forall d doc, document_of t = Some d -> heap w !! d = Some doc ->
                 heap w' !! d = Some doc) ->
  on_track rt bytes c t w'.
Proof.
  intros H Hheap. destruct t; simpl in *; try assumption.
  - destruct H as (-> & Hb & doc0 & done & doc & Hl & Hs & Hr & Hd).
    repeat split; try assumption. exists doc0, done, doc.
    repeat split; try assumption. apply (Hheap _ _ eq_refl Hd).
  - destruct H as (-> & Hb & doc0 & doc & Hl & Hr & Hd).
    repeat split; try assumption. exists doc0, doc.
    repeat split; try assumption. apply (Hheap _ _ eq_refl Hd).
Qed.

Lemma redact_all_snoc done r oc doc0 doc doc' :
  redact_all rt doc0 done oc = inr doc ->
  redact_one rt doc r oc = inr doc' ->
  redact_all rt doc0 (done ++ [r]) oc = inr doc'.
Proof.
  intros Hd Hr.
  destruct (redact_all_app rt done [r] oc _ _ Hd) as [-> _].
  simpl. rewrite Hr. reflexivity.
Qed.

(** The loop, entered with the call on track, leaves it on track, changes
    the heap at the call's own document only, and keeps the store. *)
Lemma loop_on_track c startTime sessionData pdfDoc rest w t' w'
    doc0 done doc :
  Session.pdfBuffer sessionData = bytes ->
  PDFDocument_load rt bytes = inr doc0 ->
  call_redactions c = done ++ rest ->
  redact_all rt doc0 done (call_color c) = inr doc ->
  heap w !! pdfDoc = Some doc ->
  loop rt c startTime sessionData pdfDoc rest w = (t', w') ->
  on_track rt bytes c t' w'
  /\ sessionCache w' = sessionCache w
  /\ (forall d, d <> pdfDoc -> heap w' !! d = heap w !! d)
  /\ length (heap w') = length (heap w)
  /\ (forall d, document_of t' = Some d -> d = pdfDoc).
Proof.
  intros Hb Hl Hs Hr Hd. unfold loop.
  destruct rest as [|r rest'].
  - intros [= <- <-]. rewrite app_nil_r in Hs. rewrite <- Hs in Hr.
    simpl. repeat split; try reflexivity.
    + assumption.
    + exists doc0, doc. repeat split; assumption.
    + intros d [= <-]. reflexivity.
  - rewrite (applyRedactionToPage_redact_one rt _ _ _ _ _ Hd).
    destruct (redact_one rt doc r (call_color c)) as [e|doc1] eqn:H1.
    + intros [= <- <-]. simpl. repeat split; try reflexivity. discriminate.
    + intros [= <- <-]. simpl. repeat split.
      * assumption.
      * exists doc0, (done ++ [r]), doc1. repeat split.
        -- assumption.
        -- rewrite <- app_assoc. exact Hs.
        -- eapply redact_all_snoc; eassumption.
        -- apply list_lookup_insert_eq. eapply lookup_lt_Some, Hd.
      * intros d Hne. apply list_lookup_insert_ne. congruence.
      * apply length_insert.
      * intros d [= <-]. reflexivity.
Qed.

(** One resumption of a call that is on track. *)
Lemma step_on_track c t w t' w' :
  call_sessionId c = sessionId ->
  holds_bytes sessionId bytes w ->
  on_track rt bytes c t w ->
  step rt t w = (t', w') ->
  holds_bytes sessionId bytes w'
  /\ on_track rt bytes c t' w'
  /\ (forall d, (d < length (heap w))%nat -> document_of t <> Some d ->
               heap w' !! d = heap w !! d)
  /\ (length (heap w) <= length (heap w'))%nat
  /\ (forall d, document_of t' = Some d ->
               document_of t = Some d \/ (length (heap w) <= d)%nat).
Proof.
  intros Hsid Hw Ht. destruct t as [c0|c0 st sd|c0 st sd pdfDoc rest|c0 st sd pdfDoc|r|e];
    simpl in Ht; simpl step.
  - (* Called *)
    subst c0. unfold mbind, M_bind, Date_now_M, sessionCache_get, NodeCache.get,
      mret, M_ret. rewrite Hsid.
    destruct (sessionCache w !! sessionId) as [e|] eqn:He.
    + destruct (NodeCache.check (now w) e) eqn:Hc; intros [= <- <-]; simpl.
      * split; [exact Hw|]. repeat split; auto; try discriminate.
      * split; [|repeat split; auto; try discriminate].
        intros e'. simpl. rewrite lookup_delete_eq. discriminate.
    + intros [= <- <-]; simpl.
      split; [exact Hw|]. repeat split; auto; try discriminate.
  - (* AwaitLoad *)
    destruct Ht as [-> Hb]. unfold load.
    destruct (PDFDocument_load rt (Session.pdfBuffer sd)) as [e|doc0] eqn:Hl.
    + intros [= <- <-]; simpl.
      split; [exact Hw|]. repeat split; auto; try discriminate.
    + intros Hloop. rewrite Hb in Hl.
      destruct (heap_after_load (heap w) doc0 doc0) as [Hlook _].
      eapply (loop_on_track c st sd _ _ _ _ _ doc0 [] doc0) in Hloop;
        try eassumption; try reflexivity.
      destruct Hloop as (Hon & Hcache & Hheap & Hlen & Hdoc). simpl in *.
      split; [|split; [|split; [|split]]].
      * intros e. rewrite Hcache. apply Hw.
      * assumption.
      * intros d Hd _. rewrite Hheap by lia. apply lookup_app_l, Hd.
      * rewrite Hlen, length_app. simpl. lia.
      * intros d Hd'. right. rewrite (Hdoc _ Hd'). lia.
  - (* AwaitDraw *)
    destruct Ht as (-> & Hb & doc0 & done & doc & Hl & Hs & Hr & Hd).
    intros Hloop.
    eapply (loop_on_track c st sd pdfDoc rest w) in Hloop; try eassumption.
    destruct Hloop as (Hon & Hcache & Hheap & Hlen & Hdoc).
    split; [|split; [|split; [|split]]].
    + intros e. rewrite Hcache. apply Hw.
    + assumption.
    + intros d _ Hne. apply Hheap. simpl in Hne. congruence.
    + lia.
    + intros d Hd'. left. rewrite (Hdoc _ Hd'). reflexivity.
  - (* AwaitSave *)
    destruct Ht as (-> & Hb & doc0 & doc & Hl & Hr & Hd).
    unfold mbind, M_bind, save. rewrite Hd. unfold finish, mbind, M_bind,
      Date_now_M, sessionCache_set, mret, M_ret. simpl.
    intros [= <- <-]. simpl.
    split; [|split; [|repeat split; auto; try discriminate]].
    + intros e. simpl. unfold NodeCache.set. rewrite Hsid.
      rewrite lookup_insert_eq. intros [= <-]. exact Hb.
    + exists doc0, doc. repeat split; assumption.
  - intros [= <- <-]. split; [exact Hw|]. repeat split; auto.
  - intros [= <- <-]. split; [exact Hw|]. repeat split; auto.
Qed.

Lemma apart_sym t1 t2 : apart t1 t2 -> apart t2 t1.
Proof. intros H d1 d2 H1 H2 Heq. exact (H d2 d1 H2 H1 (eq_sym Heq)). Qed.

(** Resuming one call keeps the other on track. *)
Lemma resume_keeps_other c t w t' w' co to :
  call_sessionId c = sessionId ->
  holds_bytes sessionId bytes w ->
  on_track rt bytes c t w -> on_track rt bytes co to w -> apart t to ->
  step rt t w = (t', w') ->
  holds_bytes sessionId bytes w' /\ on_track rt bytes c t' w'
  /\ on_track rt bytes co to w' /\ apart t' to.
Proof.
  intros Hsid Hw Ht Hto Hap Hstep.
  destruct (step_on_track c t w t' w' Hsid Hw Ht Hstep)
    as (Hw' & Ht' & Hheap & Hlen & Hdoc).
  repeat split; try assumption.
  - apply (on_track_frame co to w w' Hto).
    intros d doc Hd Hlook. rewrite Hheap; [assumption| |].
    + eapply lookup_lt_Some, Hlook.
    + intros Hd1. exact (Hap d d Hd1 Hd eq_refl).
  - intros d1 d2 H1 H2. destruct (Hdoc _ H1) as [H|H].
    + exact (Hap _ _ H H2).
    + pose proof (on_track_document co to w d2 Hto H2). lia.
Qed.

Lemma act_on_track c1 c2 cfg a :
  call_sessionId c1 = sessionId -> call_sessionId c2 = sessionId ->
  all_on_track rt sessionId bytes c1 c2 cfg -> all_on_track rt sessionId bytes c1 c2 (act rt cfg a).
Proof.
  intros H1 H2 (Hw & Ht1 & Ht2 & Hap). destruct a as [| |ms]; unfold act.
  - destruct (step rt (first cfg) (cfg_world cfg)) as [t' w'] eqn:Hstep.
    destruct (resume_keeps_other c1 _ _ _ _ c2 _ H1 Hw Ht1 Ht2 Hap Hstep)
      as (? & ? & ? & ?).
    repeat split; assumption.
  - destruct (step rt (second cfg) (cfg_world cfg)) as [t' w'] eqn:Hstep.
    destruct (resume_keeps_other c2 _ _ _ _ c1 _ H2 Hw Ht2 Ht1 (apart_sym _ _ Hap) Hstep)
      as (? & ? & ? & ?).
    repeat split; try assumption. apply apart_sym. assumption.
  - repeat split; simpl; assumption.
Qed.

Lemma exec_on_track c1 c2 schedule : forall cfg,
  call_sessionId c1 = sessionId -> call_sessionId c2 = sessionId ->
  all_on_track rt sessionId bytes c1 c2 cfg ->
  all_on_track rt sessionId bytes c1 c2 (exec rt schedule cfg).
Proof.
  induction schedule as [|a rest IH]; intros cfg H1 H2 H; simpl.
  - exact H.
  - apply IH; try assumption. apply act_on_track; assumption.
Qed.

End Interleaving.

(** C9 (amended).  Two calls of [applyRedactions] on one session, resumed
    by the event loop in any order with any delays between resumptions.
    Nothing makes one call wait for the other or turns it away; but each
    call draws on the document object it decoded itself from the stored
    bytes, so a call that resolves returns those bytes decoded with
    exactly its own rectangles in its own order, and nothing of the other
    call's. *)
Theorem concurrent_applies_never_mix
    (rt : Runtime) sessionId rs1 oc1 rs2 oc2 w sessionData schedule :
  stored sessionId w = Some sessionData ->
  let c1 := {| call_sessionId := sessionId; call_redactions := rs1;
               call_color := oc1 |} in
  let c2 := {| call_sessionId := sessionId; call_redactions := rs2;
               call_color := oc2 |} in
  let final :=
    exec rt schedule {| cfg_world := w; first := Called c1; second := Called c2 |} in
  (forall r, first final = Resolved r ->
     exists doc0 doc,
       PDFDocument_load rt (Session.pdfBuffer sessionData) = inr doc0
       /\ redact_all rt doc0 rs1 oc1 = inr doc
       /\ redactedPdfBase64 r = toString_base64 (PDFDocument_save rt doc))
  /\ (forall r, second final = Resolved r ->
       exists doc0 doc,
         PDFDocument_load rt (Session.pdfBuffer sessionData) = inr doc0
         /\ redact_all rt doc0 rs2 oc2 = inr doc
         /\ redactedPdfBase64 r = toString_base64 (PDFDocument_save rt doc)).
Proof.
  intros Hstored c1 c2 final.
  assert (Hinv : all_on_track rt sessionId (Session.pdfBuffer sessionData) c1 c2 final).
  { apply exec_on_track; try reflexivity.
    repeat split; simpl; try discriminate.
    intros e He. unfold stored in Hstored. rewrite He in Hstored.
    injection Hstored as <-. reflexivity. }
  destruct Hinv as (_ & H1 & H2 & _).
  split; intros r Hr.
  - rewrite Hr in H1. exact H1.
  - rewrite Hr in H2. exact H2.
Qed.

Lemma concurrent_applies_never_mix_witness :
  let final :=
    exec Example.runtime
      [ ResumeFirst; ResumeSecond; ResumeFirst; ResumeSecond; ResumeFirst;
        ResumeSecond; ResumeFirst; Tick 5; ResumeSecond; ResumeFirst ]
      {| cfg_world := Example.prepared;
         first := Called (Example.call_of [Example.inside; Example.inside]);
         second := Called (Example.call_of [Example.too_wide]) |} in
  redactedPdfBase64 (Applied "AQ==" 1 1 5)
  = toString_base64 (PDFDocument_save Example.runtime Example.overdrawn).
Proof.
  intros final.
  destruct (concurrent_applies_never_mix Example.runtime Example.session_id
              [Example.inside; Example.inside] None [Example.too_wide] None
              Example.prepared Example.session_data
              [ ResumeFirst; ResumeSecond; ResumeFirst; ResumeSecond; ResumeFirst;
                ResumeSecond; ResumeFirst; Tick 5; ResumeSecond; ResumeFirst ])
    as [_ H2].
  - vm_compute. reflexivity.
  - destruct (H2 (Applied "AQ==" 1 1 5)) as (doc0 & doc & Hl & Hr & Hb).
    + vm_compute. reflexivity.
    + vm_compute in Hl. injection Hl as <-.
      vm_compute in Hr. injection Hr as <-. exact Hb.
Defined.

(** C9 as stated fails.  The first call has drawn one of its two
    rectangles and is suspended when the second call is begun; the second
    is not made to wait and is not turned away: both are in flight
    together, both resolve, and the session ends with the list of the call
    that finished last. *)
Lemma concurrent_applies_are_not_serialized :
  let start :=
    {| cfg_world := Example.prepared;
       first := Called (Example.call_of [Example.inside; Example.inside]);
       second := Called (Example.call_of [Example.too_wide]) |} in
  let mid := exec Example.runtime [ResumeFirst; ResumeFirst; ResumeSecond] start in
  let final :=
    exec Example.runtime
      [ResumeSecond; ResumeFirst; ResumeSecond; ResumeFirst; ResumeSecond; ResumeFirst]
      mid in
  in_flight (first mid) = true
  /\ in_flight (second mid) = true
  /\ first final = Resolved (Applied "Ag==" 1 1 0)
  /\ second final = Resolved (Applied "AQ==" 1 1 0)
  /\ Session.redactions <$> stored Example.session_id (cfg_world final)
     = Some [Example.inside; Example.inside].
Proof. vm_compute. repeat split; reflexivity. Qed.

(** *** A call left alone *)

Section Alone.

Variable rt : Runtime.

Lemma steps_settled n : forall t w,
  settled t = true -> steps rt n t w = (t, w).
Proof.
  induction n as [|n IH]; intros t w H; simpl; [reflexivity|].
  destruct t; try discriminate; simpl; apply IH; reflexivity.
Qed.

Lemma set_heap_same w : set_heap w (heap w) = w.
Proof. destruct w; reflexivity. Qed.

Lemma loop_run c startTime sessionData pdfDoc rest : forall w doc,
  heap w !! pdfDoc = Some doc ->
  (let '(t1, w1) := loop rt c startTime sessionData pdfDoc rest w in
   steps rt (length rest + 1) t1 w1)
  = match redact_all rt doc rest (call_color c) with
    | inl e =>
        (Rejected e,
         set_heap w (<[pdfDoc := redact_prefix rt doc rest (call_color c)]> (heap w)))
    | inr doc' =>
        step rt (AwaitSave c startTime sessionData pdfDoc)
          (set_heap w (<[pdfDoc := doc']> (heap w)))
    end.
Proof.
  induction rest as [|r rest IH]; intros w doc Hd.
  - cbn [loop length Nat.add steps redact_all].
    rewrite (list_insert_id _ _ _ Hd), set_heap_same.
    destruct (step rt _ w); reflexivity.
  - unfold loop. rewrite (applyRedactionToPage_redact_one rt _ _ _ _ _ Hd).
    simpl redact_all. simpl redact_prefix.
    destruct (redact_one rt doc r (call_color c)) as [e|doc1] eqn:H1.
    + rewrite steps_settled by reflexivity.
      rewrite (list_insert_id _ _ _ Hd), set_heap_same. reflexivity.
    + change (length (r :: rest) + 1)%nat with (S (length rest + 1)).
      cbn [steps step].
      rewrite (IH _ doc1)
        by (simpl; apply list_lookup_insert_eq; eapply lookup_lt_Some, Hd).
      destruct (redact_all rt doc1 rest (call_color c));
        unfold set_heap; cbn [heap now sessionCache];
        rewrite list_insert_insert_eq; reflexivity.
Qed.

(** Resumed without interruption until it settles, a call does what
    [applyRedactions] does. *)
Lemma steps_alone c w :
  steps rt (length (call_redactions c) + 3) (Called c) w
  = (match fst (applyRedactions rt (call_sessionId c) (call_redactions c)
                  (call_color c) w) with
     | inr r => Resolved r
     | inl e => Rejected e
     end,
     snd (applyRedactions rt (call_sessionId c) (call_redactions c)
            (call_color c) w)).
Proof.
  rewrite applyRedactions_eq.
  replace (length (call_redactions c) + 3)%nat
    with (S (S (length (call_redactions c) + 1))) by lia.
  cbn [steps]. simpl step.
  unfold mbind, M_bind, Date_now_M, sessionCache_get, NodeCache.get, mret, M_ret.
  destruct (sessionCache w !! call_sessionId c) as [e|] eqn:He.
  2:{ simpl. rewrite steps_settled by reflexivity. reflexivity. }
  destruct (NodeCache.check (now w) e) eqn:Hc.
  2:{ simpl. rewrite steps_settled by reflexivity. reflexivity. }
  simpl step. unfold load. simpl.
  destruct (PDFDocument_load rt _) as [err|doc0] eqn:Hl.
  { rewrite steps_settled by reflexivity. reflexivity. }
  destruct (heap_after_load (heap w) doc0
              (redact_prefix rt doc0 (call_redactions c) (call_color c)))
    as [Hlook Hins].
  rewrite (loop_run c _ _ _ _ _ doc0) by exact Hlook.
  destruct (redact_all rt doc0 (call_redactions c) (call_color c))
    as [err|doc] eqn:Hr.
  { unfold set_heap. simpl. rewrite Hins. reflexivity. }
  destruct (heap_after_load (heap w) doc0 doc) as [_ Hins'].
  destruct (heap_after_load (heap w) doc doc) as [Hlook' _].
  simpl step. unfold mbind, M_bind, save, set_heap. simpl.
  rewrite Hins', Hlook'. reflexivity.
Qed.

End Alone.

(** * Further properties *)

(** ** Preparing a session *)

Section Prepare.

Variable rt : Runtime.

(** The session object that a successful [preparePDFForRedaction] stores. *)
Lemma preparePDFForRedaction_inv this_platform bucketName fileName w
    sessionId pageCount pages meta w' :
  preparePDFForRedaction rt this_platform bucketName fileName w
    = (inr (sessionId, pageCount, pages, meta), w') ->
  exists platform buffer doc,
    truthy this_platform = Some platform
    /\ downloadFile rt (FileService.FileService_new platform) bucketName fileName
       = inr (Some buffer)
    /\ PDFDocument_load rt buffer = inr doc
    /\ pageCount = Z.of_nat (length doc)
    /\ pages = map (fun i =>
                      {| info_pageNumber := Z.of_nat i + 1;
                         dimensions := getPageDimensions rt doc i;
                         previewUrl := "/api/redaction/session/" +:+ sessionId
                                       +:+ "/page/" +:+ toString (Z.of_nat i + 1)
                                       +:+ "/preview" |})
                   (seq 0 (length doc))
    /\ w' = {| now := now w;
               sessionCache :=
                 <[sessionId :=
                     NodeCache.wrap stdTTL (now w)
                       {| Session.sessionId := sessionId;
                          Session.fileName := fileName;
                          Session.bucketName := bucketName;
                          Session.platform := this_platform;
                          Session.pdfBuffer := buffer;
                          Session.pageCount := pageCount;
                          Session.pages := pages;
                          Session.createdAt := now w;
                          Session.redactions := [];
                          Session.redactedAt := None |}]> (sessionCache w);
               heap := heap w ++ [doc] |}.
Proof.
  unfold preparePDFForRedaction, try_catchM, mbind, M_bind, generateSessionId,
    Date_now_M, throw.
  destruct (truthy this_platform) as [platform|] eqn:Hp; [|discriminate].
  destruct (downloadFile rt _ bucketName fileName) as [e|[buffer|]] eqn:Hd;
    try discriminate.
  unfold load. destruct (PDFDocument_load rt buffer) as [e|doc] eqn:Hl;
    [discriminate|].
  unfold getPages. simpl.
  destruct (heap_after_load (heap w) doc doc) as [Hlook _]. rewrite Hlook.
  unfold sessionCache_set, mret, M_ret. simpl.
  intros [= <- <- <- <- <-].
  exists platform, buffer, doc. repeat split; try assumption; reflexivity.
Qed.


Lemma failed_prepare_cases this_platform bucketName fileName w e w' :
  preparePDFForRedaction rt this_platform bucketName fileName w = (inl e, w') ->
  w' = w
  /\ ((truthy this_platform = None
       /\ e = TypeError "Cannot read properties of null (reading 'downloadFile')")
      \/ exists platform,
           truthy this_platform = Some platform
           /\ (downloadFile rt (FileService.FileService_new platform)
                 bucketName fileName = inl e
               \/ (downloadFile rt (FileService.FileService_new platform)
                     bucketName fileName = inr None
                   /\ e = Error "Failed to download PDF file")
               \/ exists buffer,
                    downloadFile rt (FileService.FileService_new platform)
                      bucketName fileName = inr (Some buffer)
                    /\ PDFDocument_load rt buffer = inl e)).
Proof.
  unfold preparePDFForRedaction, try_catchM, mbind, M_bind, generateSessionId,
    Date_now_M, throw.
  destruct (truthy this_platform) as [platform|] eqn:Hp.
  2:{ intros [= <- <-]. split; [reflexivity|]. left. split; reflexivity. }
  destruct (downloadFile rt _ bucketName fileName) as [e0|[buffer|]] eqn:Hd.
  - intros [= <- <-]. split; [reflexivity|]. right. exists platform. auto.
  - unfold load. destruct (PDFDocument_load rt buffer) as [e0|doc] eqn:Hl.
    + intros [= <- <-]. split; [reflexivity|]. right. exists platform.
      split; [reflexivity|]. right. right. exists buffer. auto.
    + unfold getPages. simpl.
      destruct (heap_after_load (heap w) doc doc) as [Hlook _]. rewrite Hlook.
      discriminate.
  - intros [= <- <-]. split; [reflexivity|]. right. exists platform. auto.
Qed.

End Prepare.



(** X2.  A successful [preparePDFForRedaction] decodes the downloaded
    bytes once and describes every page of the document: as many
    descriptors as pages, numbered from 1 in document order, each with the
    rounded size of its own page and its preview address; [pageCount] is
    their number. *)
Theorem prepare_describes_every_page
    (rt : Runtime) this_platform bucketName fileName w
    sessionId pageCount pages meta w' :
  preparePDFForRedaction rt this_platform bucketName fileName w
    = (inr (sessionId, pageCount, pages, meta), w') ->
  exists doc,
    heap w' = heap w ++ [doc]
    /\ pageCount = Z.of_nat (length doc)
    /\ length pages = length doc
    /\ forall (i : nat) page,
         doc !! i = Some page ->
         pages !! i
         = Some {| info_pageNumber := Z.of_nat i + 1;
                   dimensions := (Math_round rt (page_width page),
                                  Math_round rt (page_height page));
                   previewUrl := "/api/redaction/session/" +:+ sessionId
                                 +:+ "/page/" +:+ toString (Z.of_nat i + 1)
                                 +:+ "/preview" |}.
Proof.
  intros H.
  apply preparePDFForRedaction_inv in H
    as (platform & buffer & doc & _ & _ & _ & -> & -> & ->).
  exists doc. simpl. repeat split.
  - rewrite length_map, length_seq. reflexivity.
  - intros i page Hi. rewrite list_lookup_fmap.
    rewrite lookup_seq_lt by (eapply lookup_lt_Some, Hi).
    simpl. unfold getPageDimensions. rewrite Hi. reflexivity.
Qed.

Lemma prepare_describes_every_page_witness :
  exists doc,
    heap Example.prepared = heap Example.fresh ++ [doc]
    /\ length (Session.pages Example.session_data) = length doc.
Proof.
  destruct (prepare_describes_every_page Example.runtime (Some "gcp") "docs"
              "report.pdf" Example.fresh Example.session_id 1
              (Session.pages Example.session_data) (1%nat, 0) Example.prepared)
    as (doc & Hh & _ & Hl & _).
  - vm_compute. reflexivity.
  - exists doc. split; assumption.
Defined.

(** X3.  A call of [preparePDFForRedaction] that fails leaves the world as
    it was (no session is stored, no document is kept), and its error is
    the [TypeError] of a service built without a platform, the error of
    the download, "Failed to download PDF file" when the download gave no
    buffer, or the error of the decoder; the [catch] clause passes the
    error on as it is. *)
Theorem failed_prepare_changes_nothing
    (rt : Runtime) this_platform bucketName fileName w e w' :
  preparePDFForRedaction rt this_platform bucketName fileName w = (inl e, w') ->
  w' = w
  /\ ((truthy this_platform = None
       /\ e = TypeError "Cannot read properties of null (reading 'downloadFile')")
      \/ exists platform,
           truthy this_platform = Some platform
           /\ (downloadFile rt (FileService.FileService_new platform)
                 bucketName fileName = inl e
               \/ (downloadFile rt (FileService.FileService_new platform)
                     bucketName fileName = inr None
                   /\ e = Error "Failed to download PDF file")
               \/ exists buffer,
                    downloadFile rt (FileService.FileService_new platform)
                      bucketName fileName = inr (Some buffer)
                    /\ PDFDocument_load rt buffer = inl e)).
Proof. apply failed_prepare_cases. Qed.

Lemma failed_prepare_changes_nothing_witness :
  snd (preparePDFForRedaction Example.runtime (Some "aws") "docs" "missing.pdf"
         Example.prepared) = Example.prepared.
Proof.
  apply (failed_prepare_changes_nothing Example.runtime (Some "aws") "docs"
           "missing.pdf" Example.prepared (Error "No such object")).
  vm_compute. reflexivity.
Defined.

(** ** What a call leaves behind *)




Lemma generatePreview_eq sessionId pageNumber redactions oc w :
  generatePreview sessionId pageNumber redactions oc w
  = match NodeCache.get (now w) sessionId (sessionCache w) with
    | (Some _, data) =>
        (inr placeholder_png,
         {| now := now w; sessionCache := data; heap := heap w |})
    | (None, data) =>
        (inl not_found, {| now := now w; sessionCache := data; heap := heap w |})
    end.
Proof.
  unfold generatePreview, try_catchM, mbind, M_bind, sessionCache_get.
  destruct (NodeCache.get (now w) sessionId (sessionCache w)) as [[sd|] data];
    reflexivity.
Qed.

Lemma autoDetectSensitiveInfo_eq sessionId detectionTypes threshold w :
  autoDetectSensitiveInfo sessionId detectionTypes threshold w
  = match NodeCache.get (now w) sessionId (sessionCache w) with
    | (Some _, data) =>
        (inr (filter (fun r => (threshold <=? s_confidence r)%float = true)
                (candidates detectionTypes),
              average_confidence (candidates detectionTypes)),
         {| now := now w; sessionCache := data; heap := heap w |})
    | (None, data) =>
        (inl not_found, {| now := now w; sessionCache := data; heap := heap w |})
    end.
Proof.
  unfold autoDetectSensitiveInfo, try_catchM, mbind, M_bind, sessionCache_get.
  destruct (NodeCache.get (now w) sessionId (sessionCache w)) as [[sd|] data];
    reflexivity.
Qed.



Lemma getSessionDetails_world sessionId w :
  snd (getSessionDetails sessionId w)
  = {| now := now w;
       sessionCache := snd (NodeCache.get (now w) sessionId (sessionCache w));
       heap := heap w |}.
Proof.
  rewrite getSessionDetails_eq. unfold NodeCache.get, set_heap.
  destruct (sessionCache w !! sessionId) as [entry|]; [|reflexivity].
  destruct (NodeCache.check (now w) entry); reflexivity.
Qed.

(** Fetching from the store either leaves it alone or drops the entry
    asked for, and that only when its time is over. *)
Lemma NodeCache_get_keeps {V} (t : Z) (key : string)
    (data : gmap string (NodeCache.entry V)) :
  (forall k, k <> key -> snd (NodeCache.get t key data) !! k = data !! k)
  /\ (snd (NodeCache.get t key data) !! key = data !! key
      \/ (snd (NodeCache.get t key data) !! key = None
          /\ exists entry, data !! key = Some entry
                           /\ NodeCache.check t entry = false))
  /\ (forall entry, data !! key = Some entry -> NodeCache.check t entry = true ->
        snd (NodeCache.get t key data) = data).
Proof.
  unfold NodeCache.get. destruct (data !! key) as [e|] eqn:He.
  - destruct (NodeCache.check t e) eqn:Hc; simpl.
    + split; [auto|]. split; [left; exact He|auto].
    + split; [intros k Hk; apply lookup_delete_ne; congruence|].
      split.
      * right. split; [apply lookup_delete_eq|]. exists e. auto.
      * intros entry [= <-] Hc'. congruence.
  - simpl. split; [auto|]. split; [left; exact He|auto].
Qed.

(** X6.  The three read operations, [getSessionDetails], [generatePreview]
    and [autoDetectSensitiveInfo], store nothing.  After any of them the
    clock and the documents are as before and every other session is in
    the store exactly as it was, stamp included; the entry of the session
    asked for is as it was too, unless its hour was over, in which case
    the lookup has dropped it.  On a live session the world after the call
    is the world before it, and [generatePreview] answers with the
    placeholder image whatever page and rectangles it is given. *)
Theorem reads_do_not_write
    sessionId pageNumber redactions oc detectionTypes threshold w :
  let after :=
    [ snd (getSessionDetails sessionId w);
      snd (generatePreview sessionId pageNumber redactions oc w);
      snd (autoDetectSensitiveInfo sessionId detectionTypes threshold w) ] in
  Forall (fun w' =>
            now w' = now w /\ heap w' = heap w
            /\ (forall key, key <> sessionId ->
                  sessionCache w' !! key = sessionCache w !! key)
            /\ (sessionCache w' !! sessionId = sessionCache w !! sessionId
                \/ (sessionCache w' !! sessionId = None
                    /\ exists entry,
                         sessionCache w !! sessionId = Some entry
                         /\ NodeCache.check (now w) entry = false))) after
  /\ (forall entry,
        sessionCache w !! sessionId = Some entry ->
        NodeCache.check (now w) entry = true ->
        Forall (fun w' => w' = w) after
        /\ fst (generatePreview sessionId pageNumber redactions oc w)
           = inr placeholder_png).
Proof.
  intros after. subst after.
  rewrite getSessionDetails_world, generatePreview_eq, autoDetectSensitiveInfo_eq.
  destruct (NodeCache_get_keeps (now w) sessionId (sessionCache w))
    as (Hothers & Hsame & Hlive).
  split.
  - assert (Hw : forall w', w' = {| now := now w;
                                   sessionCache :=
                                     snd (NodeCache.get (now w) sessionId
                                            (sessionCache w));
                                   heap := heap w |} ->
               now w' = now w /\ heap w' = heap w
               /\ (forall key, key <> sessionId ->
                     sessionCache w' !! key = sessionCache w !! key)
               /\ (sessionCache w' !! sessionId = sessionCache w !! sessionId
                   \/ (sessionCache w' !! sessionId = None
                       /\ exists entry,
                            sessionCache w !! sessionId = Some entry
                            /\ NodeCache.check (now w) entry = false))).
    { intros w' ->. simpl. auto. }
    repeat (apply List.Forall_cons); [| | |apply List.Forall_nil]; apply Hw;
      destruct (NodeCache.get (now w) sessionId (sessionCache w)) as [[sd|] data];
      reflexivity.
  - intros entry He Hc. specialize (Hlive entry He Hc).
    unfold NodeCache.get in *. rewrite He, Hc in *. simpl in *.
    destruct w; simpl in *. repeat constructor.
Qed.

Lemma reads_do_not_write_witness :
  snd (autoDetectSensitiveInfo Example.session_id ["email"] 0.8 Example.prepared)
  = Example.prepared.
Proof.
  destruct (reads_do_not_write Example.session_id 1 [] None ["email"] 0.8
              Example.prepared) as [_ H].
  destruct (H (NodeCache.wrap stdTTL 0 Example.session_data)
              prepared_holds_session eq_refl) as [Hall _].
  inversion Hall as [|? ? _ Hrest]. inversion Hrest as [|? ? _ Hrest'].
  inversion Hrest' as [|? ? Hlast _]. exact Hlast.
Defined.

(** ** Suggested rectangles *)

Lemma candidates_sound detectionTypes s :
  s ∈ candidates detectionTypes ->
  s_type s ∈ detectionTypes
  /\ s_type s ∈ ["email"; "phone"; "ssn"]
  /\ s_pageNumber s = 1.
Proof.
  unfold candidates. rewrite !elem_of_app.
  intros [H|[H|H]]; case_bool_decide; try (inversion H; fail);
    apply list_elem_of_singleton in H; subst s; simpl;
    (split; [assumption|split; [|reflexivity]]);
    apply (bool_decide_unpack _); vm_compute; exact I.
Qed.

Lemma candidates_distinct detectionTypes :
  NoDup (map s_type (candidates detectionTypes))
  /\ (length (candidates detectionTypes) <= 3)%nat.
Proof.
  unfold candidates. repeat case_bool_decide; simpl;
    (split; [apply (bool_decide_unpack _); vm_compute; exact I | lia]).
Qed.

Lemma NoDup_map_filter {A B} (f : A -> B) (P : A -> Prop)
    `{forall x, Decision (P x)} (l : list A) :
  NoDup (map f l) -> NoDup (map f (filter P l)).
Proof.
  induction l as [|a l IH]; simpl; [auto|].
  intros Hnd. apply NoDup_cons in Hnd as [Hnotin Hnd].
  rewrite filter_cons. destruct (decide (P a)); simpl; [|auto].
  apply NoDup_cons. split; [|auto].
  intros Hin. apply Hnotin.
  apply list_elem_of_fmap in Hin as (b & -> & Hb).
  apply list_elem_of_fmap. exists b. split; [reflexivity|].
  apply list_elem_of_filter in Hb as [_ Hb]. exact Hb.
Qed.

(** X7.  When [autoDetectSensitiveInfo] answers, every suggestion it
    returns has a confidence at or above the threshold, is of a type that
    was asked for and that the detector knows (email, phone or ssn), and
    lies on page 1; there is at most one suggestion per type, so at most
    three.  The average confidence returned with them is that of all the
    candidates of the types asked for, below the threshold or not: it is
    the same whatever the threshold. *)
Theorem autoDetect_suggestions
    sessionId detectionTypes threshold w suggested average w' :
  autoDetectSensitiveInfo sessionId detectionTypes threshold w
    = (inr (suggested, average), w') ->
  Forall (fun s =>
            (threshold <=? s_confidence s)%float = true
            /\ s_type s ∈ detectionTypes
            /\ s_type s ∈ ["email"; "phone"; "ssn"]
            /\ s_pageNumber s = 1) suggested
  /\ NoDup (map s_type suggested)
  /\ (length suggested <= 3)%nat
  /\ forall threshold',
       snd <$> (match fst (autoDetectSensitiveInfo sessionId detectionTypes
                             threshold' w) with
                | inr r => Some r
                | inl _ => None
                end)
       = Some average.
Proof.
  rewrite autoDetectSensitiveInfo_eq.
  destruct (NodeCache.get (now w) sessionId (sessionCache w)) as [[sd|] data] eqn:Hg;
    [|discriminate].
  intros [= <- <- <-].
  destruct (candidates_distinct detectionTypes) as [Hnd Hlen].
  repeat split.
  - apply Forall_forall. intros s Hs. apply list_elem_of_filter in Hs as [Hc Hs].
    split; [exact Hc|]. apply candidates_sound, Hs.
  - apply NoDup_map_filter, Hnd.
  - etransitivity; [apply length_filter|exact Hlen].
  - intros threshold'. rewrite autoDetectSensitiveInfo_eq, Hg. reflexivity.
Qed.

Lemma autoDetect_suggestions_witness :
  Forall (fun s => (0.8 <=? s_confidence s)%float = true)
    [email_suggestion; ssn_suggestion].
Proof.
  destruct (autoDetect_suggestions Example.session_id ["ssn"; "pii"; "email"] 0.8
              Example.prepared [email_suggestion; ssn_suggestion]
              (average_confidence [email_suggestion; ssn_suggestion])
              Example.prepared) as (H & _).
  - vm_compute. reflexivity.
  - eapply Forall_impl; [exact H|]. intros s Hs. apply Hs.
Defined.

(** ** Statistics *)

(** The number of rectangles of [redactions] on page [p]. *)
Lemma count_redaction_lookup redactions : forall (m : gmap Z Z) (a : float) (p : Z),
  (fold_left count_redaction redactions (m, a)).1 !! p
  = match length (filter (fun r => Redaction.pageNumber r = p) redactions) with
    | O => m !! p
    | S n => Some (default 0 (m !! p) + Z.of_nat (S n))
    end.
Proof.
  induction redactions as [|r rest IH]; intros m a p; [reflexivity|].
  cbn [fold_left]. unfold count_redaction at 2. cbn [fst snd].
  rewrite IH. rewrite filter_cons.
  destruct (decide (Redaction.pageNumber r = p)) as [->|Hne].
  - cbn [length]. rewrite lookup_insert_eq. cbn [default].
    destruct (length (filter _ rest)); f_equal; unfold id; lia.
  - rewrite lookup_insert_ne by exact Hne. reflexivity.
Qed.

Lemma sum_counts_insert (m : gmap Z Z) (p v : Z) :
  sum_counts (<[p := v]> m) = v - default 0 (m !! p) + sum_counts m.
Proof.
  unfold sum_counts.
  destruct (m !! p) as [old|] eqn:Hp; cbn [default].
  - assert (Hm : map_fold (fun (_ : Z) c acc => c + acc) 0 m
                 = old + map_fold (fun (_ : Z) c acc => c + acc) 0 (delete p m)).
    { rewrite <- (map_fold_insert_L (fun (_ : Z) c acc => c + acc) 0 p old
                    (delete p m)); [|intros; lia|apply lookup_delete_eq].
      rewrite insert_delete_id by exact Hp. reflexivity. }
    rewrite Hm, <- (insert_delete_eq m p v).
    rewrite map_fold_insert_L; [|intros; lia|apply lookup_delete_eq].
    unfold id. lia.
  - rewrite map_fold_insert_L; [|intros; lia|exact Hp]. lia.
Qed.

Lemma count_redaction_sum redactions : forall (m : gmap Z Z) (a : float),
  sum_counts (fold_left count_redaction redactions (m, a)).1
  = sum_counts m + Z.of_nat (length redactions).
Proof.
  induction redactions as [|r rest IH]; intros m a.
  - simpl. lia.
  - cbn [fold_left]. unfold count_redaction at 2. cbn [fst snd].
    rewrite IH, sum_counts_insert. cbn [length]. lia.
Qed.

(** X8.  [getRedactionStatistics] counts every rectangle once:
    [totalRedactions] is the length of the list;
    [redactionsByPage] has a property for a page exactly when some
    rectangle is on it, and its value is the number of rectangles on that
    page; the counts of all pages add up to [totalRedactions]; and for the
    empty list the area and the average are [0], not the quotient of zero
    by zero. *)
Theorem statistics_count_every_rectangle (redactions : list Redaction.t) (p : Z) :
  let stats := getRedactionStatistics redactions in
  totalRedactions stats = length redactions
  /\ redactionsByPage stats !! p
     = match length (filter (fun r => Redaction.pageNumber r = p) redactions) with
       | O => None
       | S n => Some (Z.of_nat (S n))
       end
  /\ sum_counts (redactionsByPage stats) = Z.of_nat (length redactions)
  /\ (redactions = [] ->
      averageRedactionSize stats = 0%float /\ totalRedactedArea stats = 0%float).
Proof.
  intros stats. subst stats. unfold getRedactionStatistics. cbn [totalRedactions
    redactionsByPage averageRedactionSize totalRedactedArea].
  split; [reflexivity|split; [|split; [|intros ->; split; reflexivity]]].
  - rewrite count_redaction_lookup. rewrite lookup_empty. cbn [default].
    destruct (length (filter _ redactions)); [reflexivity|]. f_equal.
  - rewrite count_redaction_sum. reflexivity.
Qed.

Lemma statistics_count_every_rectangle_witness :
  averageRedactionSize (getRedactionStatistics []) = 0%float.
Proof.
  exact (proj1 (proj2 (proj2 (proj2
    (statistics_count_every_rectangle [] 1))) eq_refl)).
Defined.

(** ** What is drawn *)

Section Drawn.

Variable rt : Runtime.

Lemma page_grown_refl page : page_grown page page.
Proof.
  repeat split. exists []. split; [symmetry; apply app_nil_r|constructor].
Qed.

Lemma page_grown_trans p0 p1 p2 :
  page_grown p0 p1 -> page_grown p1 p2 -> page_grown p0 p2.
Proof.
  intros (Hw1 & Hh1 & a1 & Hd1 & Ho1) (Hw2 & Hh2 & a2 & Hd2 & Ho2).
  repeat split; try congruence.
  exists (a1 ++ a2). split.
  - rewrite Hd2, Hd1, app_assoc. reflexivity.
  - apply Forall_app. split; assumption.
Qed.

Lemma drawn_count_insert (doc : PDFDocument) (i : nat) page page' :
  doc !! i = Some page ->
  drawn_count (<[i := page']> doc)
  = (drawn_count doc + length (drawn page') - length (drawn page))%nat.
Proof.
  unfold drawn_count. revert i.
  induction doc as [|p doc IH]; intros [|i] H; simpl in *; try discriminate.
  - injection H as ->. rewrite !length_app. lia.
  - rewrite !length_app, (IH _ H).
    assert (length (drawn page) <= length (concat (map drawn doc)))%nat; [|lia].
    clear IH. revert i H. induction doc as [|q doc IHd]; intros [|i] H;
      simpl in *; try discriminate.
    + injection H as ->. rewrite length_app. lia.
    + rewrite length_app. specialize (IHd _ H). lia.
Qed.

Lemma redact_one_grows doc redaction oc doc' :
  redact_one rt doc redaction oc = inr doc' ->
  Forall2 page_grown doc doc'
  /\ drawn_count doc' = S (drawn_count doc).
Proof.
  unfold redact_one.
  destruct (array_get doc _) as [page|] eqn:Hp; [|discriminate].
  apply array_get_Some in Hp as [Hp _].
  destruct (color_of rt oc) as [e|c]; [discriminate|].
  intros [= <-]. split.
  - apply Forall2_same_length_lookup. split; [rewrite length_insert; reflexivity|].
    intros i p0 p1 H0 H1.
    destruct (decide (i = Z.to_nat (Redaction.pageNumber redaction - 1))) as [->|Hne].
    + rewrite list_lookup_insert_eq in H1 by (eapply lookup_lt_Some, Hp).
      injection H1 as <-. rewrite Hp in H0. injection H0 as <-.
      repeat split. eexists. split; [reflexivity|]. repeat constructor.
    + rewrite list_lookup_insert_ne in H1 by congruence.
      rewrite H0 in H1. injection H1 as <-. apply page_grown_refl.
  - rewrite (drawn_count_insert _ _ _ _ Hp). simpl. rewrite length_app. simpl. lia.
Qed.

Lemma redact_all_grows redactions oc : forall doc doc',
  redact_all rt doc redactions oc = inr doc' ->
  Forall2 page_grown doc doc'
  /\ drawn_count doc' = (drawn_count doc + length redactions)%nat.
Proof.
  induction redactions as [|r rest IH]; intros doc doc'; simpl.
  - intros [= <-]. split; [|lia].
    apply Forall2_same_length_lookup. split; [reflexivity|].
    intros i p0 p1 H0 H1. rewrite H0 in H1. injection H1 as <-.
    apply page_grown_refl.
  - destruct (redact_one rt doc r oc) as [e|doc1] eqn:H1; [discriminate|].
    intros H. apply redact_one_grows in H1 as [Hg1 Hc1].
    apply IH in H as [Hg Hc]. split; [|lia].
    apply Forall2_same_length_lookup. split.
    + rewrite (Forall2_length _ _ _ Hg1). apply (Forall2_length _ _ _ Hg).
    + intros i p0 p2 H0 H2.
      destruct (Forall2_lookup_l _ _ _ _ _ Hg1 H0) as (p1 & Hp1 & Hg01).
      destruct (Forall2_lookup_l _ _ _ _ _ Hg Hp1) as (p2' & Hp2 & Hg12).
      rewrite H2 in Hp2. injection Hp2 as <-.
      eapply page_grown_trans; eassumption.
Qed.

End Drawn.

(** X9.  What a resolved [applyRedactions] returns is the encoding of the
    stored document with rectangles added and nothing else changed: the
    same pages in the same order, each with its width and height, each
    keeping what was drawn on it before the rectangles added to it, every
    added rectangle fully opaque, and one rectangle added per element of
    the list. *)
Theorem apply_only_adds_opaque_rectangles
    (rt : Runtime) sessionId redactions oc w r w' :
  applyRedactions rt sessionId redactions oc w = (inr r, w') ->
  exists sessionData doc0 doc,
    stored sessionId w = Some sessionData
    /\ PDFDocument_load rt (Session.pdfBuffer sessionData) = inr doc0
    /\ redactedPdfBase64 r = toString_base64 (PDFDocument_save rt doc)
    /\ Forall2 page_grown doc0 doc
    /\ drawn_count doc = (drawn_count doc0 + length redactions)%nat.
Proof.
  intros H.
  apply applyRedactions_resolved in H
    as (e & doc0 & doc & He & _ & Hl & Hr & Hb & _).
  apply redact_all_grows in Hr as [Hg Hc].
  exists (NodeCache.v e), doc0, doc. unfold stored. rewrite He.
  repeat split; assumption.
Qed.

Lemma apply_only_adds_opaque_rectangles_witness :
  exists doc0 doc,
    PDFDocument_load Example.runtime (Session.pdfBuffer Example.session_data)
      = inr doc0
    /\ drawn_count doc = (drawn_count doc0 + 2)%nat.
Proof.
  destruct (apply_only_adds_opaque_rectangles Example.runtime Example.session_id
              [Example.inside; Example.too_wide] None Example.prepared
              (Applied "Ag==" 1 1 0)
              (snd (applyRedactions Example.runtime Example.session_id
                      [Example.inside; Example.too_wide] None Example.prepared)))
    as (sd & doc0 & doc & Hs & Hl & _ & _ & Hc).
  - vm_compute. reflexivity.
  - vm_compute in Hs. injection Hs as <-.
    exists doc0, doc. split; assumption.
Defined.

(** ** Multipart sessions as the routes drive them *)

Section Sessions.

Context {S : Type} (h : handler S).

Lemma omap_app_nil {A B} (f : A -> option B) (l1 l2 : list A) :
  omap f l2 = [] -> omap f (l1 ++ l2) = omap f l1.
Proof. intros H. rewrite omap_app, H. apply app_nil_r. Qed.

(** X10.  On a platform other than gcp, aws and azure the three entry points
    of the multipart protocol reject with "Unsupported platform: <name>"
    without sending anything, in any environment; so does a whole session,
    which stops at its first step. *)
Theorem unsupported_platform_sends_nothing
    platform bucket key (ct : option string) uploadId n buffer parts chunks s :
  platform <> "gcp" -> platform <> "aws" -> platform <> "azure" ->
  let failure : error := Error ("Unsupported platform: " +:+ platform) in
  run h (FileService.initiateMultipartUpload platform bucket key ct) s
    = (inl failure, s)
  /\ run h (FileService.uploadPart platform bucket key uploadId n buffer) s
     = (inl failure, s)
  /\ run h (FileService.completeMultipartUpload platform bucket key uploadId parts) s
     = (inl failure, s)
  /\ run h (multipart_session platform bucket key ct chunks) s = (inl failure, s)
  /\ calls h (FileService.initiateMultipartUpload platform bucket key ct) s = []
  /\ calls h (FileService.uploadPart platform bucket key uploadId n buffer) s = []
  /\ calls h (FileService.completeMultipartUpload platform bucket key uploadId parts) s
     = []
  /\ calls h (multipart_session platform bucket key ct chunks) s = [].
Proof.
  intros Hg Ha Hz failure.
  apply String.eqb_neq in Hg, Ha, Hz.
  unfold multipart_session. rewrite run_bind, calls_bind.
  unfold FileService.initiateMultipartUpload, FileService.uploadPart,
    FileService.completeMultipartUpload.
  rewrite Hg, Ha, Hz. simpl. repeat split; reflexivity.
Qed.

(** The parts that [upload_parts] collects on Provider C, and what it
    stages on the way. *)
Lemma upload_parts_azure bucket key uploadId chunks :
  (forall s, fst (h _ getAzureBlob s) = inr tt) ->
  (forall c b id body n s, fst (h _ (Az_stageBlock c b id body n) s) = inr tt) ->
  forall n s,
    let p := upload_parts "azure" bucket key uploadId n chunks in
    fst (run h p s)
      = inr (map (fun i => {| partNumber := i; etag := FileService.blockId_of i |})
               (seqZ n (Z.of_nat (length chunks))))
    /\ omap staged_block (calls h p s)
       = zip (map FileService.blockId_of (seqZ n (Z.of_nat (length chunks)))) chunks
    /\ omap committed_block_ids (calls h p s) = [].
Proof.
  intros Hc Hs. induction chunks as [|chunk rest IH]; intros n s p; subst p.
  - repeat split.
  - cbn [upload_parts]. rewrite run_bind, calls_bind.
    unfold FileService.uploadPart at 1 2 3 4 5. simpl String.eqb. cbv iota.
    rewrite run_rethrow, calls_rethrow.
    unfold FileService.uploadAzureBlock, await, mbind, sdk_mbind. simpl.
    pose proof (Hc s) as Hc1. destruct (h _ getAzureBlob s) as [[e|[]] s1];
      simpl in Hc1; [discriminate|]. simpl.
    pose proof (Hs bucket key (FileService.blockId_of n) chunk (length chunk) s1) as Hs1.
    destruct (h _ (Az_stageBlock _ _ _ _ _) s1) as [[e|[]] s2];
      simpl in Hs1; [discriminate|]. simpl.
    fold (@mbind sdk _). 
    change (sdk_bind ?f ?q) with (q ≫= f).
    rewrite run_bind, calls_bind.
    destruct (IH (n + 1) s2) as (Hr & Hst & Hcm).
    destruct (run h (upload_parts _ _ _ _ _ rest) s2) as [[e|parts] s3];
      simpl in Hr; [discriminate|]. injection Hr as ->.
    simpl. rewrite !app_nil_r.
    change (list_omap _ _ staged_block ?l) with (omap staged_block l).
    change (list_omap _ _ committed_block_ids ?l) with (omap committed_block_ids l).
    rewrite Hst, Hcm.
    replace (Z.of_nat (Datatypes.S (length rest)))
      with (Z.succ (Z.of_nat (length rest))) by lia.
    rewrite (seqZ_cons n (Z.succ _)) by lia. rewrite Z.pred_succ.
    replace (Z.succ n) with (n + 1) by lia.
    repeat split.
Qed.

(** X11.  A Provider-C session as the routes drive it, in an environment
    where the client is available and staging succeeds.  The chunks are
    staged one by one, the i-th (from 1) under [blockId_of i] with its own
    bytes, and the one commit request lists exactly the staged identifiers
    in the order of the chunks. *)
Theorem azure_session_commits_what_it_staged
    bucket key (ct : option string) (chunks : list Buffer) s :
  (forall s, fst (h _ getAzureBlob s) = inr tt) ->
  (forall c b id body n s, fst (h _ (Az_stageBlock c b id body n) s) = inr tt) ->
  let sent := calls h (multipart_session "azure" bucket key ct chunks) s in
  let ids := map FileService.blockId_of (seqZ 1 (Z.of_nat (length chunks))) in
  omap staged_block sent = zip ids chunks
  /\ omap committed_block_ids sent = [ids].
Proof.
  intros Hc Hs sent ids. subst sent ids.
  unfold multipart_session. rewrite calls_bind.
  unfold FileService.initiateMultipartUpload at 1 2. simpl String.eqb. cbv iota.
  rewrite calls_rethrow, run_rethrow.
  unfold FileService.initiateAzureBlockUpload, perform, mbind, sdk_mbind. simpl.
  destruct (h _ Date_now s) as [now s1]. simpl.
  destruct (h _ Math_random_base36 s1) as [rnd s2]. simpl.
  change (sdk_bind ?f ?q) with (q ≫= f).
  rewrite calls_bind.
  destruct (upload_parts_azure bucket key
              ("azure_" +:+ toString now +:+ "_" +:+ substr 2 9 rnd) chunks
              Hc Hs 1 s2) as (Hr & Hst & Hcm).
  destruct (run h (upload_parts _ _ _ _ _ chunks) s2) as [[e|parts] s3];
    simpl in Hr; [discriminate|]. injection Hr as ->.
  pose proof (Hc s3) as Hc3.
  destruct (h _ getAzureBlob s3) as [r s4] eqn:Hg. simpl in Hc3. subst r.
  rewrite (complete_azure_calls _ _ _ _ _ _ _ Hg).
  rewrite !omap_app, Hst, Hcm. simpl. rewrite app_nil_r.
  split; [reflexivity|]. rewrite map_map. reflexivity.
Qed.

(** X12.  Provider B.  cloudService.js hands out a client whose operations
    go through [send]; the adapters call [s3.createMultipartUpload],
    [s3.uploadPart] and [s3.completeMultipartUpload] on it.  So, in any
    environment, each entry point of the multipart protocol asks for the
    client and sends nothing to S3: with the client available it rejects
    with the [TypeError] of the missing method, and without it with the
    error of the getter.  A whole session ends at its first step. *)
Theorem aws_multipart_never_reaches_s3
    bucket key (ct : option string) uploadId n buffer parts chunks s :
  let initiate := FileService.initiateMultipartUpload "aws" bucket key ct in
  let upload := FileService.uploadPart "aws" bucket key uploadId n buffer in
  let complete := FileService.completeMultipartUpload "aws" bucket key uploadId parts in
  let session := multipart_session "aws" bucket key ct chunks in
  (calls h initiate s = [req getAWSS3]
   /\ calls h upload s = [req getAWSS3]
   /\ calls h complete s = [req getAWSS3]
   /\ calls h session s = [req getAWSS3])
  /\ (forall s1, h _ getAWSS3 s = (inr tt, s1) ->
        run h initiate s
          = (inl (TypeError "s3.createMultipartUpload is not a function"), s1)
        /\ run h upload s
           = (inl (TypeError "s3.uploadPart is not a function"), s1)
        /\ run h complete s
           = (inl (TypeError "s3.completeMultipartUpload is not a function"), s1)
        /\ run h session s
           = (inl (TypeError "s3.createMultipartUpload is not a function"), s1))
  /\ (forall e s1, h _ getAWSS3 s = (inl e, s1) ->
        run h initiate s = (inl e, s1) /\ run h upload s = (inl e, s1)
        /\ run h complete s = (inl e, s1) /\ run h session s = (inl e, s1)).
Proof.
  intros initiate upload complete session.
  subst initiate upload complete session.
  unfold multipart_session. rewrite calls_bind, run_bind.
  unfold FileService.initiateMultipartUpload, FileService.uploadPart,
    FileService.completeMultipartUpload.
  simpl String.eqb. cbv iota.
  rewrite !calls_rethrow, !run_rethrow.
  unfold FileService.initiateAWSMultipartUpload, FileService.uploadAWSPart,
    FileService.completeAWSMultipartUpload, await, mbind, sdk_mbind.
  change (@FileService.s3_method ?A ?name ?call)
    with (@Throw A (TypeError ("s3." +:+ name +:+ " is not a function"))).
  simpl.
  destruct (h _ getAWSS3 s) as [[e|[]] s1]; simpl.
  - split; [repeat split|]. split; [discriminate|].
    intros e' s1' [= <- <-]. repeat split.
  - split; [repeat split|]. split; [|discriminate].
    intros s1' [= <-]. repeat split.
Qed.


End Sessions.

Lemma unsupported_platform_sends_nothing_witness :
  run Cloud.handle (multipart_session "ftp" "docs" "a.bin" None [[1%N]]) Cloud.empty
  = (inl (Error "Unsupported platform: ftp"), Cloud.empty).
Proof.
  apply (unsupported_platform_sends_nothing Cloud.handle "ftp" "docs" "a.bin" None
           "" 1 [] [] [[1%N]] Cloud.empty); discriminate.
Defined.

Lemma azure_session_commits_what_it_staged_witness :
  omap committed_block_ids
    (calls Cloud.handle
       (multipart_session "azure" "docs" "a.bin" None [[72; 105]; [33]]%N)
       Cloud.empty)
  = [["MDAwMDAx"; "MDAwMDAy"]].
Proof.
  apply (azure_session_commits_what_it_staged Cloud.handle "docs" "a.bin" None
           [[72; 105]; [33]]%N Cloud.empty); reflexivity.
Defined.

Lemma aws_multipart_never_reaches_s3_witness :
  run Cloud.handle
    (multipart_session "aws" "docs" "a.bin" None [[72; 105]; [33]]%N) Cloud.empty
  = (inl (TypeError "s3.createMultipartUpload is not a function"), Cloud.empty).
Proof.
  destruct (aws_multipart_never_reaches_s3 Cloud.handle "docs" "a.bin" None
              "upload-1" 1 [72%N] [] [[72; 105]; [33]]%N Cloud.empty)
    as (_ & H & _).
  apply (H Cloud.empty). reflexivity.
Defined.


(** ** Listings *)

Section Listings.

Context {S : Type} (h : handler S).
Variable mime_lookup : string -> option string.




End Listings.

(** ** File names *)

Section FileNames.

Lemma squeeze_all_chars p : forall s b,
  all_chars p s = true -> all_chars p (squeeze_underscores b s) = true.
Proof.
  induction s as [|c r IH]; intros b; simpl; [reflexivity|].
  intros H. apply andb_true_iff in H as [Hc Hr].
  destruct (Ascii.eqb c underscore); [destruct b|]; simpl;
    rewrite ?Hc; simpl; apply IH, Hr.
Qed.

Lemma squeeze_no_double : forall s b,
  no_double_underscore (squeeze_underscores b s) = true
  /\ (b = true -> starts_with_underscore (squeeze_underscores b s) = false).
Proof.
  induction s as [|c r IH]; intros b; simpl; [split; reflexivity|].
  destruct (Ascii.eqb c underscore) eqn:E.
  - destruct b; [apply IH|]. simpl. rewrite E. simpl.
    destruct (IH true) as [H1 H2]. rewrite H1, H2 by reflexivity.
    split; [reflexivity|discriminate].
  - simpl. rewrite E. simpl. destruct (IH false) as [H1 _]. rewrite H1.
    split; reflexivity.
Qed.

Lemma strip_leading_all_chars p : forall s,
  all_chars p s = true -> all_chars p (strip_leading s) = true.
Proof.
  induction s as [|c r IH]; simpl; [reflexivity|]. intros H.
  destruct (Ascii.eqb c underscore); [|exact H].
  apply andb_true_iff in H as [_ Hr]. apply IH, Hr.
Qed.

Lemma strip_leading_no_double : forall s,
  no_double_underscore s = true -> no_double_underscore (strip_leading s) = true.
Proof.
  induction s as [|c r IH]; simpl; [reflexivity|]. intros H.
  destruct (Ascii.eqb c underscore) eqn:E.
  - apply andb_true_iff in H as [_ Hr]. apply IH, Hr.
  - simpl. rewrite E. exact H.
Qed.

Lemma strip_leading_start : forall s,
  starts_with_underscore (strip_leading s) = false.
Proof.
  induction s as [|c r IH]; simpl; [reflexivity|].
  destruct (Ascii.eqb c underscore) eqn:E; [exact IH|]. simpl. exact E.
Qed.

Lemma strip_trailing_all_chars p : forall s,
  all_chars p s = true -> all_chars p (strip_trailing s) = true.
Proof.
  induction s as [|c r IH]; simpl; [reflexivity|]. intros H.
  apply andb_true_iff in H as [Hc Hr].
  destruct (Ascii.eqb c underscore && String.eqb (strip_trailing r) "");
    [reflexivity|]. simpl. rewrite Hc. apply IH, Hr.
Qed.

Lemma strip_trailing_start : forall s,
  starts_with_underscore (strip_trailing s) = true ->
  starts_with_underscore s = true.
Proof.
  destruct s as [|c r]; simpl; [discriminate|].
  destruct (Ascii.eqb c underscore && String.eqb (strip_trailing r) "");
    simpl; [discriminate|]. exact (fun H => H).
Qed.

Lemma strip_trailing_no_double : forall s,
  no_double_underscore s = true -> no_double_underscore (strip_trailing s) = true.
Proof.
  induction s as [|c r IH]; simpl; [reflexivity|]. intros H.
  apply andb_true_iff in H as [Hc Hr].
  destruct (Ascii.eqb c underscore && String.eqb (strip_trailing r) "") eqn:E;
    [reflexivity|]. simpl. rewrite (IH Hr), andb_true_r.
  destruct (Ascii.eqb c underscore); [|reflexivity]. simpl in *.
  destruct (starts_with_underscore (strip_trailing r)) eqn:Hs; [|reflexivity].
  apply strip_trailing_start in Hs. rewrite Hs in Hc. discriminate.
Qed.

Lemma strip_trailing_end : forall s,
  ends_with_underscore (strip_trailing s) = false.
Proof.
  induction s as [|c r IH]; simpl; [reflexivity|].
  destruct (Ascii.eqb c underscore) eqn:E; simpl.
  - destruct (strip_trailing r) as [|d r'] eqn:Hr; simpl; [reflexivity|].
    exact IH.
  - destruct (strip_trailing r) as [|d r'] eqn:Hr; simpl; [exact E|].
    exact IH.
Qed.

Lemma underscore_plain : plain_char underscore = true.
Proof. reflexivity. Qed.

Lemma replace_invalid_valid : forall s,
  all_chars (fun c => negb (invalid_char c)) (replace_invalid s) = true.
Proof.
  induction s as [|c r IH]; simpl; [reflexivity|]. rewrite IH, andb_true_r.
  destruct (invalid_char c) eqn:E; [reflexivity|]. rewrite E. reflexivity.
Qed.

Lemma replace_spaces_plain : forall s b,
  all_chars (fun c => negb (invalid_char c)) s = true ->
  all_chars plain_char (replace_spaces b s) = true.
Proof.
  induction s as [|c r IH]; intros b; simpl; [reflexivity|]. intros H.
  apply andb_true_iff in H as [Hc Hr].
  destruct (is_space c) eqn:E; [destruct b|]; simpl.
  - apply IH, Hr.
  - apply IH, Hr.
  - unfold plain_char at 1. rewrite Hc, E. simpl. apply IH, Hr.
Qed.

Lemma sanitize_well_formed name : well_formed_name (sanitize name) = true.
Proof.
  unfold well_formed_name, sanitize.
  set (s3 := squeeze_underscores false (replace_spaces false (replace_invalid name))).
  assert (H3 : all_chars plain_char s3 = true).
  { apply squeeze_all_chars, replace_spaces_plain, replace_invalid_valid. }
  assert (N3 : no_double_underscore s3 = true) by apply squeeze_no_double.
  rewrite strip_trailing_all_chars by (apply strip_leading_all_chars, H3).
  rewrite strip_trailing_no_double by (apply strip_leading_no_double, N3).
  rewrite strip_trailing_end. simpl.
  destruct (starts_with_underscore (strip_trailing (strip_leading s3))) eqn:E;
    [|reflexivity].
  apply strip_trailing_start in E. rewrite strip_leading_start in E. discriminate.
Qed.

Lemma replace_invalid_id : forall s,
  all_chars plain_char s = true -> replace_invalid s = s.
Proof.
  induction s as [|c r IH]; simpl; [reflexivity|]. intros H.
  apply andb_true_iff in H as [Hc Hr]. rewrite (IH Hr).
  unfold plain_char in Hc. destruct (invalid_char c); [discriminate|reflexivity].
Qed.

Lemma replace_spaces_id : forall s b,
  all_chars plain_char s = true -> replace_spaces b s = s.
Proof.
  induction s as [|c r IH]; intros b; simpl; [reflexivity|]. intros H.
  apply andb_true_iff in H as [Hc Hr]. unfold plain_char in Hc.
  destruct (is_space c); [rewrite andb_false_r in Hc; discriminate|].
  rewrite (IH false Hr). reflexivity.
Qed.

Lemma squeeze_id : forall s b,
  no_double_underscore s = true ->
  (b = true -> starts_with_underscore s = false) ->
  squeeze_underscores b s = s.
Proof.
  induction s as [|c r IH]; intros b; simpl; [reflexivity|]. intros H Hb.
  apply andb_true_iff in H as [Hc Hr].
  destruct (Ascii.eqb c underscore) eqn:E.
  - destruct b; [specialize (Hb eq_refl); discriminate|].
    rewrite (IH true Hr); [reflexivity|]. intros _.
    simpl in Hc. destruct (starts_with_underscore r); [discriminate|reflexivity].
  - rewrite (IH false Hr); [reflexivity|discriminate].
Qed.

Lemma strip_leading_id s :
  starts_with_underscore s = false -> strip_leading s = s.
Proof. destruct s as [|c r]; simpl; [reflexivity|]. intros ->. reflexivity. Qed.

Lemma strip_trailing_id : forall s,
  ends_with_underscore s = false -> strip_trailing s = s.
Proof.
  induction s as [|c r IH]; simpl; [reflexivity|]. intros H.
  destruct r as [|d r'].
  - simpl. rewrite H. reflexivity.
  - rewrite (IH H). simpl. rewrite andb_false_r. reflexivity.
Qed.

Lemma sanitize_id s : well_formed_name s = true -> sanitize s = s.
Proof.
  unfold well_formed_name. intros H.
  apply andb_true_iff in H as [H He]. apply andb_true_iff in H as [H Hs].
  apply andb_true_iff in H as [Hp Hn].
  apply negb_true_iff in He, Hs.
  unfold sanitize.
  rewrite (replace_invalid_id _ Hp), (replace_spaces_id _ _ Hp).
  rewrite (squeeze_id _ _ Hn) by discriminate.
  rewrite (strip_leading_id _ Hs). apply strip_trailing_id, He.
Qed.

Lemma replace_invalid_length s :
  String.length (replace_invalid s) = String.length s.
Proof. induction s as [|c r IH]; simpl; [reflexivity|]. rewrite IH. reflexivity. Qed.

Lemma replace_spaces_length : forall s b,
  (String.length (replace_spaces b s) <= String.length s)%nat.
Proof.
  induction s as [|c r IH]; intros b; simpl; [lia|].
  destruct (is_space c); [destruct b|]; simpl;
    pose proof (IH true); pose proof (IH false); lia.
Qed.

Lemma squeeze_length : forall s b,
  (String.length (squeeze_underscores b s) <= String.length s)%nat.
Proof.
  induction s as [|c r IH]; intros b; simpl; [lia|].
  destruct (Ascii.eqb c underscore); [destruct b|]; simpl;
    pose proof (IH true); pose proof (IH false); lia.
Qed.

Lemma strip_leading_length : forall s,
  (String.length (strip_leading s) <= String.length s)%nat.
Proof.
  induction s as [|c r IH]; simpl; [lia|].
  destruct (Ascii.eqb c underscore); simpl; lia.
Qed.

Lemma strip_trailing_length : forall s,
  (String.length (strip_trailing s) <= String.length s)%nat.
Proof.
  induction s as [|c r IH]; simpl; [lia|].
  destruct (Ascii.eqb c underscore && String.eqb (strip_trailing r) "");
    simpl; lia.
Qed.

Lemma sanitize_length s : (String.length (sanitize s) <= String.length s)%nat.
Proof.
  unfold sanitize.
  etransitivity; [apply strip_trailing_length|].
  etransitivity; [apply strip_leading_length|].
  etransitivity; [apply squeeze_length|].
  etransitivity; [apply replace_spaces_length|].
  rewrite replace_invalid_length. lia.
Qed.

Lemma validateFileName_inv name out :
  validateFileName name = inr out ->
  out = sanitize name /\ out <> "" /\ (String.length out <= 255)%nat.
Proof.
  unfold validateFileName.
  destruct (String.eqb (sanitize name) "") eqn:E; [discriminate|].
  destruct (255 <? String.length (sanitize name))%nat eqn:L; [discriminate|].
  intros [= <-]. apply String.eqb_neq in E. apply Nat.ltb_ge in L. auto.
Qed.

Lemma validateFileName_fixed name :
  well_formed_name name = true -> name <> "" ->
  (String.length name <= 255)%nat ->
  validateFileName name = inr name.
Proof.
  intros Hw Hne Hl. unfold validateFileName. rewrite (sanitize_id _ Hw).
  apply String.eqb_neq in Hne. rewrite Hne.
  apply Nat.ltb_ge in Hl. rewrite Hl. reflexivity.
Qed.

(** X15.  A name that [validateFileName] returns is not empty, has at most
    255 characters and no more than the name given, contains none of the
    characters < > : / \ | ? * or the double quote and no white space, has
    no two underscores in a row, and neither starts nor ends with an
    underscore; validating it again returns it unchanged. *)
Theorem validateFileName_returns_clean_name name out :
  validateFileName name = inr out ->
  out <> ""
  /\ (String.length out <= 255)%nat
  /\ (String.length out <= String.length name)%nat
  /\ all_chars (fun c => negb (invalid_char c) && negb (is_space c)) out = true
  /\ no_double_underscore out = true
  /\ starts_with_underscore out = false
  /\ ends_with_underscore out = false
  /\ validateFileName out = inr out.
Proof.
  intros H. apply validateFileName_inv in H as (-> & Hne & Hl).
  pose proof (sanitize_well_formed name) as Hw.
  pose proof Hw as Hw'. unfold well_formed_name in Hw'.
  apply andb_true_iff in Hw' as [Hw' He]. apply andb_true_iff in Hw' as [Hw' Hs].
  apply andb_true_iff in Hw' as [Hp Hn].
  apply negb_true_iff in He, Hs.
  repeat split; try assumption.
  - apply sanitize_length.
  - apply validateFileName_fixed; assumption.
Qed.

(** X16.  A name that is already clean (no character of the class, no
    white space, no underscore at either end or doubled), not empty and
    of at most 255 characters is returned as it is, and these are the
    only names returned as they are. *)
Theorem validateFileName_keeps_clean_names name :
  validateFileName name = inr name
  <-> well_formed_name name = true /\ name <> ""
      /\ (String.length name <= 255)%nat.
Proof.
  split.
  - intros H. apply validateFileName_inv in H as (Hs & Hne & Hl).
    split; [|split; assumption]. rewrite Hs. apply sanitize_well_formed.
  - intros (Hw & Hne & Hl). apply validateFileName_fixed; assumption.
Qed.

Lemma junk_replace_invalid : forall s,
  all_chars (fun c => is_space c || Ascii.eqb c underscore) (replace_invalid s)
  = all_chars junk_char s.
Proof.
  induction s as [|c r IH]; simpl; [reflexivity|]. rewrite IH. f_equal.
  unfold junk_char. destruct (invalid_char c); reflexivity.
Qed.

Lemma junk_replace_spaces : forall s b,
  all_chars (fun c => Ascii.eqb c underscore) (replace_spaces b s)
  = all_chars (fun c => is_space c || Ascii.eqb c underscore) s.
Proof.
  induction s as [|c r IH]; intros b; simpl; [reflexivity|].
  destruct (is_space c); [destruct b|]; simpl; rewrite IH; reflexivity.
Qed.

Lemma junk_squeeze : forall s b,
  all_chars (fun c => Ascii.eqb c underscore) (squeeze_underscores b s)
  = all_chars (fun c => Ascii.eqb c underscore) s.
Proof.
  induction s as [|c r IH]; intros b; simpl; [reflexivity|].
  destruct (Ascii.eqb c underscore) eqn:E; [destruct b|]; simpl;
    rewrite ?E, IH; reflexivity.
Qed.

Lemma junk_strip_leading : forall s,
  String.eqb (strip_leading s) ""
  = all_chars (fun c => Ascii.eqb c underscore) s.
Proof.
  induction s as [|c r IH]; simpl; [reflexivity|].
  destruct (Ascii.eqb c underscore); [exact IH|reflexivity].
Qed.

Lemma junk_strip_trailing s :
  String.eqb (strip_trailing (strip_leading s)) "" = String.eqb (strip_leading s) "".
Proof.
  pose proof (strip_leading_start s) as H.
  destruct (strip_leading s) as [|c r]; [reflexivity|].
  simpl in *. rewrite H. reflexivity.
Qed.

Lemma sanitize_empty name :
  String.eqb (sanitize name) "" = all_chars junk_char name.
Proof.
  unfold sanitize.
  rewrite junk_strip_trailing, junk_strip_leading, junk_squeeze,
    junk_replace_spaces. apply junk_replace_invalid.
Qed.

(** X17.  When [validateFileName] throws.  It throws "File name cannot be
    empty" exactly for the names made only of characters of the class,
    white space and underscores (the empty name among them); the only
    other error is "File name too long (max 255 characters)", and only
    names of more than 255 characters get it. *)
Theorem validateFileName_errors name :
  (validateFileName name = inl (Error "File name cannot be empty")
   <-> all_chars junk_char name = true)
  /\ forall e, validateFileName name = inl e ->
       e = Error "File name cannot be empty"
       \/ (e = Error "File name too long (max 255 characters)"
           /\ (255 < String.length name)%nat).
Proof.
  unfold validateFileName. rewrite sanitize_empty.
  destruct (all_chars junk_char name).
  - split; [split; reflexivity|]. intros e [= <-]. left. reflexivity.
  - destruct (255 <? String.length (sanitize name))%nat eqn:L.
    + split; [split; discriminate|]. intros e [= <-]. right.
      split; [reflexivity|]. apply Nat.ltb_lt in L.
      pose proof (sanitize_length name). lia.
    + split; [split; discriminate|]. discriminate.
Qed.

End FileNames.

Lemma validateFileName_keeps_clean_names_witness :
  validateFileName "a_b.pdf" = inr "a_b.pdf".
Proof.
  apply (validateFileName_keeps_clean_names "a_b.pdf").
  split; [reflexivity|]. split; [discriminate|]. simpl. lia.
Defined.

Lemma validateFileName_errors_witness :
  validateFileName " _?_ " = inl (Error "File name cannot be empty").
Proof. apply (validateFileName_errors " _?_ "). reflexivity. Defined.


Lemma validateFileName_returns_clean_name_witness :
  validateFileName "  my report: final??.pdf " = inr "my_report_final_.pdf"
  /\ validateFileName "my_report_final_.pdf" = inr "my_report_final_.pdf".
Proof.
  split; [reflexivity|].
  apply (validateFileName_returns_clean_name "  my report: final??.pdf "
           "my_report_final_.pdf"). reflexivity.
Defined.

(** ** Colours *)

Lemma string_of_length_six (h : string) :
  String.length h = 6%nat ->
  exists a b c d e f,
    h = String a (String b (String c (String d (String e (String f ""))))).
Proof.
  destruct h as [|a [|b [|c [|d [|e [|f [|g r]]]]]]]; try discriminate.
  intros _. repeat eexists.
Qed.

(** X18.  The colour option of a redaction.  For six characters [h] free of
    '#', the option "#h" and the option "h" give the same colour, and so
    does "h" followed by anything: only the first six characters after
    the first '#' is removed are read.  An absent or empty option is
    "#000000". *)
Theorem parseColor_reads_six_digits
    (rt : Runtime) (h t : string) pdfDoc redaction (w : world) :
  String.length h = 6%nat ->
  all_chars (fun c => negb (Ascii.eqb "#" c)) h = true ->
  parseColor rt ("#" +:+ h) w = parseColor rt h w
  /\ parseColor rt ("#" +:+ h +:+ t) w = parseColor rt h w
  /\ parseColor rt (h +:+ t) w = parseColor rt h w
  /\ applyRedactionToPage rt pdfDoc redaction (Some ("#" +:+ h +:+ t)) w
     = applyRedactionToPage rt pdfDoc redaction (Some h) w
  /\ applyRedactionToPage rt pdfDoc redaction None w
     = applyRedactionToPage rt pdfDoc redaction (Some "#000000") w
  /\ applyRedactionToPage rt pdfDoc redaction (Some "") w
     = applyRedactionToPage rt pdfDoc redaction (Some "#000000") w.
Proof.
  intros Hl Hc.
  destruct (string_of_length_six h Hl) as (a & b & c & d & e & f & ->).
  cbn [all_chars] in Hc.
  repeat (apply andb_true_iff in Hc as [?%negb_true_iff Hc]).
  assert (Hf : forall rest,
    parseColor rt (String a (String b (String c (String d (String e (String f rest))))))
    = parseColor rt (String a (String b (String c (String d (String e (String f ""))))))).
  { intros rest. unfold parseColor, substr. cbn [remove_first].
    repeat match goal with H : Ascii.eqb _ _ = false |- _ => rewrite H; clear H end.
    cbn [drop_string take_string]. reflexivity. }
  assert (Hh : forall rest,
    parseColor rt ("#" +:+ String a (String b (String c (String d (String e (String f rest))))))
    = parseColor rt (String a (String b (String c (String d (String e (String f ""))))))).
  { intros rest. unfold parseColor, substr. cbn [remove_first String.append].
    change (Ascii.eqb "#" "#") with true. cbv iota.
    repeat match goal with H : Ascii.eqb _ _ = false |- _ => rewrite H; clear H end.
    cbn [drop_string take_string]. reflexivity. }
  split; [rewrite <- (Hh ""); reflexivity|].
  split; [rewrite <- (Hh t); reflexivity|].
  split; [rewrite <- (Hf t); reflexivity|].
  split; [|split; reflexivity].
  assert (Hh' :
    parseColor rt
      (String "#" (String a (String b (String c (String d (String e (String f t)))))))
    = parseColor rt (String a (String b (String c (String d (String e (String f "")))))))
    by exact (Hh t).
  change ("#" +:+ String a (String b (String c (String d (String e (String f "")))))
          +:+ t)
    with (String "#" (String a (String b (String c (String d (String e (String f t))))))).
  unfold applyRedactionToPage, or_else, truthy. cbv beta iota.
  rewrite Hh'. reflexivity.
Qed.

Lemma parseColor_reads_six_digits_witness :
  parseColor Example.runtime "#ff0000;" Example.fresh
  = parseColor Example.runtime "ff0000" Example.fresh.
Proof.
  apply (parseColor_reads_six_digits Example.runtime "ff0000" ";" 0%nat
           Example.inside Example.fresh); reflexivity.
Defined.

(** ** Block identifiers *)

Section BlockIds.

Local Ltac divmod := zify; Z.to_euclidean_division_equations; lia.

Lemma base64_digit_value (k : N) :
  (k < 64)%N ->
  base64_value (base64_digit k) = k /\ Ascii.eqb (base64_digit k) "=" = false.
Proof.
  intros Hk.
  assert (H : forallb (fun i =>
                (base64_value (base64_digit (N.of_nat i)) =? N.of_nat i)%N
                && negb (Ascii.eqb (base64_digit (N.of_nat i)) "="))
              (seq 0 64) = true) by (vm_compute; reflexivity).
  rewrite forallb_forall in H.
  specialize (H (N.to_nat k)). rewrite N2Nat.id in H.
  assert (Hin : In (N.to_nat k) (seq 0 64)) by (apply in_seq; lia).
  apply H in Hin. apply andb_true_iff in Hin as [H1 H2].
  apply N.eqb_eq in H1. apply negb_true_iff in H2. auto.
Qed.

Lemma group_of_three (x y z : N) :
  (x < 256)%N -> (y < 256)%N -> (z < 256)%N ->
  let n := (x * 65536 + y * 256 + z)%N in
  (n / 262144 < 64)%N
  /\ (n / 262144 * 262144 + (n / 4096) mod 64 * 4096
      + (n / 64) mod 64 * 64 + n mod 64 = n)%N
  /\ (n / 65536 = x)%N /\ ((n / 256) mod 256 = y)%N /\ (n mod 256 = z)%N.
Proof. intros Hx Hy Hz n. subst n. repeat split; divmod. Qed.

Lemma group_of_two (x y : N) :
  (x < 256)%N -> (y < 256)%N ->
  let n := (x * 65536 + y * 256)%N in
  let m := (n / 262144 * 262144 + (n / 4096) mod 64 * 4096
            + (n / 64) mod 64 * 64)%N in
  (n / 262144 < 64)%N /\ (m / 65536 = x)%N /\ ((m / 256) mod 256 = y)%N.
Proof. intros Hx Hy n m. subst n m. repeat split; divmod. Qed.

Lemma group_of_one (x : N) :
  (x < 256)%N ->
  let n := (x * 65536)%N in
  let m := (n / 262144 * 262144 + (n / 4096) mod 64 * 4096)%N in
  (n / 262144 < 64)%N /\ (m / 65536 = x)%N.
Proof. intros Hx n m. subst n m. repeat split; divmod. Qed.

Lemma mod_64 (n : N) : (n mod 64 < 64)%N.
Proof. divmod. Qed.

Lemma list_ind_by_three {A} (P : list A -> Prop) :
  P [] -> (forall x, P [x]) -> (forall x y, P [x; y]) ->
  (forall x y z l, P l -> P (x :: y :: z :: l)) ->
  forall l, P l.
Proof.
  intros H0 H1 H2 H3 l.
  assert (H : P l /\ (forall x, P (x :: l)) /\ (forall x y, P (x :: y :: l))).
  { induction l as [|a l (IH0 & IH1 & IH2)]; [auto|].
    split; [apply IH1|]. split; [intros x; apply IH2|].
    intros x y. apply H3, IH0. }
  apply H.
Qed.

(** The octets are read back from their encoding. *)
Lemma base64_bytes_toString (b : Buffer) :
  Forall (fun x => (x < 256)%N) b -> base64_bytes (toString_base64 b) = b.
Proof.
  induction b as [|x|x y|x y z rest IH] using list_ind_by_three; intros Hb.
  - reflexivity.
  - apply Forall_cons in Hb as [Hx _].
    destruct (group_of_one x Hx) as (H1 & Hm).
    cbn [toString_base64 base64_bytes].
    change (Ascii.eqb "=" "=") with true. cbv iota.
    rewrite (proj1 (base64_digit_value _ H1)).
    rewrite (proj1 (base64_digit_value _ (mod_64 _))).
    cbv zeta. f_equal. exact Hm.
  - apply Forall_cons in Hb as [Hx Hb]. apply Forall_cons in Hb as [Hy _].
    destruct (group_of_two x y Hx Hy) as (H1 & Hm1 & Hm2).
    cbn [toString_base64 base64_bytes].
    rewrite (proj2 (base64_digit_value _ (mod_64 _))).
    change (Ascii.eqb "=" "=") with true. cbv iota.
    rewrite (proj1 (base64_digit_value _ H1)).
    rewrite !(proj1 (base64_digit_value _ (mod_64 _))).
    cbv zeta. f_equal; [exact Hm1|]. f_equal. exact Hm2.
  - apply Forall_cons in Hb as [Hx Hb]. apply Forall_cons in Hb as [Hy Hb].
    apply Forall_cons in Hb as [Hz Hb].
    destruct (group_of_three x y z Hx Hy Hz) as (H1 & Hn & Hx' & Hy' & Hz').
    cbn [toString_base64 base64_bytes].
    rewrite !(proj2 (base64_digit_value _ (mod_64 _))).
    rewrite (proj1 (base64_digit_value _ H1)).
    rewrite !(proj1 (base64_digit_value _ (mod_64 _))).
    cbv zeta. rewrite Hn, Hx', Hy', Hz', (IH Hb). reflexivity.
Qed.

Lemma Buffer_from_octets s : Forall (fun x => (x < 256)%N) (Buffer_from s).
Proof.
  induction s as [|c r IH]; simpl; constructor; [apply N_ascii_bounded|exact IH].
Qed.

Lemma Buffer_from_inj : forall s1 s2, Buffer_from s1 = Buffer_from s2 -> s1 = s2.
Proof.
  induction s1 as [|c r IH]; intros [|d r']; simpl; try discriminate;
    [reflexivity|].
  intros [= Hc Hr]. f_equal; [|apply IH, Hr].
  rewrite <- (ascii_N_embedding c), <- (ascii_N_embedding d), Hc. reflexivity.
Qed.

Lemma pretty_N_char_value (d : N) :
  (d < 10)%N -> (N_of_ascii (pretty_N_char d) - 48 = d)%N.
Proof.
  intros Hd.
  assert (H : forallb (fun i =>
                (N_of_ascii (pretty_N_char (N.of_nat i)) - 48 =? N.of_nat i)%N)
              (seq 0 10) = true) by (vm_compute; reflexivity).
  rewrite forallb_forall in H.
  specialize (H (N.to_nat d)). rewrite N2Nat.id in H.
  apply N.eqb_eq, H, in_seq. lia.
Qed.

Lemma decimal_value_go (k : nat) : forall (x : N) (s : string),
  (x < 10 ^ N.of_nat k)%N ->
  decimal_value (pretty_N_go x s)
  = (x * 10 ^ N.of_nat (String.length s) + decimal_value s)%N.
Proof.
  induction k as [|k IH]; intros x s Hx.
  - assert (x = 0%N) as -> by (simpl in Hx; lia).
    rewrite pretty_N_go_0. lia.
  - destruct (decide (x = 0%N)) as [->|Hne].
    + rewrite pretty_N_go_0. lia.
    + rewrite pretty_N_go_step by lia.
      rewrite IH.
      2: { rewrite Nat2N.inj_succ, N.pow_succ_r' in Hx.
           apply N.Div0.div_lt_upper_bound. lia. }
      cbn [decimal_value String.length].
      rewrite pretty_N_char_value by (apply N.mod_lt; lia).
      rewrite Nat2N.inj_succ, N.pow_succ_r'.
      pose proof (N.Div0.div_mod x 10) as Hd.
      set (p := (10 ^ N.of_nat (String.length s))%N) in *.
      set (q := (x / 10)%N) in *. set (r := (x mod 10)%N) in *.
      rewrite Hd. lia.
Qed.

Lemma decimal_value_zeros s : forall k,
  decimal_value (take_cyclic k "0" "" +:+ s) = decimal_value s.
Proof.
  induction k as [|k IH]; [reflexivity|].
  change (take_cyclic (Datatypes.S k) "0" "" +:+ s)
    with (String "0" (take_cyclic k "0" "" +:+ s)).
  cbn [decimal_value]. rewrite IH.
  change (N_of_ascii "0" - 48)%N with 0%N. lia.
Qed.

Lemma decimal_value_padStart s :
  decimal_value (padStart 6 "0" s) = decimal_value s.
Proof.
  unfold padStart. destruct (6 <=? String.length s)%nat; [reflexivity|].
  destruct (6 - String.length s)%nat as [|k]; [reflexivity|].
  change (take_cyclic (Datatypes.S k) "0" "0" +:+ s)
    with (String "0" (take_cyclic k "0" "" +:+ s)).
  cbn [decimal_value]. rewrite decimal_value_zeros.
  change (N_of_ascii "0" - 48)%N with 0%N. lia.
Qed.

Lemma decimal_value_toString (n : Z) :
  0 <= n <= MAX_SAFE_INTEGER -> decimal_value (toString n) = Z.to_N n.
Proof.
  intros Hn. rewrite toString_safe by lia. unfold pretty, pretty_Z.
  destruct n as [|p|p]; [reflexivity| |lia].
  unfold pretty, pretty_positive, pretty, pretty_N.
  destruct (decide (N.pos p = 0%N)); [discriminate|].
  rewrite (decimal_value_go (N.to_nat (N.pos p))).
  - simpl. lia.
  - rewrite N2Nat.id. apply N.pow_gt_lin_r. lia.
Qed.

Lemma string_of_bytes_Buffer_from s : string_of_bytes (Buffer_from s) = s.
Proof.
  induction s as [|c r IH]; simpl; [reflexivity|].
  rewrite ascii_N_embedding, IH. reflexivity.
Qed.

(** A block identifier spells its part number. *)
Lemma part_number_of_blockId (n : Z) :
  0 <= n <= MAX_SAFE_INTEGER ->
  part_number_of_block (FileService.blockId_of n) = n.
Proof.
  intros Hn. unfold part_number_of_block, FileService.blockId_of.
  rewrite base64_bytes_toString by apply Buffer_from_octets.
  rewrite string_of_bytes_Buffer_from, decimal_value_padStart,
    decimal_value_toString by exact Hn.
  lia.
Qed.

Lemma all_chars_app p (a b : string) :
  all_chars p (a +:+ b) = all_chars p a && all_chars p b.
Proof.
  induction a as [|c a IH]; simpl; [reflexivity|].
  rewrite IH, andb_assoc. reflexivity.
Qed.

Lemma pretty_N_go_digits (k : nat) : forall (x : N) (s : string),
  (x < 10 ^ N.of_nat k)%N ->
  all_chars decimal_digit s = true ->
  all_chars decimal_digit (pretty_N_go x s) = true.
Proof.
  induction k as [|k IH]; intros x s Hx Hs.
  - assert (x = 0%N) as -> by (simpl in Hx; lia).
    rewrite pretty_N_go_0. exact Hs.
  - destruct (decide (x = 0%N)) as [->|Hne].
    + rewrite pretty_N_go_0. exact Hs.
    + rewrite pretty_N_go_step by lia. apply IH.
      * rewrite Nat2N.inj_succ, N.pow_succ_r' in Hx.
        apply N.Div0.div_lt_upper_bound. lia.
      * cbn [all_chars]. rewrite Hs, andb_true_r.
        unfold pretty_N_char. repeat case_match; reflexivity.
Qed.

Lemma toString_digits (n : Z) :
  0 <= n <= MAX_SAFE_INTEGER -> all_chars decimal_digit (toString n) = true.
Proof.
  intros Hn. rewrite toString_safe by lia. unfold pretty, pretty_Z.
  destruct n as [|p|p]; [reflexivity| |lia].
  unfold pretty, pretty_positive, pretty, pretty_N.
  destruct (decide (N.pos p = 0%N)); [discriminate|].
  apply (pretty_N_go_digits (N.to_nat (N.pos p))); [|reflexivity].
  rewrite N2Nat.id. apply N.pow_gt_lin_r. lia.
Qed.

Lemma take_cyclic_zeros : forall k rest,
  all_chars decimal_digit rest = true ->
  all_chars decimal_digit (take_cyclic k "0" rest) = true.
Proof.
  induction k as [|k IH]; intros rest Hr; [reflexivity|].
  destruct rest as [|c r]; cbn [take_cyclic all_chars].
  - rewrite (IH "" eq_refl). reflexivity.
  - cbn [all_chars] in Hr. apply andb_true_iff in Hr as [Hc Hr].
    rewrite Hc, (IH r Hr). reflexivity.
Qed.

Lemma padStart_digits s :
  all_chars decimal_digit s = true ->
  all_chars decimal_digit (padStart 6 "0" s) = true.
Proof.
  intros Hs. unfold padStart. destruct (6 <=? String.length s)%nat; [exact Hs|].
  rewrite all_chars_app, Hs, andb_true_r. apply take_cyclic_zeros. reflexivity.
Qed.

Lemma decimal_value_lt : forall s,
  all_chars decimal_digit s = true ->
  (decimal_value s < 10 ^ N.of_nat (String.length s))%N.
Proof.
  induction s as [|c r IH]; intros H; [simpl; lia|].
  cbn [all_chars] in H. apply andb_true_iff in H as [Hc Hr].
  specialize (IH Hr). cbn [decimal_value String.length].
  rewrite Nat2N.inj_succ, N.pow_succ_r'.
  unfold decimal_digit in Hc. apply andb_true_iff in Hc as [H1 H2].
  apply N.leb_le in H1, H2.
  set (p := (10 ^ N.of_nat (String.length r))%N) in *.
  set (d := N_of_ascii c) in *. nia.
Qed.

Lemma toString_long (n : Z) :
  1000000 <= n <= MAX_SAFE_INTEGER -> (7 <= String.length (toString n))%nat.
Proof.
  intros Hn.
  assert (Hs : 0 <= n <= MAX_SAFE_INTEGER) by lia.
  pose proof (decimal_value_lt _ (toString_digits n Hs)) as Hlt.
  rewrite (decimal_value_toString n Hs) in Hlt.
  destruct (le_lt_dec 7 (String.length (toString n))) as [|Hshort]; [assumption|].
  exfalso.
  assert (Hp : (10 ^ N.of_nat (String.length (toString n)) <= 10 ^ 6)%N).
  { apply N.pow_le_mono_r; lia. }
  change (10 ^ 6)%N with 1000000%N in Hp. lia.
Qed.

Lemma toString_base64_long (b : Buffer) :
  (7 <= length b)%nat -> (12 <= String.length (toString_base64 b))%nat.
Proof.
  intros H.
  do 7 (destruct b as [|? b]; [simpl in H; lia|]).
  cbn [toString_base64 String.length].
  destruct b as [|? [|? ?]]; cbn [toString_base64 String.length]; lia.
Qed.

(** X19.  Block identifiers tell the parts apart: two different part
    numbers from 0 up to [MAX_SAFE_INTEGER] (the integers that a number
    holds exactly) never get the same identifier. *)
Theorem blockId_of_tells_parts_apart (a b : Z) :
  0 <= a <= MAX_SAFE_INTEGER -> 0 <= b <= MAX_SAFE_INTEGER -> a <> b ->
  FileService.blockId_of a <> FileService.blockId_of b.
Proof.
  intros Ha Hb Hne Heq. apply Hne.
  rewrite <- (part_number_of_blockId a Ha), <- (part_number_of_blockId b Hb), Heq.
  reflexivity.
Qed.

End BlockIds.

Lemma blockId_of_tells_parts_apart_witness :
  FileService.blockId_of 1 <> FileService.blockId_of 10.
Proof.
  apply (blockId_of_tells_parts_apart 1 10); unfold MAX_SAFE_INTEGER; lia.
Defined.

(** ** Provider C: tokens and order at completion *)

Section BlockStaging.

Context {S : Type} (h : handler S).

(** C5 (amended).  For Provider C, [uploadPart] stages the bytes under an
    identifier that depends on the part number alone and resolves with
    that same identifier.  The identifier is the base64 form of the
    decimal part number, padded with zeros to six digits when it has
    fewer.  For the part numbers up to [MAX_SAFE_INTEGER] it spells the
    part number back; below one million it is the encoding of exactly six
    digits and has eight characters; from one million on nothing is
    padded and it has twelve characters or more, so the width is fixed
    only below one million.  [complete] commits exactly the tokens of the
    caller's parts, in the caller's order, whatever their part numbers. *)
Theorem azure_block_ids_are_the_tokens
    bucket key uploadId (n : Z) (buffer : Buffer) (parts : list part) s s1 s2 :
  h _ getAzureBlob s = (inr tt, s1) ->
  h _ (Az_stageBlock bucket key (FileService.blockId_of n) buffer (length buffer)) s1
    = (inr tt, s2) ->
  calls h (FileService.uploadPart "azure" bucket key uploadId n buffer) s
    = [ req getAzureBlob;
        req (Az_stageBlock bucket key (FileService.blockId_of n) buffer
               (length buffer)) ]
  /\ run h (FileService.uploadPart "azure" bucket key uploadId n buffer) s
     = (inr (FileService.blockId_of n), s2)
  /\ (0 <= n <= MAX_SAFE_INTEGER ->
      part_number_of_block (FileService.blockId_of n) = n)
  /\ (0 <= n < 1000000 ->
      String.length (FileService.blockId_of n) = 8%nat
      /\ exists digits,
           String.length digits = 6%nat
           /\ all_chars decimal_digit digits = true
           /\ decimal_value digits = Z.to_N n
           /\ base64_bytes (FileService.blockId_of n) = Buffer_from digits)
  /\ (1000000 <= n <= MAX_SAFE_INTEGER ->
      (12 <= String.length (FileService.blockId_of n))%nat
      /\ base64_bytes (FileService.blockId_of n) = Buffer_from (toString n))
  /\ omap committed_block_ids
       (calls h (FileService.completeMultipartUpload "azure" bucket key uploadId parts) s)
     = [map etag parts].
Proof.
  intros Hc Hs.
  split; [|split; [|split; [|split; [|split]]]].
  - unfold FileService.uploadPart. rewrite calls_rethrow. simpl.
    rewrite Hc. simpl. rewrite Hs. reflexivity.
  - unfold FileService.uploadPart. rewrite run_rethrow. simpl.
    rewrite Hc. simpl. rewrite Hs. reflexivity.
  - apply part_number_of_blockId.
  - intros Hn.
    assert (Hsafe : 0 <= n <= MAX_SAFE_INTEGER) by (unfold MAX_SAFE_INTEGER; lia).
    assert (Hw : String.length (padStart 6 "0" (toString n)) = 6%nat).
    { apply padStart_length, toString_length_bound, Hn. }
    split.
    + apply toString_base64_six. rewrite Buffer_from_length. exact Hw.
    + exists (padStart 6 "0" (toString n)). split; [exact Hw|]. split.
      * apply padStart_digits, toString_digits, Hsafe.
      * split.
        -- rewrite decimal_value_padStart. apply decimal_value_toString, Hsafe.
        -- apply base64_bytes_toString, Buffer_from_octets.
  - intros Hn. pose proof (toString_long n Hn) as Hlong.
    assert (Hpad : padStart 6 "0" (toString n) = toString n).
    { unfold padStart.
      destruct (6 <=? String.length (toString n))%nat eqn:E; [reflexivity|].
      apply Nat.leb_gt in E. lia. }
    unfold FileService.blockId_of. rewrite Hpad. split.
    + apply toString_base64_long. rewrite Buffer_from_length. exact Hlong.
    + apply base64_bytes_toString, Buffer_from_octets.
  - rewrite (complete_azure_calls h _ _ _ _ _ _ Hc). reflexivity.
Qed.

(** C3 (amended).  For Provider C, completion hands the provider the
    caller's tokens in exactly the order of the caller's list: one commit
    request is issued and its identifiers are the tokens of the list, in
    list order.  When the tokens are those that [uploadPart] gave for the
    part numbers, the part numbers that the committed identifiers spell
    are the caller's, in the caller's order: they are ascending exactly
    when the caller's list is. *)
Theorem complete_keeps_caller_order bucket key uploadId parts s sC :
  h _ getAzureBlob s = (inr tt, sC) ->
  let sent :=
    calls h (FileService.completeMultipartUpload "azure" bucket key uploadId parts) s in
  omap committed_block_ids sent = [map etag parts]
  /\ (Forall (fun part =>
                etag part = FileService.blockId_of (partNumber part)
                /\ 0 <= partNumber part <= MAX_SAFE_INTEGER) parts ->
      forall ids, ids ∈ omap committed_block_ids sent ->
        map part_number_of_block ids = map partNumber parts
        /\ ascending (map part_number_of_block ids)
           = ascending (map partNumber parts)).
Proof.
  intros HC sent. subst sent.
  rewrite (complete_azure_calls h _ _ _ _ _ _ HC). simpl.
  split; [reflexivity|].
  intros Hparts ids Hin. apply list_elem_of_singleton in Hin. subst ids.
  assert (Hmap : map part_number_of_block (map etag parts) = map partNumber parts).
  { rewrite map_map. apply map_ext_Forall.
    eapply Forall_impl; [exact Hparts|].
    intros part [-> Hn]. apply part_number_of_blockId, Hn. }
  rewrite Hmap. split; reflexivity.
Qed.

End BlockStaging.

Lemma azure_block_ids_are_the_tokens_witness :
  run Cloud.handle (FileService.uploadPart "azure" "docs" "big.bin" "azure_1" 7 [65]%N)
      Cloud.empty
  = (inr "MDAwMDA3",
     {| Cloud.clock := Cloud.clock Cloud.empty; Cloud.gcs := [];
        Cloud.azure_staged := [("docs", "big.bin", "MDAwMDA3", [65]%N)];
        Cloud.azure_blobs := [] |})
  /\ part_number_of_block "MDAwMDA3" = 7
  /\ omap committed_block_ids
       (calls Cloud.handle
          (FileService.completeMultipartUpload "azure" "docs" "big.bin" "azure_1"
             [ {| partNumber := 2; etag := "MDAwMDA3" |};
               {| partNumber := 1; etag := "any token" |} ])
          Cloud.empty)
     = [["MDAwMDA3"; "any token"]].
Proof.
  destruct (azure_block_ids_are_the_tokens Cloud.handle "docs" "big.bin" "azure_1"
              7 [65]%N
              [ {| partNumber := 2; etag := "MDAwMDA3" |};
                {| partNumber := 1; etag := "any token" |} ]
              Cloud.empty Cloud.empty
              {| Cloud.clock := Cloud.clock Cloud.empty; Cloud.gcs := [];
                 Cloud.azure_staged := [("docs", "big.bin", "MDAwMDA3", [65]%N)];
                 Cloud.azure_blobs := [] |} eq_refl eq_refl)
    as (_ & Hrun & Hspell & _ & _ & Hcommit).
  split; [exact Hrun|]. split; [|exact Hcommit].
  apply Hspell. unfold MAX_SAFE_INTEGER. lia.
Defined.

(** C5 as stated fails: the identifier is not of fixed width.  The route
    takes any positive integer as part number; part 999999 is padded to
    six digits and gets eight characters, part 1000000 is not padded and
    gets twelve. *)
Lemma block_ids_are_not_fixed_width :
  padStart 6 "0" (toString 999999) = "999999"
  /\ FileService.blockId_of 999999 = "OTk5OTk5"
  /\ padStart 6 "0" (toString 1000000) = "1000000"
  /\ FileService.blockId_of 1000000 = "MTAwMDAwMA=="
  /\ String.length (FileService.blockId_of 999999)
     <> String.length (FileService.blockId_of 1000000).
Proof. vm_compute. repeat split; discriminate. Qed.

(** Past [MAX_SAFE_INTEGER] the part number is printed as the number it
    is read as: 1e21 in exponent form, padded to "01e+21". *)
Lemma blockId_of_exponent_form :
  toString (10 ^ 21) = "1e+21"
  /\ FileService.blockId_of (10 ^ 21) = "MDFlKzIx"
  /\ toString (2 ^ 53 + 1) = "9007199254740992"
  /\ toString (2 ^ 64) = "18446744073709552000".
Proof. vm_compute. repeat split; reflexivity. Qed.

Lemma complete_keeps_caller_order_witness :
  let parts := [ {| partNumber := 1; etag := FileService.blockId_of 1 |};
                 {| partNumber := 2; etag := FileService.blockId_of 2 |} ] in
  map part_number_of_block
    [FileService.blockId_of 1; FileService.blockId_of 2] = [1; 2].
Proof.
  intros parts.
  destruct (complete_keeps_caller_order Cloud.handle "docs" "big.bin" "azure_1"
              parts Cloud.empty Cloud.empty eq_refl) as [Hsent Horder].
  apply Horder.
  - repeat constructor; unfold MAX_SAFE_INTEGER; simpl; lia.
  - rewrite Hsent. apply list_elem_of_singleton. reflexivity.
Defined.

(** C3 as stated fails: a caller that lists part 2 before part 1 has
    Provider C receive the block of part 2 before that of part 1, and the
    committed blob then holds the second chunk first. *)
Lemma shuffled_parts_are_sent_shuffled :
  let parts := [ {| partNumber := 2; etag := FileService.blockId_of 2 |};
                 {| partNumber := 1; etag := FileService.blockId_of 1 |} ] in
  let staged :=
    snd (run Cloud.handle
           (upload_parts "azure" "docs" "big.bin" "azure_1" 1 [[65]; [66]]%N)
           Cloud.empty) in
  omap committed_block_ids
    (calls Cloud.handle
       (FileService.completeMultipartUpload "azure" "docs" "big.bin" "azure_1" parts)
       staged)
  = [[FileService.blockId_of 2; FileService.blockId_of 1]]
  /\ map part_number_of_block
       [FileService.blockId_of 2; FileService.blockId_of 1] = [2; 1]
  /\ ascending [2; 1] = false
  /\ Cloud.assoc ("docs", "big.bin")
       (Cloud.azure_blobs
          (snd (run Cloud.handle
                  (FileService.completeMultipartUpload "azure" "docs" "big.bin"
                     "azure_1" parts)
                  staged)))
     = Some [66; 65]%N.
Proof. vm_compute. repeat split; reflexivity. Qed.

(** ** Calls in flight on one session: the store *)

Section StoreInterleaving.

Variable rt : Runtime.
Variable sessionId : string.
Variable initial : Session.t.
Variable c1 c2 : call.

Lemma applyRedactionToPage_cache pdfDoc redaction oc w :
  sessionCache (snd (applyRedactionToPage rt pdfDoc redaction oc w))
  = sessionCache w.
Proof.
  unfold applyRedactionToPage, try_catchM, mbind, M_bind, getPages, throw,
    parseColor, drawRectangle.
  destruct (heap w !! pdfDoc) as [doc|]; [|reflexivity].
  destruct (array_get doc _) as [page|]; [|reflexivity].
  destruct (rgb rt _ _ _) as [e|color]; reflexivity.
Qed.

Lemma with_redactions_known sessionData rs redactedAt :
  known initial c1 c2 sessionData ->
  with_redactions sessionData rs redactedAt
  = with_redactions initial rs redactedAt.
Proof.
  intros [->|[[t ->]|[t ->]]]; reflexivity.
Qed.

Lemma loop_known c startTime sessionData pdfDoc rest w t' w' :
  known initial c1 c2 sessionData ->
  loop rt c startTime sessionData pdfDoc rest w = (t', w') ->
  sessionCache w' = sessionCache w
  /\ task_known initial c1 c2 c t'
  /\ is_resolved t' = false.
Proof.
  intros Hk. unfold loop. destruct rest as [|r rest'].
  - intros [= <- <-]. simpl. auto.
  - pose proof (applyRedactionToPage_cache pdfDoc r (call_color c) w) as Hc.
    destruct (applyRedactionToPage rt pdfDoc r (call_color c) w) as [[e|[]] w1];
      intros [= <- <-]; simpl in *; auto.
Qed.

(** One resumption of a call: what it can leave in the store. *)
Lemma step_known c t w t' w' :
  call_sessionId c = sessionId ->
  (c = c1 \/ c = c2) ->
  task_known initial c1 c2 c t ->
  (forall sd, stored sessionId w = Some sd -> known initial c1 c2 sd) ->
  step rt t w = (t', w') ->
  task_known initial c1 c2 c t'
  /\ (forall sd, stored sessionId w' = Some sd ->
        stored sessionId w = Some sd \/ written initial c1 c2 sd)
  /\ (is_resolved t' = true ->
      is_resolved t = true
      \/ forall sd, stored sessionId w' = Some sd -> written initial c1 c2 sd).
Proof.
  intros Hsid Hc Ht Hw.
  destruct t as [c0|c0 st sd|c0 st sd pdfDoc rest|c0 st sd pdfDoc|r|e];
    simpl in Ht; simpl step.
  - subst c0. unfold mbind, M_bind, Date_now_M, sessionCache_get, NodeCache.get,
      mret, M_ret. rewrite Hsid.
    destruct (sessionCache w !! sessionId) as [e|] eqn:He.
    + destruct (NodeCache.check (now w) e) eqn:Hck; intros [= <- <-]; simpl.
      * split; [|split; [auto|discriminate]].
        split; [reflexivity|]. apply Hw. unfold stored. rewrite He. reflexivity.
      * split; [exact I|]. split; [|discriminate].
        intros sd. unfold stored. simpl. rewrite lookup_delete_eq. discriminate.
    + intros [= <- <-]; simpl. split; [exact I|]. split; [auto|discriminate].
  - destruct Ht as [-> Hk]. unfold load.
    destruct (PDFDocument_load rt (Session.pdfBuffer sd)) as [e|doc0].
    + intros [= <- <-]; simpl. split; [exact I|]. split; [auto|discriminate].
    + intros Hloop. apply (loop_known _ _ _ _ _ _ _ _ Hk) in Hloop
        as (Hcache & Htk & Hres).
      split; [exact Htk|]. split; [|rewrite Hres; discriminate].
      intros sd'. unfold stored. rewrite Hcache. simpl. auto.
  - destruct Ht as [-> Hk]. intros Hloop.
    apply (loop_known _ _ _ _ _ _ _ _ Hk) in Hloop as (Hcache & Htk & Hres).
    split; [exact Htk|]. split; [|rewrite Hres; discriminate].
    intros sd'. unfold stored. rewrite Hcache. auto.
  - destruct Ht as [-> Hk]. unfold mbind, M_bind, save.
    destruct (heap w !! pdfDoc) as [doc|].
    + unfold finish, mbind, M_bind, Date_now_M, sessionCache_set, mret, M_ret.
      simpl. intros [= <- <-]. simpl.
      assert (Hnew : forall sd', stored sessionId
                 {| now := now w;
                    sessionCache :=
                      NodeCache.set stdTTL (now w) (call_sessionId c)
                        (with_redactions sd (call_redactions c) (now w))
                        (sessionCache w);
                    heap := heap w |} = Some sd' ->
               written initial c1 c2 sd').
      { intros sd'. unfold stored, NodeCache.set. simpl. rewrite Hsid.
        rewrite lookup_insert_eq. simpl. intros [= <-].
        rewrite (with_redactions_known _ _ _ Hk).
        destruct Hc as [->| ->]; [left|right]; eexists; reflexivity. }
      split; [exact I|]. split; [|intros _; right; exact Hnew].
      intros sd' H. right. apply Hnew, H.
    + intros [= <- <-]. simpl. split; [exact I|]. split; [auto|discriminate].
  - intros [= <- <-]. split; [exact I|]. split; auto.
  - intros [= <- <-]. split; [exact I|]. split; [auto|discriminate].
Qed.

Lemma act_known cfg a :
  call_sessionId c1 = sessionId -> call_sessionId c2 = sessionId ->
  store_known sessionId initial c1 c2 cfg ->
  store_known sessionId initial c1 c2 (act rt cfg a).
Proof.
  intros H1 H2 (Hk & Hr & Ht1 & Ht2). destruct a as [| |ms]; unfold act.
  - destruct (step rt (first cfg) (cfg_world cfg)) as [t' w'] eqn:Hstep.
    destruct (step_known c1 _ _ _ _ H1 (or_introl eq_refl) Ht1 Hk Hstep)
      as (Ht' & Hs & Hres).
    split; [|split; [|split; assumption]]; simpl.
    + intros sd Hsd. destruct (Hs sd Hsd) as [Hold|Hnew];
        [apply Hk, Hold|right; exact Hnew].
    + intros Hor sd Hsd. apply orb_true_iff in Hor as [Hor|Hor].
      * destruct (Hres Hor) as [Hold|Hnew]; [|apply Hnew, Hsd].
        destruct (Hs sd Hsd) as [Hsd'|Hw]; [|exact Hw].
        apply Hr; [rewrite Hold; reflexivity|exact Hsd'].
      * destruct (Hs sd Hsd) as [Hsd'|Hw]; [|exact Hw].
        apply Hr; [rewrite Hor; apply orb_true_r|exact Hsd'].
  - destruct (step rt (second cfg) (cfg_world cfg)) as [t' w'] eqn:Hstep.
    destruct (step_known c2 _ _ _ _ H2 (or_intror eq_refl) Ht2 Hk Hstep)
      as (Ht' & Hs & Hres).
    split; [|split; [|split; assumption]]; simpl.
    + intros sd Hsd. destruct (Hs sd Hsd) as [Hold|Hnew];
        [apply Hk, Hold|right; exact Hnew].
    + intros Hor sd Hsd. apply orb_true_iff in Hor as [Hor|Hor].
      * destruct (Hs sd Hsd) as [Hsd'|Hw]; [|exact Hw].
        apply Hr; [rewrite Hor; reflexivity|exact Hsd'].
      * destruct (Hres Hor) as [Hold|Hnew]; [|apply Hnew, Hsd].
        destruct (Hs sd Hsd) as [Hsd'|Hw]; [|exact Hw].
        apply Hr; [rewrite Hold; apply orb_true_r|exact Hsd'].
  - split; [|split; [|split]]; simpl; assumption.
Qed.

Lemma exec_known schedule : forall cfg,
  call_sessionId c1 = sessionId -> call_sessionId c2 = sessionId ->
  store_known sessionId initial c1 c2 cfg ->
  store_known sessionId initial c1 c2 (exec rt schedule cfg).
Proof.
  induction schedule as [|a rest IH]; intros cfg H1 H2 H; simpl.
  - exact H.
  - apply IH; try assumption. apply act_known; assumption.
Qed.

End StoreInterleaving.

(** X20.  Two calls of [applyRedactions] on one session, resumed in any
    order with any delays.  Whatever the interleaving, the session object
    in the store is at every moment the initial one or the initial one
    with the whole list of one of the two calls as its redactions (and a
    redaction time): never a mixture of the two lists, and no other field
    changes.  Once one of the calls has resolved, it is the list of one of
    the calls: the call that finished last has replaced what the other
    stored. *)
Theorem concurrent_applies_last_writer_wins
    (rt : Runtime) sessionId rs1 oc1 rs2 oc2 w initial schedule :
  stored sessionId w = Some initial ->
  let c1 := {| call_sessionId := sessionId; call_redactions := rs1;
               call_color := oc1 |} in
  let c2 := {| call_sessionId := sessionId; call_redactions := rs2;
               call_color := oc2 |} in
  let final :=
    exec rt schedule {| cfg_world := w; first := Called c1; second := Called c2 |} in
  forall sessionData,
    stored sessionId (cfg_world final) = Some sessionData ->
    (sessionData = initial
     \/ (exists t, sessionData = with_redactions initial rs1 t)
     \/ (exists t, sessionData = with_redactions initial rs2 t))
    /\ same_document initial sessionData
    /\ (is_resolved (first final) || is_resolved (second final) = true ->
        (exists t, sessionData = with_redactions initial rs1 t)
        \/ (exists t, sessionData = with_redactions initial rs2 t)).
Proof.
  intros Hstored c1 c2 final sessionData Hsd.
  assert (Hinv : store_known sessionId initial c1 c2 final).
  { apply exec_known; try reflexivity.
    split; [|split; [discriminate|split; reflexivity]].
    simpl. intros sd Hsd'. left. congruence. }
  destruct Hinv as (Hk & Hr & _ & _).
  split; [exact (Hk _ Hsd)|]. split; [|intros Hres; exact (Hr Hres _ Hsd)].
  destruct (Hk _ Hsd) as [->|[[t ->]|[t ->]]]; repeat split.
Qed.

Lemma concurrent_applies_last_writer_wins_witness :
  same_document Example.session_data
    (with_redactions Example.session_data [Example.inside; Example.inside] 5).
Proof.
  apply (concurrent_applies_last_writer_wins Example.runtime Example.session_id
           [Example.inside; Example.inside] None [Example.too_wide] None
           Example.prepared Example.session_data
           [ ResumeFirst; ResumeSecond; ResumeFirst; ResumeSecond; ResumeFirst;
             ResumeSecond; ResumeFirst; Tick 5; ResumeSecond; ResumeFirst ]).
  - vm_compute. reflexivity.
  - vm_compute. reflexivity.
Defined.

(** ** Session identifiers *)

Section SessionIds.

Variable rt : Runtime.

Lemma pretty_N_go_no_underscore (k : nat) : forall (x : N) (s : string),
  (x < 10 ^ N.of_nat k)%N ->
  all_chars (fun c => negb (Ascii.eqb c underscore)) s = true ->
  all_chars (fun c => negb (Ascii.eqb c underscore)) (pretty_N_go x s) = true.
Proof.
  induction k as [|k IH]; intros x s Hx Hs.
  - assert (x = 0%N) as -> by (simpl in Hx; lia).
    rewrite pretty_N_go_0. exact Hs.
  - destruct (decide (x = 0%N)) as [->|Hne].
    + rewrite pretty_N_go_0. exact Hs.
    + rewrite pretty_N_go_step by lia. apply IH.
      * rewrite Nat2N.inj_succ, N.pow_succ_r' in Hx.
        apply N.Div0.div_lt_upper_bound. lia.
      * cbn [all_chars]. rewrite Hs, andb_true_r.
        unfold pretty_N_char. repeat case_match; reflexivity.
Qed.

Lemma toString_no_underscore (n : Z) :
  Z.abs n <= MAX_SAFE_INTEGER ->
  all_chars (fun c => negb (Ascii.eqb c underscore)) (toString n) = true.
Proof.
  intros Hn. rewrite toString_safe by exact Hn. clear Hn.
  assert (Hp : forall p,
    all_chars (fun c => negb (Ascii.eqb c underscore)) (pretty (N.pos p)) = true).
  { intros p. unfold pretty, pretty_N.
    destruct (decide (N.pos p = 0%N)); [discriminate|].
    apply (pretty_N_go_no_underscore (N.to_nat (N.pos p))); [|reflexivity].
    rewrite N2Nat.id. apply N.pow_gt_lin_r. lia. }
  unfold pretty, pretty_Z. destruct n as [|p|p].
  - reflexivity.
  - apply Hp.
  - change ("-" +:+ pretty p) with (String "-" (pretty (N.pos p))).
    cbn [all_chars]. rewrite Hp. reflexivity.
Qed.

Lemma split_at_underscore : forall d1 d2 r1 r2,
  all_chars (fun c => negb (Ascii.eqb c underscore)) d1 = true ->
  all_chars (fun c => negb (Ascii.eqb c underscore)) d2 = true ->
  d1 +:+ String underscore r1 = d2 +:+ String underscore r2 ->
  d1 = d2.
Proof.
  induction d1 as [|c d1 IH]; intros [|c' d2] r1 r2 H1 H2 H; simpl in *.
  - reflexivity.
  - injection H as Hc _. subst c'. discriminate.
  - injection H as Hc _. subst c. discriminate.
  - injection H as -> H.
    apply andb_true_iff in H1 as [_ H1]. apply andb_true_iff in H2 as [_ H2].
    f_equal. exact (IH _ _ _ H1 H2 H).
Qed.

Lemma preparePDFForRedaction_id this_platform bucketName fileName w
    sessionId pageCount pages meta w' :
  preparePDFForRedaction rt this_platform bucketName fileName w
    = (inr (sessionId, pageCount, pages, meta), w') ->
  sessionId = "redaction_" +:+ toString (now w) +:+ "_"
              +:+ substr 2 9 (Math_random_base36_at rt (now w)).
Proof.
  unfold preparePDFForRedaction, try_catchM, mbind, M_bind, generateSessionId,
    Date_now_M, throw.
  destruct (truthy this_platform) as [platform|] eqn:Hp; [|discriminate].
  destruct (downloadFile rt _ bucketName fileName) as [e|[buffer|]] eqn:Hd;
    try discriminate.
  unfold load. destruct (PDFDocument_load rt buffer) as [e|doc] eqn:Hl;
    [discriminate|].
  unfold getPages. simpl.
  destruct (heap_after_load (heap w) doc doc) as [Hlook _]. rewrite Hlook.
  unfold sessionCache_set, mret, M_ret. simpl.
  intros [= <- _ _ _ _]. reflexivity.
Qed.

End SessionIds.

(** X21.  Sessions prepared at different readings of the clock get
    different identifiers, whatever the random suffixes; so a session
    prepared later never takes the place of an earlier one: the earlier
    entry is still in the store, untouched.  The readings are time
    values, as [Date.now()] gives them. *)
Theorem later_prepare_keeps_earlier_session
    (rt : Runtime) p1 b1 f1 w id1 n1 pages1 meta1 w1
    (ms : N) p2 b2 f2 id2 n2 pages2 meta2 w2 :
  time_value (now w) -> time_value (now w + Z.of_N ms) ->
  preparePDFForRedaction rt p1 b1 f1 w = (inr (id1, n1, pages1, meta1), w1) ->
  (0 < ms)%N ->
  preparePDFForRedaction rt p2 b2 f2 (elapse ms w1)
    = (inr (id2, n2, pages2, meta2), w2) ->
  id1 <> id2
  /\ sessionCache w2 !! id1 = sessionCache w1 !! id1.
Proof.
  intros T1 T2 H1 Hms H2. unfold time_value in T1, T2.
  pose proof (preparePDFForRedaction_id rt _ _ _ _ _ _ _ _ _ H1) as E1.
  pose proof (preparePDFForRedaction_id rt _ _ _ _ _ _ _ _ _ H2) as E2.
  assert (Hnow : now (elapse ms w1) = now w + Z.of_N ms).
  { apply preparePDFForRedaction_inv in H1
      as (? & ? & ? & _ & _ & _ & _ & _ & ->). reflexivity. }
  assert (Hne : id1 <> id2).
  { intros Heq. rewrite E1, E2, Hnow in Heq.
    cbn [String.append] in Heq. injection Heq as Heq.
    apply split_at_underscore in Heq;
      try (apply toString_no_underscore; unfold MAX_SAFE_INTEGER; lia).
    rewrite !toString_safe in Heq by (unfold MAX_SAFE_INTEGER; lia).
    apply (inj pretty) in Heq. lia. }
  split; [exact Hne|].
  apply preparePDFForRedaction_inv in H2
    as (? & ? & ? & _ & _ & _ & _ & _ & ->).
  simpl. apply lookup_insert_ne. congruence.
Qed.

(** Outside the time values the readings of the clock are not all
    numbers: [2 ^ 53 + 1] is read as [2 ^ 53], and two such readings
    give one identifier. *)
Lemma readings_beyond_safe_integers_coincide :
  fst (generateSessionId Example.runtime
         {| now := 2 ^ 53; sessionCache := ∅; heap := [] |})
  = fst (generateSessionId Example.runtime
           {| now := 2 ^ 53 + 1; sessionCache := ∅; heap := [] |}).
Proof. vm_compute. reflexivity. Qed.

Lemma later_prepare_keeps_earlier_session_witness :
  sessionCache
    (snd (preparePDFForRedaction Example.runtime (Some "gcp") "docs" "report.pdf"
            (elapse 1 Example.prepared)))
    !! Example.session_id
  = sessionCache Example.prepared !! Example.session_id.
Proof.
  eapply (later_prepare_keeps_earlier_session Example.runtime
            (Some "gcp") "docs" "report.pdf" Example.fresh
            Example.session_id _ _ _ Example.prepared 1
            (Some "gcp") "docs" "report.pdf").
  - vm_compute. discriminate.
  - vm_compute. discriminate.
  - vm_compute. reflexivity.
  - reflexivity.
  - vm_compute. reflexivity.
Defined.

(** ** Whole-file upload and download *)

Section WholeFiles.

Context {S : Type} (h : Files.handler S).
Variable mime_lookup : string -> option string.

Lemma files_run_rethrow {A} (p : Files.prog A) (s : S) :
  Files.run h (Files.try_catch p (fun e => Files.Raise e)) s = Files.run h p s.
Proof.
  revert s. induction p as [a|e|X c k IH]; intros s; simpl; try reflexivity.
  destruct (h X c s) as [x s']. apply IH.
Qed.

Lemma files_calls_rethrow {A} (p : Files.prog A) (s : S) :
  Files.calls h (Files.try_catch p (fun e => Files.Raise e)) s = Files.calls h p s.
Proof.
  revert s. induction p as [a|e|X c k IH]; intros s; simpl; try reflexivity.
  destruct (h X c s) as [x s']. f_equal. apply IH.
Qed.

Lemma or_else_not_empty (o : option string) (d : string) :
  d <> "" -> or_else o d <> "".
Proof.
  intros Hd. unfold or_else, truthy.
  destruct o as [[|c r]|]; try exact Hd. discriminate.
Qed.

Lemma mime_or_default_not_empty name : Files.mime_or_default mime_lookup name <> "".
Proof. apply or_else_not_empty. discriminate. Qed.

Lemma effective_content_type (o : option string) (d : string) :
  match truthy o with Some c => Some c | None => Some d end
  = Some (or_else o d).
Proof. unfold or_else. destruct (truthy o); reflexivity. Qed.

(** X22.  [uploadFile] on any platform and in any environment.  At most one
    write request is sent; it carries the bucket, the name and the bytes
    given, and a content type that is never empty: the one given when
    there is one, else the one that [mime.lookup] finds for the name,
    else "application/octet-stream".  A call that resolves ran on
    Provider A or C, has sent that request and answers [success: true]
    with the name.  On Provider B nothing is written: the adapter calls
    [s3.upload], which the client does not have. *)
Theorem uploadFile_sends_typed_file
    platform bucketName fileName (buffer : Buffer) (contentType : option string) s :
  let p := Files.uploadFile mime_lookup platform bucketName fileName buffer contentType in
  let ct := or_else contentType (Files.mime_or_default mime_lookup fileName) in
  ct <> ""
  /\ (omap Files.sent_file (Files.calls h p s) = []
      \/ omap Files.sent_file (Files.calls h p s)
         = [(bucketName, fileName, buffer, Some ct)])
  /\ (forall r s', Files.run h p s = (inr r, s') ->
       omap Files.sent_file (Files.calls h p s)
         = [(bucketName, fileName, buffer, Some ct)]
       /\ Files.up_success r = true /\ Files.up_fileName r = Some fileName
       /\ (platform = "gcp" \/ platform = "azure"))
  /\ (platform = "aws" ->
      omap Files.sent_file (Files.calls h p s) = []
      /\ forall s1, h _ (Files.Old getAWSS3) s = (inr tt, s1) ->
           Files.run h p s = (inl (TypeError "s3.upload is not a function"), s1)).
Proof.
  intros p ct. subst p ct.
  split; [apply or_else_not_empty, mime_or_default_not_empty|].
  unfold Files.uploadFile. rewrite files_run_rethrow, files_calls_rethrow.
  cbv zeta. rewrite effective_content_type.
  destruct (String.eqb platform "gcp") eqn:Eg;
    [|destruct (String.eqb platform "aws") eqn:Ea;
      [|destruct (String.eqb platform "azure") eqn:Ez]].
  - apply String.eqb_eq in Eg. subst platform.
    unfold Files.uploadGCPFile, FileService.uploadGCPFile, await.
    unfold mbind, sdk_mbind, Files.prog_mbind. simpl.
    destruct (h _ (Files.Old getGCPStorage) s) as [[e|[]] s1]; simpl;
      [split; [left; reflexivity|split; discriminate]|].
    destruct (h _ (Files.Old (Gcs_write _ _ _ _ _)) s1) as [[e|[]] s2]; simpl.
    + split; [right; reflexivity|split; discriminate].
    + split; [right; reflexivity|]. split; [|discriminate].
      intros r s' [= <- <-]. auto.
  - apply String.eqb_eq in Ea. subst platform.
    unfold Files.uploadAWSFile, Files.await, mbind, Files.prog_mbind.
    change (@Files.s3_method ?A ?name ?call)
      with (@Files.Raise A (TypeError ("s3." +:+ name +:+ " is not a function"))).
    simpl.
    destruct (h _ (Files.Old getAWSS3) s) as [[e|[]] s1]; simpl.
    + split; [left; reflexivity|]. split; [discriminate|].
      intros _. split; [reflexivity|discriminate].
    + split; [left; reflexivity|]. split; [discriminate|].
      intros _. split; [reflexivity|]. intros s1' [= <-]. reflexivity.
  - apply String.eqb_eq in Ez. subst platform.
    unfold Files.uploadAzureFile, Files.await, mbind, Files.prog_mbind. simpl.
    destruct (h _ (Files.Old getAzureBlob) s) as [[e|[]] s1]; simpl;
      [split; [left; reflexivity|split; discriminate]|].
    destruct (h _ (Files.Az_upload _ _ _ _ _) s1) as [[e|etag] s2]; simpl.
    + split; [right; reflexivity|split; discriminate].
    + split; [right; reflexivity|]. split; [|discriminate].
      intros r s' [= <- <-]. auto.
  - apply String.eqb_neq in Ea. simpl.
    split; [left; reflexivity|]. split; [discriminate|]. intros ->. congruence.
Qed.

(** X23.  A [downloadFile] that resolves.  It ran on Provider A or C (on
    Provider B the adapter calls [s3.getObject], which the client does
    not have, so the call rejects); the content type of the result is
    never empty (the provider's when it gives one, else the one
    [mime.lookup] finds for the name, else "application/octet-stream");
    the bytes are those the provider delivered: for Provider A the
    downloaded buffer, and the metadata request that follows it succeeded
    too; for Provider C the chunks of the response stream, which ended
    without error, concatenated in the order received. *)
Theorem downloadFile_resolved platform bucketName fileName s r s' :
  Files.run h (Files.downloadFile mime_lookup platform bucketName fileName) s
    = (inr r, s') ->
  Files.dl_contentType r <> ""
  /\ (platform = "gcp" \/ platform = "azure")
  /\ (platform = "gcp" ->
      exists s1 s2 metadata,
        h _ (Files.Old getGCPStorage) s = (inr tt, s1)
        /\ h _ (Files.Gcs_download bucketName fileName) s1
           = (inr (Files.dl_buffer r), s2)
        /\ h _ (Files.Old (Gcs_getMetadata bucketName fileName)) s2
           = (inr metadata, s')
        /\ Files.dl_size r = md_size metadata
        /\ Files.dl_contentType r
           = or_else (md_contentType metadata)
               (Files.mime_or_default mime_lookup fileName))
  /\ (platform = "azure" ->
      exists s1 response,
        h _ (Files.Old getAzureBlob) s = (inr tt, s1)
        /\ h _ (Files.Az_download bucketName fileName) s1 = (inr response, s')
        /\ Files.failure (Files.readableStreamBody response) = None
        /\ Files.dl_buffer r
           = concat (Files.chunks (Files.readableStreamBody response))
        /\ Files.dl_size r = Some (Files.az_contentLength response)
        /\ Files.dl_contentType r
           = or_else (Files.az_contentType response)
               (Files.mime_or_default mime_lookup fileName)).
Proof.
  unfold Files.downloadFile. rewrite files_run_rethrow.
  destruct (String.eqb platform "gcp") eqn:Eg;
    [|destruct (String.eqb platform "aws") eqn:Ea;
      [|destruct (String.eqb platform "azure") eqn:Ez]].
  - apply String.eqb_eq in Eg. subst platform.
    unfold Files.downloadGCPFile, Files.await, mbind, Files.prog_mbind. simpl.
    destruct (h _ (Files.Old getGCPStorage) s) as [[e|[]] s1] eqn:H1; simpl;
      [discriminate|].
    destruct (h _ (Files.Gcs_download _ _) s1) as [[e|buffer] s2] eqn:H2; simpl;
      [discriminate|].
    destruct (h _ (Files.Old (Gcs_getMetadata _ _)) s2) as [[e|metadata] s3]
      eqn:H3; simpl; [discriminate|].
    intros [= <- <-]. simpl.
    split; [apply or_else_not_empty, mime_or_default_not_empty|].
    split; [auto|]. split; [|discriminate].
    intros _. exists s1, s2, metadata. repeat split; assumption.
  - unfold Files.downloadAWSFile, Files.await, mbind, Files.prog_mbind.
    change (@Files.s3_method ?A ?name ?call)
      with (@Files.Raise A (TypeError ("s3." +:+ name +:+ " is not a function"))).
    simpl.
    destruct (h _ (Files.Old getAWSS3) s) as [[e|[]] s1]; simpl; discriminate.
  - apply String.eqb_eq in Ez. subst platform.
    unfold Files.downloadAzureFile, Files.await, Files.streamToBuffer, mbind,
      Files.prog_mbind. simpl.
    destruct (h _ (Files.Old getAzureBlob) s) as [[e|[]] s1] eqn:H1; simpl;
      [discriminate|].
    destruct (h _ (Files.Az_download _ _) s1) as [[e|response] s2] eqn:H2; simpl;
      [discriminate|].
    destruct (Files.failure (Files.readableStreamBody response)) as [e|] eqn:Hf;
      simpl; [discriminate|].
    intros [= <- <-]. simpl.
    split; [apply or_else_not_empty, mime_or_default_not_empty|].
    split; [auto|]. split; [discriminate|].
    intros _. exists s1, response. repeat split; assumption.
  - discriminate.
Qed.

End WholeFiles.

Lemma downloadFile_resolved_witness :
  Files.dl_contentType
    {| Files.dl_buffer := [37; 80; 68]%N;
       Files.dl_contentType := "application/pdf";
       Files.dl_size := Some 3 |} <> "".
Proof.
  apply (downloadFile_resolved FilesExample.handle Cloud.mime_lookup
           "azure" "docs" "report.pdf" Cloud.empty _ Cloud.empty).
  vm_compute. reflexivity.
Defined.

Lemma uploadFile_sends_typed_file_witness :
  omap Files.sent_file
    (Files.calls FilesExample.handle
       (Files.uploadFile Cloud.mime_lookup "azure" "docs" "report.pdf" [37%N] None)
       Cloud.empty)
  = [("docs", "report.pdf", [37%N], Some "application/pdf")].
Proof.
  destruct (uploadFile_sends_typed_file FilesExample.handle Cloud.mime_lookup
              "azure" "docs" "report.pdf" [37%N] None Cloud.empty)
    as (_ & _ & H & _).
  eapply H. vm_compute. reflexivity.
Defined.

(** ** The name of an upload *)

Lemma replace_unsafe_app (a b : string) :
  replace_unsafe (a +:+ b) = replace_unsafe a +:+ replace_unsafe b.
Proof. induction a as [|c a IH]; simpl; [reflexivity|]. rewrite IH. reflexivity. Qed.

Lemma replace_unsafe_safe : forall s, all_chars safe_char (replace_unsafe s) = true.
Proof.
  induction s as [|c r IH]; simpl; [reflexivity|]. rewrite IH, andb_true_r.
  destruct (safe_char c) eqn:E; [exact E|reflexivity].
Qed.

Lemma replace_unsafe_id : forall s,
  all_chars safe_char s = true -> replace_unsafe s = s.
Proof.
  induction s as [|c r IH]; simpl; [reflexivity|]. intros H.
  apply andb_true_iff in H as [Hc Hr]. rewrite Hc, (IH Hr). reflexivity.
Qed.

Lemma replace_unsafe_length s :
  String.length (replace_unsafe s) = String.length s.
Proof. induction s as [|c r IH]; simpl; [reflexivity|]. rewrite IH. reflexivity. Qed.

(** X24.  The name under which [POST /upload] stores a file.  It has only
    letters, digits and the characters . _ / - ; it has as many characters
    as the name asked for, each unsafe one replaced by an underscore; a
    name asked for that is already safe is kept as it is, and cleaning the
    result again changes nothing.  With a record id, the result is the
    cleaned record id, a slash, and the cleaned name: the slash between
    them, and any slash or dot inside them, stays. *)
Theorem upload_name_is_safe
    (fileName : option string) (originalname : string) (recordId : option string) :
  let asked := requested_name fileName originalname recordId in
  let stored := finalFileName fileName originalname recordId in
  all_chars safe_char stored = true
  /\ String.length stored = String.length asked
  /\ (all_chars safe_char asked = true -> stored = asked)
  /\ replace_unsafe stored = stored
  /\ (forall id, truthy recordId = Some id ->
        stored = replace_unsafe id +:+ "/"
                 +:+ replace_unsafe (or_else fileName originalname)).
Proof.
  intros asked stored. subst asked stored. unfold finalFileName.
  split; [apply replace_unsafe_safe|].
  split; [apply replace_unsafe_length|].
  split; [apply replace_unsafe_id|].
  split; [apply replace_unsafe_id, replace_unsafe_safe|].
  intros id Hid. unfold requested_name. rewrite Hid.
  rewrite !replace_unsafe_app. reflexivity.
Qed.

Lemma upload_name_is_safe_witness :
  finalFileName (Some "my report (v2).pdf") "scan.pdf" (Some "001/A")
  = "001/A/my_report__v2_.pdf".
Proof.
  destruct (upload_name_is_safe (Some "my report (v2).pdf") "scan.pdf"
              (Some "001/A")) as (_ & _ & _ & _ & H).
  rewrite (H "001/A"); reflexivity.
Defined.
